(** * codechain-indexer: cursor pagination, UTXO queries and snapshots

    A shallow embedding of the request pipeline of the indexer's HTTP
    read API:

    - [src/models/logic/utils/middleware.ts]: [syncIfNeeded] and
      [parseEvaluatedKey];
    - [src/routers/asset.ts]: the [/utxo], [/aggs-utxo],
      [/aggs-utxo/count] and [/snapshot] handlers;
    - [src/routers/block.ts]: the [/block/:hashOrNumber] handler;
    - [src/models/block.ts]: the [BlockAttribute] record.

    The JavaScript the handlers rely on (truthiness, [&&], [||], [+],
    [parseInt], [isNaN], [JSON.parse], [JSON.stringify]) is defined first,
    then a small model of Express dispatch, then the middlewares and the
    handlers, then the theorems.

    The other routes of the two routers ([/asset-scheme/:assetType],
    [/asset-image/:assetType], [/block/latest], [/block], [/block/count])
    and the order of the block routes follow the example deployment; their
    theorems are at the end. *)

From Stdlib Require Import ZArith Lia Bool String Ascii List.
From Stdlib Require Import Decimal DecimalString DecimalFacts DecimalPos DecimalN DecimalZ.
From stdpp Require Import base option list gmap strings.
Import ListNotations.

#[local] Set Warnings "-register-all".

Local Open Scope string_scope.
Local Open Scope list_scope.
Local Open Scope Z_scope.

(** ** JavaScript values *)

Module JS.

(** Numbers are written in decimal: [Int z] is the integer [z], [Frac m k]
    with [k > 0] and [m] not divisible by ten is [m / 10^k], and there are
    the two infinities. A JavaScript number is an IEEE double: [parseInt]
    and [+] round the integers they produce to the nearest double, at
    [double_of_Z] below. [JSON.parse] keeps a number as its text writes it,
    which is the double the code holds for an integer of at most 53 bits
    (the block numbers and indices of a cursor), and not for longer ones or
    for fractions, which the code rounds. *)
Inductive number : Type :=
  | NaN
  | Infinity (negative : bool)
  | Int (z : Z)
  | Frac (m : Z) (k : nat).

Inductive value : Type :=
  | VUndef
  | VNull
  | VBool (b : bool)
  | VNum (n : number)
  | VStr (s : string)
  | VArr (l : list value)
  | VObj (fields : list (string * value)).

(** [m / 10^k] in normal form. *)
Fixpoint normalize (m : Z) (k : nat) : number :=
  match k with
  | O => Int m
  | S k' => if m mod 10 =? 0 then normalize (m / 10) k' else Frac m k
  end.

Definition num_is_zero (n : number) : bool :=
  match n with
  | NaN | Infinity _ => false
  | Int z => z =? 0
  | Frac m _ => m =? 0
  end.

(** ToBoolean. *)
Definition truthy (v : value) : bool :=
  match v with
  | VUndef | VNull => false
  | VBool b => b
  | VNum NaN => false
  | VNum n => negb (num_is_zero n)
  | VStr s => negb (String.eqb s "")
  | VArr _ | VObj _ => true
  end.

(** [a && b] and [a || b]: both sides are pure expressions here. *)
Definition js_and (a b : value) : value := if truthy a then b else a.
Definition js_or (a b : value) : value := if truthy a then a else b.

(** *** Number to string *)

Definition string_of_Z (z : Z) : string := NilZero.string_of_int (Z.to_int z).

Fixpoint zeros (n : nat) : string :=
  match n with
  | O => ""
  | S n' => String "0" (zeros n')
  end.

(** Plain decimal notation: what JavaScript prints for a magnitude from
    [1e-6] up to [1e21]; outside that range JavaScript writes an exponent,
    which is left out here. *)
Definition string_of_number (n : number) : string :=
  match n with
  | NaN => "NaN"
  | Infinity false => "Infinity"
  | Infinity true => "-Infinity"
  | Int z => string_of_Z z
  | Frac m k =>
      let a := Z.abs m in
      let p := 10 ^ Z.of_nat k in
      let frac := string_of_Z (a mod p) in
      (if m <? 0 then "-" else "")
        +:+ string_of_Z (a / p) +:+ "."
        +:+ zeros (k - String.length frac) +:+ frac
  end.

Fixpoint join (sep : string) (l : list string) : string :=
  match l with
  | [] => ""
  | [s] => s
  | s :: rest => s +:+ sep +:+ join sep rest
  end.

(** ToString. An array joins its elements with commas, [null] and
    [undefined] elements giving the empty string. *)
Fixpoint ToString (v : value) : string :=
  match v with
  | VUndef => "undefined"
  | VNull => "null"
  | VBool true => "true"
  | VBool false => "false"
  | VNum n => string_of_number n
  | VStr s => s
  | VArr l =>
      join ","
        (List.map (fun e => match e with
                            | VUndef | VNull => ""
                            | _ => ToString e
                            end) l)
  | VObj _ => "[object Object]"
  end.

(** *** Doubles *)

(** [Number.MAX_SAFE_INTEGER], [2^53 - 1]: every integer up to it in
    magnitude is a double, and so is the next one, [2^53]. *)
Definition MAX_SAFE_INTEGER : Z := 9007199254740991.

(** The double nearest to an integer. Up to [MAX_SAFE_INTEGER] in
    magnitude it is the integer itself. Beyond, a double keeps the 53
    leading bits: the bits below them are rounded to the nearest, a tie
    going to the even one, and what reaches [2^1024] is infinite. *)
Definition double_of_Z (z : Z) : number :=
  let a := Z.abs z in
  if a <=? MAX_SAFE_INTEGER then Int z
  else
    let e := Z.log2 a - 52 in
    let q := Z.shiftr a e in
    let r := Z.land a (Z.ones e) in
    let half := Z.shiftl 1 (e - 1) in
    let q' := if (r <? half) || ((r =? half) && Z.even q) then q else q + 1 in
    let rounded := Z.shiftl q' e in
    if 2 ^ 1024 <=? rounded then Infinity (z <? 0)
    else Int (if z <? 0 then - rounded else rounded).

(** *** Addition *)

(** The sum of two integers is rounded to a double; a sum with a fraction
    is kept as it is. *)
Definition num_add (a b : number) : number :=
  match a, b with
  | NaN, _ | _, NaN => NaN
  | Infinity s, Infinity s' => if Bool.eqb s s' then Infinity s else NaN
  | Infinity s, _ | _, Infinity s => Infinity s
  | Int x, Int y => double_of_Z (x + y)
  | Int x, Frac m k => normalize (x * 10 ^ Z.of_nat k + m) k
  | Frac m k, Int y => normalize (m + y * 10 ^ Z.of_nat k) k
  | Frac m1 k1, Frac m2 k2 =>
      let k := Nat.max k1 k2 in
      normalize (m1 * 10 ^ Z.of_nat (k - k1) + m2 * 10 ^ Z.of_nat (k - k2)) k
  end.

(** ToPrimitive: arrays and objects become their string. *)
Definition ToPrimitive (v : value) : value :=
  match v with
  | VArr _ | VObj _ => VStr (ToString v)
  | _ => v
  end.

(** ToNumber of a primitive that is not a string. *)
Definition ToNumber_nonstring (v : value) : number :=
  match v with
  | VNull => Int 0
  | VBool true => Int 1
  | VBool false => Int 0
  | VNum n => n
  | _ => NaN
  end.

(** [a + b]: concatenation as soon as one side is a string. *)
Definition js_add (a b : value) : value :=
  match ToPrimitive a, ToPrimitive b with
  | VStr s, pb => VStr (s +:+ ToString pb)
  | pa, VStr s => VStr (ToString pa +:+ s)
  | pa, pb => VNum (num_add (ToNumber_nonstring pa) (ToNumber_nonstring pb))
  end.

(** *** Digits *)

Definition digit_of (c : ascii) : option (uint -> uint) :=
  match c with
  | "0"%char => Some D0 | "1"%char => Some D1 | "2"%char => Some D2
  | "3"%char => Some D3 | "4"%char => Some D4 | "5"%char => Some D5
  | "6"%char => Some D6 | "7"%char => Some D7 | "8"%char => Some D8
  | "9"%char => Some D9
  | _ => None
  end.

Definition is_digit (c : ascii) : bool :=
  match digit_of c with Some _ => true | None => false end.

(** The longest prefix of decimal digits, and what follows it. *)
Fixpoint read_digits (s : string) : uint * string :=
  match s with
  | "" => (Nil, "")
  | String c r =>
      match digit_of c with
      | Some d => let (ds, rest) := read_digits r in (d ds, rest)
      | None => (Nil, s)
      end
  end.

(** *** parseInt(v, 10) *)

(** StrWhiteSpaceChar. A string holds the bytes of its UTF-8 text. The
    white space of one byte: TAB, LF, VT, FF, CR, SP. *)
Definition is_str_ws (c : ascii) : bool :=
  match c with
  | "009"%char | "010"%char | "011"%char | "012"%char | "013"%char
  | " "%char => true
  | _ => false
  end.

(** The white space of two bytes: U+00A0. *)
Definition is_str_ws2 (c1 c2 : ascii) : bool :=
  ((N_of_ascii c1 =? 194) && (N_of_ascii c2 =? 160))%N.

(** The white space of three bytes: U+1680, U+2000 to U+200A, U+2028,
    U+2029, U+202F, U+205F, U+3000 and U+FEFF. *)
Definition is_str_ws3 (c1 c2 c3 : ascii) : bool :=
  let a := N_of_ascii c1 in
  let b := N_of_ascii c2 in
  let c := N_of_ascii c3 in
  ((a =? 225) && (b =? 154) && (c =? 128)
   || (a =? 226) && (b =? 128)
      && ((128 <=? c) && (c <=? 138) || (c =? 168) || (c =? 169) || (c =? 175))
   || (a =? 226) && (b =? 129) && (c =? 159)
   || (a =? 227) && (b =? 128) && (c =? 128)
   || (a =? 239) && (b =? 187) && (c =? 191))%N.

(** The code points of StrWhiteSpaceChar: WhiteSpace and LineTerminator. *)
Definition str_ws_code_points : list N :=
  [9; 10; 11; 12; 13; 32; 160; 5760; 8192; 8193; 8194; 8195; 8196; 8197;
   8198; 8199; 8200; 8201; 8202; 8232; 8233; 8239; 8287; 12288; 65279]%N.

Fixpoint trim_left (s : string) : string :=
  match s with
  | "" => ""
  | String c r =>
      if is_str_ws c then trim_left r
      else
        match r with
        | String c2 r2 =>
            if is_str_ws2 c c2 then trim_left r2
            else
              match r2 with
              | String c3 r3 => if is_str_ws3 c c2 c3 then trim_left r3 else s
              | "" => s
              end
        | "" => s
        end
  end.

(** The integer is rounded to a double, as V8 does whatever the number of
    digits. *)
Definition parseInt_string (s : string) : number :=
  let s1 := trim_left s in
  let '(neg, s2) :=
    match s1 with
    | String "-" r => (true, r)
    | String "+" r => (false, r)
    | _ => (false, s1)
    end in
  match read_digits s2 with
  | (Nil, _) => NaN
  | (ds, _) => double_of_Z (if neg : bool then - Z.of_uint ds else Z.of_uint ds)
  end.

Definition parseInt (v : value) : number := parseInt_string (ToString v).

(** *** isNaN on a string

    [isNaN(s)] is true when ToNumber(s) is NaN, that is when [s], trimmed,
    is neither empty nor a StrNumericLiteral: a signed decimal literal
    (digits with an optional fraction and exponent, or [Infinity]), or an
    unsigned [0x], [0o] or [0b] integer literal. *)

(** White space only. *)
Fixpoint is_blank (s : string) : bool :=
  match s with
  | "" => true
  | String c r =>
      if is_str_ws c then is_blank r
      else
        match r with
        | String c2 r2 =>
            if is_str_ws2 c c2 then is_blank r2
            else
              match r2 with
              | String c3 r3 => is_str_ws3 c c2 c3 && is_blank r3
              | "" => false
              end
        | "" => false
        end
  end.

Fixpoint trim_right (s : string) : string :=
  match s with
  | "" => ""
  | String c r => if is_blank s then "" else String c (trim_right r)
  end.

Definition trim (s : string) : string := trim_right (trim_left s).

Fixpoint all_chars (p : ascii -> bool) (s : string) : bool :=
  match s with
  | "" => true
  | String c r => p c && all_chars p r
  end.

Definition is_hex_digit (c : ascii) : bool :=
  let n := nat_of_ascii c in
  ((48 <=? n) && (n <=? 57) || (97 <=? n) && (n <=? 102)
   || (65 <=? n) && (n <=? 70))%nat.

Definition is_octal_digit (c : ascii) : bool :=
  let n := nat_of_ascii c in ((48 <=? n) && (n <=? 55))%nat.

Definition is_binary_digit (c : ascii) : bool :=
  let n := nat_of_ascii c in ((48 <=? n) && (n <=? 49))%nat.

Definition nonempty_all (p : ascii -> bool) (s : string) : bool :=
  negb (String.eqb s "") && all_chars p s.

(** An optional exponent part, then the end of the string. *)
Definition exponent_then_end (s : string) : bool :=
  match s with
  | "" => true
  | String c r =>
      if (Ascii.eqb c "e" || Ascii.eqb c "E")%bool then
        let r1 := match r with
                  | String "+" r' | String "-" r' => r'
                  | _ => r
                  end in
        nonempty_all is_digit r1
      else false
  end.

(** StrUnsignedDecimalLiteral. *)
Definition is_unsigned_decimal (s : string) : bool :=
  if String.eqb s "Infinity" then true
  else
    let '(ip, s1) := read_digits s in
    match s1 with
    | String "." r =>
        let '(fp, s2) := read_digits r in
        match ip, fp with
        | Nil, Nil => false
        | _, _ => exponent_then_end s2
        end
    | _ => match ip with Nil => false | _ => exponent_then_end s1 end
    end.

Definition is_numeric_literal (s : string) : bool :=
  match s with
  | String "0" (String x r) =>
      if (Ascii.eqb x "x" || Ascii.eqb x "X")%bool then nonempty_all is_hex_digit r
      else if (Ascii.eqb x "o" || Ascii.eqb x "O")%bool then nonempty_all is_octal_digit r
      else if (Ascii.eqb x "b" || Ascii.eqb x "B")%bool then nonempty_all is_binary_digit r
      else is_unsigned_decimal s
  | String "+" r | String "-" r => is_unsigned_decimal r
  | _ => is_unsigned_decimal s
  end.

Definition isNaN_string (s : string) : bool :=
  let t := trim s in
  negb (String.eqb t "" || is_numeric_literal t).

(** *** JSON.parse *)

Definition is_json_ws (c : ascii) : bool :=
  match c with
  | " "%char | "009"%char | "010"%char | "013"%char => true
  | _ => false
  end.

Fixpoint skip_ws (s : string) : string :=
  match s with
  | "" => ""
  | String c r => if is_json_ws c then skip_ws r else s
  end.

Fixpoint strip_prefix (p s : string) : option string :=
  match p, s with
  | "", _ => Some s
  | String a p', String b s' => if Ascii.eqb a b then strip_prefix p' s' else None
  | _, "" => None
  end.

(** The integer part of a JSON number: [0], or digits that do not start
    with [0]. *)
Definition valid_int_part (d : uint) : bool :=
  match d with
  | Nil => false
  | D0 Nil => true
  | D0 _ => false
  | _ => true
  end.

(** The number written [int_part.frac_part e exp], as written: no
    rounding, no overflow and no underflow. *)
Definition number_of_parts (neg : bool) (int_part frac_part : uint) (exp : Z)
  : number :=
  let k := Z.of_nat (nb_digits frac_part) in
  let m := Z.of_uint int_part * 10 ^ k + Z.of_uint frac_part in
  let m := if neg then - m else m in
  if k <=? exp then Int (m * 10 ^ (exp - k))
  else normalize m (Z.to_nat (k - exp)).

(** An optional minus sign. *)
Definition split_minus (s : string) : bool * string :=
  match s with
  | String c r => if Ascii.eqb c "-" then (true, r) else (false, s)
  | "" => (false, s)
  end.

(** An optional sign. *)
Definition split_sign (s : string) : bool * string :=
  match s with
  | String c r =>
      if Ascii.eqb c "-" then (true, r)
      else if Ascii.eqb c "+" then (false, r)
      else (false, s)
  | "" => (false, s)
  end.

Definition parse_fraction (s : string) : option (uint * string) :=
  match s with
  | String c r =>
      if Ascii.eqb c "." then
        match read_digits r with
        | (Nil, _) => None
        | (fp, rest) => Some (fp, rest)
        end
      else Some (Nil, s)
  | "" => Some (Nil, s)
  end.

Definition parse_exponent (s : string) : option (Z * string) :=
  match s with
  | String c r =>
      if (Ascii.eqb c "e" || Ascii.eqb c "E")%bool then
        let '(neg, r1) := split_sign r in
        match read_digits r1 with
        | (Nil, _) => None
        | (ds, rest) =>
            Some (if neg : bool then - Z.of_uint ds else Z.of_uint ds, rest)
        end
      else Some (0, s)
  | "" => Some (0, s)
  end.

Definition parse_number (s : string) : option (number * string) :=
  let '(neg, s1) := split_minus s in
  let '(ip, s2) := read_digits s1 in
  if valid_int_part ip then
    match parse_fraction s2 with
    | Some (fp, s3) =>
        match parse_exponent s3 with
        | Some (e, s4) => Some (number_of_parts neg ip fp e, s4)
        | None => None
        end
    | None => None
    end
  else None.

Definition hex_value (c : ascii) : option N :=
  let n := N_of_ascii c in
  if ((48 <=? n) && (n <=? 57))%N then Some (n - 48)%N
  else if ((97 <=? n) && (n <=? 102))%N then Some (n - 87)%N
  else if ((65 <=? n) && (n <=? 70))%N then Some (n - 55)%N
  else None.

Definition hex4 (a b c d : ascii) : option N :=
  match hex_value a, hex_value b, hex_value c, hex_value d with
  | Some x, Some y, Some z, Some w => Some (((x * 16 + y) * 16 + z) * 16 + w)%N
  | _, _, _, _ => None
  end.

(** A code unit of the basic plane as the bytes of the string (UTF-8);
    surrogate pairs are not recombined. *)
Definition utf8_encode (cp : N) : string :=
  if (cp <? 128)%N then String (ascii_of_N cp) ""
  else if (cp <? 2048)%N then
    String (ascii_of_N (192 + cp / 64))
      (String (ascii_of_N (128 + cp mod 64)) "")
  else
    String (ascii_of_N (224 + cp / 4096))
      (String (ascii_of_N (128 + (cp / 64) mod 64))
         (String (ascii_of_N (128 + cp mod 64)) "")).

Definition unescape (c : ascii) : option ascii :=
  match c with
  | "034"%char => Some "034"%char
  | "\"%char => Some "\"%char
  | "/"%char => Some "/"%char
  | "b"%char => Some "008"%char
  | "f"%char => Some "012"%char
  | "n"%char => Some "010"%char
  | "r"%char => Some "013"%char
  | "t"%char => Some "009"%char
  | _ => None
  end.

(** The characters of a string literal after its opening quote, up to and
    including the closing quote. *)
Fixpoint parse_chars (s : string) : option (string * string) :=
  match s with
  | "" => None
  | String c r =>
      if Ascii.eqb c "034" then Some ("", r)
      else if Ascii.eqb c "\" then
        match r with
        | "" => None
        | String e r' =>
            if Ascii.eqb e "u" then
              match r' with
              | String h1 (String h2 (String h3 (String h4 r''))) =>
                  match hex4 h1 h2 h3 h4, parse_chars r'' with
                  | Some cp, Some (str, rest) =>
                      Some (utf8_encode cp +:+ str, rest)
                  | _, _ => None
                  end
              | _ => None
              end
            else
              match unescape e, parse_chars r' with
              | Some c', Some (str, rest) => Some (String c' str, rest)
              | _, _ => None
              end
        end
      else if (N_of_ascii c <? 32)%N then None
      else
        match parse_chars r with
        | Some (str, rest) => Some (String c str, rest)
        | None => None
        end
  end.

(** A later member replaces an earlier one of the same key, in place. *)
Fixpoint obj_set (k : string) (v : value) (fs : list (string * value))
  : list (string * value) :=
  match fs with
  | [] => [(k, v)]
  | (k', v') :: rest =>
      if String.eqb k k' then (k, v) :: rest else (k', v') :: obj_set k v rest
  end.

Definition obj_of_members (fs : list (string * value)) : list (string * value) :=
  fold_left (fun acc kv => obj_set (fst kv) (snd kv) acc) fs [].

(** Recursive descent on the text, [fuel] bounding the nesting and the
    number of elements. *)
Fixpoint parse_value (fuel : nat) (s : string) : option (value * string) :=
  match fuel with
  | O => None
  | S fuel' =>
      match skip_ws s with
      | "" => None
      | String c r =>
          if Ascii.eqb c "[" then
            match skip_ws r with
            | "" => None
            | String c1 r' =>
                if Ascii.eqb c1 "]" then Some (VArr [], r')
                else
                  match parse_elems fuel' (String c1 r') with
                  | Some (vs, rest) => Some (VArr vs, rest)
                  | None => None
                  end
            end
          else if Ascii.eqb c "{" then
            match skip_ws r with
            | "" => None
            | String c1 r' =>
                if Ascii.eqb c1 "}" then Some (VObj [], r')
                else
                  match parse_members fuel' (String c1 r') with
                  | Some (fs, rest) => Some (VObj (obj_of_members fs), rest)
                  | None => None
                  end
            end
          else if Ascii.eqb c "034" then
            match parse_chars r with
            | Some (str, rest) => Some (VStr str, rest)
            | None => None
            end
          else if Ascii.eqb c "n" then
            match strip_prefix "ull" r with
            | Some rest => Some (VNull, rest)
            | None => None
            end
          else if Ascii.eqb c "t" then
            match strip_prefix "rue" r with
            | Some rest => Some (VBool true, rest)
            | None => None
            end
          else if Ascii.eqb c "f" then
            match strip_prefix "alse" r with
            | Some rest => Some (VBool false, rest)
            | None => None
            end
          else
            match parse_number (String c r) with
            | Some (n, rest) => Some (VNum n, rest)
            | None => None
            end
      end
  end

(** Elements after [[]: a value, then [,] and more elements, or []]. *)
with parse_elems (fuel : nat) (s : string) : option (list value * string) :=
  match fuel with
  | O => None
  | S fuel' =>
      match parse_value fuel' s with
      | Some (v, r) =>
          match skip_ws r with
          | "" => None
          | String c r' =>
              if Ascii.eqb c "," then
                match parse_elems fuel' r' with
                | Some (vs, rest) => Some (v :: vs, rest)
                | None => None
                end
              else if Ascii.eqb c "]" then Some ([v], r')
              else None
          end
      | None => None
      end
  end

(** Members after [{]: a key, [:], a value, then [,] and more members, or
    [}]. *)
with parse_members (fuel : nat) (s : string)
  : option (list (string * value) * string) :=
  match fuel with
  | O => None
  | S fuel' =>
      match skip_ws s with
      | "" => None
      | String q r =>
          if Ascii.eqb q "034" then
            match parse_chars r with
            | Some (key, r1) =>
                match skip_ws r1 with
                | "" => None
                | String colon r2 =>
                    if Ascii.eqb colon ":" then
                      match parse_value fuel' r2 with
                      | Some (v, r3) =>
                          match skip_ws r3 with
                          | "" => None
                          | String c r4 =>
                              if Ascii.eqb c "," then
                                match parse_members fuel' r4 with
                                | Some (fs, rest) => Some ((key, v) :: fs, rest)
                                | None => None
                                end
                              else if Ascii.eqb c "}" then Some ([(key, v)], r4)
                              else None
                          end
                      | None => None
                      end
                    else None
                end
            | None => None
            end
          else None
      end
  end.

(** [JSON.parse(text)]: [None] is the SyntaxError it throws. The argument
    goes through ToString first. *)
Definition JSON_parse_string (s : string) : option value :=
  match parse_value (2 * String.length s + 2) s with
  | Some (v, rest) =>
      match skip_ws rest with
      | "" => Some v
      | _ => None
      end
  | None => None
  end.

Definition JSON_parse (text : value) : option value :=
  JSON_parse_string (ToString text).

(** *** JSON.stringify *)

Definition hex_char (n : N) : ascii :=
  if (n <? 10)%N then ascii_of_N (48 + n) else ascii_of_N (87 + n).

Definition escape_char (c : ascii) : string :=
  match c with
  | "034"%char => String "\" (String "034" "")
  | "\"%char => String "\" (String "\" "")
  | "008"%char => String "\" "b"
  | "012"%char => String "\" "f"
  | "010"%char => String "\" "n"
  | "013"%char => String "\" "r"
  | "009"%char => String "\" "t"
  | _ =>
      let n := N_of_ascii c in
      if (n <? 32)%N then
        String "\" (String "u" (String "0" (String "0"
          (String (hex_char (n / 16)) (String (hex_char (n mod 16)) "")))))
      else String c ""
  end.

Fixpoint escape (s : string) : string :=
  match s with
  | "" => ""
  | String c r => escape_char c +:+ escape r
  end.

Definition quote (s : string) : string :=
  String "034" (escape s +:+ String "034" "").

(** [JSON.stringify(v)] for a value that is not [undefined] at top level;
    an [undefined], [NaN] or infinite element of an array is written
    [null], an [undefined] member of an object is left out. *)
Fixpoint JSON_stringify (v : value) : string :=
  match v with
  | VUndef | VNull => "null"
  | VBool true => "true"
  | VBool false => "false"
  | VNum NaN | VNum (Infinity _) => "null"
  | VNum n => string_of_number n
  | VStr s => quote s
  | VArr l => "[" +:+ join "," (List.map JSON_stringify l) +:+ "]"
  | VObj fs =>
      "{" +:+ join ","
        (List.flat_map
           (fun kv => let (k, x) := kv : string * value in
                      match x with
                      | VUndef => []
                      | _ => [quote k +:+ ":" +:+ JSON_stringify x]
                      end) fs) +:+ "}"
  end.

End JS.


Import JS.

(** ** Hashes (codechain-primitives)

    [new H160(v)] and [new H256(v)] accept a string of 40, respectively 64,
    hexadecimal digits with an optional [0x] prefix, and throw on anything
    else, a value that is no string included. A hash is represented by the
    string it was built from. *)

Module Primitives.

Definition is_hex_string (digits : nat) (s : string) : bool :=
  let body := match s with
              | String "0" (String "x" r) => r
              | _ => s
              end in
  (String.length body =? digits)%nat && all_chars is_hex_digit body.

Record H160 : Type := mkH160 { H160_value : string }.
Record H256 : Type := mkH256 { H256_value : string }.

Definition H160_check (v : value) : bool :=
  match v with
  | VStr s => is_hex_string 40 s
  | _ => false
  end.

Definition H256_check (v : value) : bool :=
  match v with
  | VStr s => is_hex_string 64 s
  | _ => false
  end.

End Primitives.

(** ** Express: requests, effects and dispatch *)

Module Express.

Import Primitives.

(** What a handler can throw or pass to [next]: an [Error] with its
    message, the TypeError and the SyntaxError of the engine, and the
    errors of src/exception and of routers/validator. *)
Inductive exn : Type :=
  | JsError (message : string)
  | TypeError
  | SyntaxError
  | InvalidDateParam
  | ValidationFailure (detail : string).

Inductive result (A : Type) : Type :=
  | Returns (a : A)
  | Throws (e : exn).
Arguments Returns {A} a.
Arguments Throws {A} e.

(** [req.query]; a key that is not bound reads as [undefined]. *)
Abbreviation Query := (gmap string value).

Definition param (q : Query) (k : string) : value := default VUndef (q !! k).

Inductive Order : Type := order_assetType | order_address.

(** src/models/block.ts, [BlockAttribute]. Buffers are byte lists. *)
Record BlockAttribute : Type := {
  parentHash : string;
  timestamp : Z;
  number : Z;
  author : string;
  extraData : list N;
  parcelsRoot : string;
  stateRoot : string;
  invoicesRoot : string;
  score : string;
  seal : list (list N);
  hash : string;
  miningReward : string;
  createdAt : option string;
  updatedAt : option string;
  parcels : option (list value)
}.

Definition buffer_json (b : list N) : value :=
  VObj [("type", VStr "Buffer");
        ("data", VArr (List.map (fun x => VNum (Int (Z.of_N x))) b))].

Definition optional (o : option value) : value := default VUndef o.

(** [inst.get({ plain: true })] *)
Definition plain (b : BlockAttribute) : value :=
  VObj [("hash", VStr (hash b));
        ("parentHash", VStr (parentHash b));
        ("timestamp", VNum (Int (timestamp b)));
        ("number", VNum (Int (number b)));
        ("author", VStr (author b));
        ("extraData", buffer_json (extraData b));
        ("parcelsRoot", VStr (parcelsRoot b));
        ("stateRoot", VStr (stateRoot b));
        ("invoicesRoot", VStr (invoicesRoot b));
        ("score", VStr (score b));
        ("seal", VArr (List.map buffer_json (seal b)));
        ("miningReward", VStr (miningReward b));
        ("createdAt", optional (VStr <$> createdAt b));
        ("updatedAt", optional (VStr <$> updatedAt b));
        ("parcels", optional (VArr <$> parcels b))].

(** The arguments of the calls into models/logic/utxo. *)
Module GetUTXO.
Record params : Type := {
  address : value;
  assetType : option H160;
  shardId : value;
  itemsPerPage : value;
  firstEvaluatedKey : value;
  lastEvaluatedKey : value;
  onlyConfirmed : value;
  confirmThreshold : value
}.
End GetUTXO.

Module GetAggsUTXO.
Record params : Type := {
  order : Order;
  address : value;
  assetType : option H160;
  shardId : value;
  itemsPerPage : value;
  firstEvaluatedKey : value;
  lastEvaluatedKey : value;
  onlyConfirmed : value;
  confirmThreshold : value
}.
End GetAggsUTXO.

Module GetCountOfAggsUTXO.
Record params : Type := {
  address : value;
  assetType : option H160;
  shardId : value;
  onlyConfirmed : value;
  confirmThreshold : value
}.
End GetCountOfAggsUTXO.

Module GetSnapshot.
Record params : Type := {
  assetType : H160;
  blockNumber : value;
  lastEvaluatedKey : value
}.
End GetSnapshot.

(** The argument of [createPaginationResult] (routers/pagination). *)
Module Pagination.
Record params : Type := {
  query_firstEvaluatedKey : value;
  query_lastEvaluatedKey : value;
  rows : list value;
  getEvaluatedKey : value -> string;
  itemsPerPage : value
}.
End Pagination.

(** Calls that leave the router: the sync worker and the storage models. *)
Inductive call : Type :=
  | worker_sync
  | UTXOModel_getUTXO (p : GetUTXO.params)
  | UTXOModel_getAggsUTXO (p : GetAggsUTXO.params)
  | UTXOModel_getCountOfAggsUTXO (p : GetCountOfAggsUTXO.params)
  | UTXOModel_getSnapshot (p : GetSnapshot.params)
  | BlockModel_getByTime (unix : Z)
  | BlockModel_getByHash (h : H256)
  | BlockModel_getByNumber (n : JS.number).

Inductive response : Type :=
  | Json (body : value)
  | Status (code : Z).

(** What a request does, in order: calls out, a response, [next()] and
    [next(e)]. *)
Inductive event : Type :=
  | Call (c : call)
  | Send (r : response)
  | Next
  | NextErr (e : exn).

(** The request validation schemas of routers/validator, by name. *)
Inductive schema : Type :=
  | utxoSchema
  | paginationSchema
  | utxoPaginationSchema
  | aggsUTXOPaginationSchema
  | snapshotSchema
  | snapshotPaginationSchema.

#[export] Instance schema_eq_dec : EqDecision schema.
Proof. solve_decision. Defined.

(** Everything the routers receive from outside: the context's worker, the
    models they import, the validator and the date library. A storage call
    is an oracle: its answer is whatever the store holds when it is asked.
    Sequelize instances are represented by their plain objects
    ([inst.get({ plain: true })]), [worker.sync()] by the message of the
    error it rejects with, if any, and [moment(date)] by the Unix time of a
    valid date. *)
Record Env : Type := {
  validate_query : list schema -> Query -> Query + string;
  sync : option string;
  getUTXO : GetUTXO.params -> result (list value);
  getAggsUTXO : GetAggsUTXO.params -> result (list value);
  getCountOfAggsUTXO : GetCountOfAggsUTXO.params -> result value;
  getSnapshot : GetSnapshot.params -> result (list (string * value));
  getByTime : Z -> result (option BlockAttribute);
  getByHash : H256 -> result (option BlockAttribute);
  getByNumber : JS.number -> result (option BlockAttribute);
  createPaginationResult : Pagination.params -> value;
  createUTXOEvaluatedKey : value -> string;
  createAggsUTXOEvaluatedKey : value -> Order -> string;
  moment_unix : value -> option Z
}.

(** *** The handler monad: [req.query], the events so far, and exceptions *)

Definition M (A : Type) : Type := Query -> Query * list event * result A.

#[export] Instance M_ret : MRet M := fun A a q => (q, [], Returns a).

#[export] Instance M_bind : MBind M := fun A B f m q =>
  match m q with
  | (q1, ev1, Returns a) =>
      let '(q2, ev2, r) := f a q1 in (q2, ev1 ++ ev2, r)
  | (q1, ev1, Throws e) => (q1, ev1, Throws e)
  end.

Definition throw {A} (e : exn) : M A := fun q => (q, [], Throws e).

(** [try { body } catch (e) { handler(e) }] *)
Definition try_catch {A} (body : M A) (handler : exn -> M A) : M A := fun q =>
  match body q with
  | (q1, ev1, Throws e) =>
      let '(q2, ev2, r) := handler e q1 in (q2, ev1 ++ ev2, r)
  | done => done
  end.

Definition query (k : string) : M value := fun q => (q, [], Returns (param q k)).

Definition set_query (k : string) (v : value) : M unit := fun q =>
  (<[k := v]> q, [], Returns tt).

Definition emit (ev : event) : M unit := fun q => (q, [ev], Returns tt).

Definition next : M unit := emit Next.
Definition next_err (e : exn) : M unit := emit (NextErr e).
Definition res_json (body : value) : M unit := emit (Send (Json body)).
Definition res_status_send (code : Z) : M unit := emit (Send (Status code)).

(** [await f(args)]: the call is recorded, its outcome is the oracle's. *)
Definition await {A} (c : call) (outcome : result A) : M A := fun q =>
  (q, [Call c], outcome).

Definition when (b : bool) (m : M unit) : M unit := if b then m else mret tt.

(** A middleware or a final handler, as Express sees it. *)
Definition middleware : Type := Query -> Query * list event.

Definition run (body : M unit) : middleware := fun q =>
  let '(q', evs, _) := body q in (q', evs).

(** [router.get(path, m1, ..., mn)]. The route keeps one index into its
    stack, which the [next] of every function shares. [next()] enters the
    function at the index, with the request as it then is, and moves the
    index on. [next(e)] moves the index past every function left, none of
    them taking an error, and hands [e] to the error handler. So a
    [next()] that comes after a [next(e)], like any [next()] at the end of
    the stack, finds no function and leaves the route.

    [enter layers left q evs] goes through the events [evs] of a function,
    [left] being the functions from the index on and [layers] a bound on
    their number; it gives the events of the request and what is left of
    the stack and of the query. *)
Fixpoint enter (layers : nat)
  : list middleware -> Query -> list event
    -> list event * (list middleware * Query) :=
  fix continue (left : list middleware) (q : Query) (evs : list event)
    {struct evs} : list event * (list middleware * Query) :=
    match evs with
    | [] => ([], (left, q))
    | Next :: evs' =>
        match layers, left with
        | S layers', m :: rest =>
            let (q1, evs1) := m q in
            let '(out1, (left1, q2)) := enter layers' rest q1 evs1 in
            let '(out2, state) := continue left1 q2 evs' in
            (out1 ++ out2, state)
        | _, _ => continue [] q evs'
        end
    | NextErr e :: evs' =>
        let '(out, state) := continue [] q evs' in (NextErr e :: out, state)
    | ev :: evs' =>
        let '(out, state) := continue left q evs' in (ev :: out, state)
    end.

(** A request on a route: Express calls [next()] on the whole stack. *)
Definition dispatch (stack : list middleware) (q : Query) : list event :=
  fst (enter (length stack) stack q [Next]).

End Express.

(** ** src/models/logic/utils/middleware.ts *)

Module Middleware.

Import Express.

(** http-status-codes *)
Definition SERVICE_UNAVAILABLE : Z := 503.

Fixpoint contains (pattern s : string) : bool :=
  String.prefix pattern s
  || match s with
     | "" => false
     | String _ r => contains pattern r
     end.

(** [message.search(/ECONNRESET|ECONNREFUSED/) >= 0] *)
Definition is_connection_error (message : string) : bool :=
  contains "ECONNRESET" message || contains "ECONNREFUSED" message.

(** [e.message]. The text of a TypeError or a SyntaxError is the engine's
    and that of InvalidDateParam is set in src/exception; the worker raises
    none of them. *)
Definition message_of (e : exn) : string :=
  match e with
  | JsError message => message
  | ValidationFailure detail => detail
  | TypeError | SyntaxError | InvalidDateParam => ""
  end.

(** [v === true] *)
Definition strictly_true (v : value) : bool :=
  match v with
  | VBool true => true
  | _ => false
  end.

(** [context.worker.sync()] *)
Definition worker_sync_outcome (context : Env) : result unit :=
  match sync context with
  | None => Returns tt
  | Some message => Throws (JsError message)
  end.

(** The boolean tells whether the handler returned inside the [catch]. *)
Definition syncIfNeeded (context : Env) : M unit :=
  wanted ← query "sync";
  returned ←
    (if strictly_true wanted then
       try_catch
         (await worker_sync (worker_sync_outcome context);; mret false)
         (fun e =>
            if is_connection_error (message_of e) then
              res_status_send SERVICE_UNAVAILABLE;; mret true
            else
              next_err e;; mret false)
     else mret false);
  if returned : bool then mret tt else next.

Definition JSON_parse_or_throw (text : value) : M value :=
  match JSON_parse text with
  | Some v => mret v
  | None => throw SyntaxError
  end.

Definition conflict_message : string :=
  "Conflict lastEvaluatedKey and firstEvaluatedKey".

Definition parseEvaluatedKey : M unit :=
  try_catch
    (first ← query "firstEvaluatedKey";
     when (truthy first)
       (parsed ← JSON_parse_or_throw first;
        set_query "firstEvaluatedKey" parsed);;
     last ← query "lastEvaluatedKey";
     when (truthy last)
       (parsed ← JSON_parse_or_throw last;
        set_query "lastEvaluatedKey" parsed);;
     last ← query "lastEvaluatedKey";
     first ← query "firstEvaluatedKey";
     (if truthy (js_and last first) then throw (JsError conflict_message)
      else mret tt);;
     next)
    next_err.

(** [validate({ query: {...schemas} })] of routers/validator: the request
    goes on with the validated query, or the failure goes to [next]. *)
Definition validate (context : Env) (schemas : list schema) : middleware :=
  fun q =>
    match validate_query context schemas q with
    | inl q' => (q', [Next])
    | inr detail => (q, [NextErr (ValidationFailure detail)])
    end.

End Middleware.

(** ** src/routers/asset.ts *)

Module AssetRouter.

Import Primitives Express Middleware.

Definition double_quoted (s : string) : string :=
  String "034" (s +:+ String "034" "").

(** What [new H160(v)] throws. The constructor tests its regular
    expression on the string form of [v]: when that fails it throws the
    Error below; when that passes, as it does for an array holding one
    hash, and [v] is no string, [v.startsWith] is not a function and the
    engine throws a TypeError. *)
Definition H160_error (v : value) : exn :=
  if is_hex_string 40 (ToString v) then TypeError
  else JsError ("Expected 20 byte hexstring for creating H160 but found "
                  +:+ double_quoted (ToString v)).

(** [new H160(v)] *)
Definition new_H160 (v : value) : M H160 :=
  if H160_check v then mret (mkH160 (ToString v)) else throw (H160_error v).

(** [v && parseInt(v, 10)] *)
Definition and_parseInt (v : value) : value := js_and v (VNum (parseInt v)).

(** [(v && parseInt(v, 10)) || 15] *)
Definition itemsPerPage_of (v : value) : value :=
  js_or (and_parseInt v) (VNum (Int 15)).

(** [if (assetTypeString) { assetType = new H160(assetTypeString); }] *)
Definition assetType_of (assetTypeString : value) : M (option H160) :=
  if truthy assetTypeString then
    h ← new_H160 assetTypeString; mret (Some h)
  else mret None.

(** GET /utxo, the final handler. *)
Definition utxo_handler (context : Env) : M unit :=
  address ← query "address";
  assetTypeString ← query "assetType";
  shardId ← query "shardId";
  let shardId := and_parseInt shardId in
  itemsPerPage ← query "itemsPerPage";
  let itemsPerPage := itemsPerPage_of itemsPerPage in
  onlyConfirmed ← query "onlyConfirmed";
  confirmThreshold ← query "confirmThreshold";
  let confirmThreshold := and_parseInt confirmThreshold in
  lastEvaluatedKey ← query "lastEvaluatedKey";
  firstEvaluatedKey ← query "firstEvaluatedKey";
  try_catch
    (assetType ← assetType_of assetTypeString;
     let p := {| GetUTXO.address := address;
                 GetUTXO.assetType := assetType;
                 GetUTXO.shardId := shardId;
                 GetUTXO.itemsPerPage := js_add itemsPerPage (VNum (Int 1));
                 GetUTXO.firstEvaluatedKey := firstEvaluatedKey;
                 GetUTXO.lastEvaluatedKey := lastEvaluatedKey;
                 GetUTXO.onlyConfirmed := onlyConfirmed;
                 GetUTXO.confirmThreshold := confirmThreshold |} in
     utxo ← await (UTXOModel_getUTXO p) (getUTXO context p);
     res_json
       (createPaginationResult context
          {| Pagination.query_firstEvaluatedKey := firstEvaluatedKey;
             Pagination.query_lastEvaluatedKey := lastEvaluatedKey;
             Pagination.rows := utxo;
             Pagination.getEvaluatedKey := createUTXOEvaluatedKey context;
             Pagination.itemsPerPage := itemsPerPage |}))
    next_err.

(** [if (address) { order = "assetType"; } else { order = "address"; }] *)
Definition order_of (address : value) : Order :=
  if truthy address then order_assetType else order_address.

(** GET /aggs-utxo, the final handler. *)
Definition aggs_utxo_handler (context : Env) : M unit :=
  address ← query "address";
  assetTypeString ← query "assetType";
  shardId ← query "shardId";
  let shardId := and_parseInt shardId in
  itemsPerPage ← query "itemsPerPage";
  let itemsPerPage := itemsPerPage_of itemsPerPage in
  onlyConfirmed ← query "onlyConfirmed";
  confirmThreshold ← query "confirmThreshold";
  let confirmThreshold := and_parseInt confirmThreshold in
  firstEvaluatedKey ← query "firstEvaluatedKey";
  lastEvaluatedKey ← query "lastEvaluatedKey";
  let order := order_of address in
  try_catch
    (assetType ← assetType_of assetTypeString;
     let p := {| GetAggsUTXO.order := order;
                 GetAggsUTXO.address := address;
                 GetAggsUTXO.assetType := assetType;
                 GetAggsUTXO.shardId := shardId;
                 GetAggsUTXO.itemsPerPage := js_add itemsPerPage (VNum (Int 1));
                 GetAggsUTXO.firstEvaluatedKey := firstEvaluatedKey;
                 GetAggsUTXO.lastEvaluatedKey := lastEvaluatedKey;
                 GetAggsUTXO.onlyConfirmed := onlyConfirmed;
                 GetAggsUTXO.confirmThreshold := confirmThreshold |} in
     aggs ← await (UTXOModel_getAggsUTXO p) (getAggsUTXO context p);
     res_json
       (createPaginationResult context
          {| Pagination.query_firstEvaluatedKey := firstEvaluatedKey;
             Pagination.query_lastEvaluatedKey := lastEvaluatedKey;
             Pagination.rows := aggs;
             Pagination.getEvaluatedKey :=
               (fun row => createAggsUTXOEvaluatedKey context row order);
             Pagination.itemsPerPage := itemsPerPage |}))
    next_err.

(** GET /aggs-utxo/count, the final handler. *)
Definition aggs_utxo_count_handler (context : Env) : M unit :=
  address ← query "address";
  assetTypeString ← query "assetType";
  shardId ← query "shardId";
  let shardId := and_parseInt shardId in
  onlyConfirmed ← query "onlyConfirmed";
  confirmThreshold ← query "confirmThreshold";
  let confirmThreshold := and_parseInt confirmThreshold in
  try_catch
    (assetType ← assetType_of assetTypeString;
     let p := {| GetCountOfAggsUTXO.address := address;
                 GetCountOfAggsUTXO.assetType := assetType;
                 GetCountOfAggsUTXO.shardId := shardId;
                 GetCountOfAggsUTXO.onlyConfirmed := onlyConfirmed;
                 GetCountOfAggsUTXO.confirmThreshold := confirmThreshold |} in
     count ← await (UTXOModel_getCountOfAggsUTXO p) (getCountOfAggsUTXO context p);
     res_json count)
    next_err.

(** [{ ...base, ...extra }]: a key of [extra] already in [base] keeps its
    place and takes the new value. *)
Definition spread (base extra : list (string * value)) : list (string * value) :=
  fold_left (fun acc kv => obj_set (fst kv) (snd kv) acc) extra base.

(** [moment(date)], then [isValid()] and [utc().unix()]. *)
Definition snapshotTime_of (context : Env) (date : value) : M Z :=
  match moment_unix context date with
  | Some unix => mret unix
  | None => throw InvalidDateParam
  end.

(** GET /snapshot, the final handler. *)
Definition snapshot_handler (context : Env) : M unit :=
  assetTypeString ← query "assetType";
  date ← query "date";
  lastEvaluatedKey ← query "lastEvaluatedKey";
  try_catch
    (assetType ← new_H160 assetTypeString;
     snapshotTime ← snapshotTime_of context date;
     block ← await (BlockModel_getByTime snapshotTime)
                   (getByTime context snapshotTime);
     match block with
     | None => res_json VNull
     | Some b =>
         let p := {| GetSnapshot.assetType := assetType;
                     GetSnapshot.blockNumber := VNum (Int (number b));
                     GetSnapshot.lastEvaluatedKey := lastEvaluatedKey |} in
         snapshot ← await (UTXOModel_getSnapshot p) (getSnapshot context p);
         res_json
           (VObj (spread [("blockHash", VStr (hash b));
                          ("blockNumber", VNum (Int (number b)))]
                         snapshot))
     end)
    next_err.

(** The stacks registered by [handle(context, router)]. *)
Definition utxo_route (context : Env) : list middleware :=
  [ run parseEvaluatedKey;
    validate context [utxoSchema; paginationSchema; utxoPaginationSchema];
    run (syncIfNeeded context);
    run (utxo_handler context) ].

Definition aggs_utxo_route (context : Env) : list middleware :=
  [ run parseEvaluatedKey;
    validate context [utxoSchema; paginationSchema; aggsUTXOPaginationSchema];
    run (syncIfNeeded context);
    run (aggs_utxo_handler context) ].

Definition aggs_utxo_count_route (context : Env) : list middleware :=
  [ validate context [utxoSchema];
    run (syncIfNeeded context);
    run (aggs_utxo_count_handler context) ].

Definition snapshot_route (context : Env) : list middleware :=
  [ run parseEvaluatedKey;
    validate context [snapshotSchema; snapshotPaginationSchema];
    run (snapshot_handler context) ].

End AssetRouter.

(** ** src/routers/block.ts *)

Module BlockRouter.

Import Primitives Express.

(** GET /block/:hashOrNumber. [hashValue] is set when [new H256] accepts
    the parameter; [numberValue] is set in the [catch] when the parameter
    is not NaN as a number. *)
Definition block_handler (context : Env) (hashOrNumber : string) : M unit :=
  let hashValue : option H256 :=
    if H256_check (VStr hashOrNumber) then Some (mkH256 hashOrNumber)
    else None in
  let numberValue : option JS.number :=
    match hashValue with
    | Some _ => None
    | None =>
        if negb (isNaN_string hashOrNumber)
        then Some (parseInt (VStr hashOrNumber))
        else None
    end in
  try_catch
    (latestBlockInst ←
       match hashValue, numberValue with
       | Some h, _ => await (BlockModel_getByHash h) (getByHash context h)
       | None, Some n => await (BlockModel_getByNumber n) (getByNumber context n)
       | None, None => mret None
       end;
     res_json match latestBlockInst with
              | Some b => plain b
              | None => VNull
              end)
    next_err.

Definition block_route (context : Env) (hashOrNumber : string)
  : list middleware :=
  [ run (block_handler context hashOrNumber) ].

End BlockRouter.

(** ** Parts of the repository that are not in the sources *)

Module SpecModel.

Import Primitives Express Middleware AssetRouter.

(** *** Cursor codec, encoding side (models/logic/utxo) *)

(** Modelled from the spec: the result rows of the UTXO listing; the row
    types of models/logic/utxo are not in the sources. Section 3 gives the
    attributes of an UnspentOutput and its sort key
    [(createdBlockNumber, actionId, outputIndex)]. *)
Record UnspentOutput : Type := {
  address : string;
  assetType : string;
  shardId : Z;
  amount : string;
  actionId : Z;
  outputIndex : Z;
  createdBlockNumber : Z;
  createdTimestamp : Z
}.

(** Modelled from the spec: a row of the aggregate listing, one per
    distinct group, with the sum of its amounts and its number of outputs
    (section 4.4). *)
Record AggregateRow : Type := {
  group_address : string;
  group_assetType : string;
  sumAmount : string;
  count : Z
}.

(** Modelled from the spec: the SortKey of a row (section 3), an ordered
    tuple of numbers and strings. *)
Definition sortKey (r : UnspentOutput) : list value :=
  [VNum (Int (createdBlockNumber r)); VNum (Int (actionId r));
   VNum (Int (outputIndex r))].

(** Modelled from the spec: the SortKey of an aggregate row (section 3):
    [(address, assetType)] when grouped by address, [(assetType, address)]
    when grouped by asset type. *)
Definition aggsSortKey (order : Order) (r : AggregateRow) : list value :=
  match order with
  | order_address => [VStr (group_address r); VStr (group_assetType r)]
  | order_assetType => [VStr (group_assetType r); VStr (group_address r)]
  end.

(** Modelled from the spec: [createUTXOEvaluatedKey] and
    [createAggsUTXOEvaluatedKey] of models/logic/utxo, which are not in the
    sources. Section 4.1: the cursor is the row's SortKey serialized as an
    ordered sequence of primitive values; the routers parse it back with
    [JSON.parse], so the serialization is [JSON.stringify] of the tuple. *)
Definition createUTXOEvaluatedKey (r : UnspentOutput) : string :=
  JSON_stringify (VArr (sortKey r)).

(** Modelled from the spec: the same serialization, of the aggregate
    SortKey, for [createAggsUTXOEvaluatedKey]. *)
Definition createAggsUTXOEvaluatedKey (r : AggregateRow) (order : Order)
  : string :=
  JSON_stringify (VArr (aggsSortKey order r)).

(** *** Cursor validation (routers/validator) *)

(** The paginated operations of section 4 and the stacks that serve them. *)
Inductive Paginated : Type := listUTXO | listAggregateUTXO | snapshot.

Definition stack (context : Env) (op : Paginated) : list middleware :=
  match op with
  | listUTXO => utxo_route context
  | listAggregateUTXO => aggs_utxo_route context
  | snapshot => snapshot_route context
  end.

Definition schemas_of (op : Paginated) : list schema :=
  match op with
  | listUTXO => [utxoSchema; paginationSchema; utxoPaginationSchema]
  | listAggregateUTXO => [utxoSchema; paginationSchema; aggsUTXOPaginationSchema]
  | snapshot => [snapshotSchema; snapshotPaginationSchema]
  end.

(** Modelled from the spec: the arity of the SortKey of each query shape
    (section 3); a snapshot pages a UTXO listing (section 4.5). *)
Definition arity (op : Paginated) : nat :=
  match op with
  | listUTXO | snapshot => 3
  | listAggregateUTXO => 2
  end.

(** Modelled from the spec: the entries of a serialized SortKey are
    primitive values, numbers and strings (section 4.1). *)
Definition is_primitive (v : value) : bool :=
  match v with
  | VNum (Int _) | VNum (Frac _ _) | VStr _ => true
  | _ => false
  end.

(** Modelled from the spec: a decoded cursor is a SortKey of the arity of
    the query shape in context (section 4.1). *)
Definition well_formed_cursor (n : nat) (v : value) : bool :=
  match v with
  | VArr l => (length l =? n)%nat && forallb is_primitive l
  | _ => false
  end.

(** Modelled from the spec: a cursor is optional (section 4.3); one that
    is supplied has to be well-formed. *)
Definition cursor_accepted (n : nat) (v : value) : bool :=
  match v with
  | VUndef => true
  | _ => well_formed_cursor n v
  end.

(** Modelled from the spec: what the cursor entries of the pagination
    schemas of routers/validator (not in the sources) enforce. Section 4.1
    has decoding fail on a cursor that has not the arity of the query shape
    in context; [parseEvaluatedKey] checks no shape, so that check is the
    validator's: it lets a request through only if each cursor it carries
    is a well-formed SortKey. *)
Definition validator_checks_cursors (context : Env) : Prop :=
  forall (op : Paginated) (q q' : Query),
    validate_query context (schemas_of op) q = inl q' ->
    cursor_accepted (arity op) (param q "firstEvaluatedKey") = true
    /\ cursor_accepted (arity op) (param q "lastEvaluatedKey") = true.

(** Modelled from the spec: a validator that checks the cursors as above
    and nothing else, leaving the query as it is. *)
Definition validate_cursors (op_schemas : list schema) (q : Query)
  : Query + string :=
  let n := if bool_decide (aggsUTXOPaginationSchema ∈ op_schemas) then 2%nat
           else 3%nat in
  if cursor_accepted n (param q "firstEvaluatedKey")
     && cursor_accepted n (param q "lastEvaluatedKey")
  then inl q
  else inr "evaluated key must be an array of the sort key's arity".

(** *** Error taxonomy (section 7) *)

(** Modelled from the spec: the errors section 7 files under
    ValidationError, as the pipeline raises them: a cursor that
    [JSON.parse] rejects, a request the validator rejects, and the
    conflicting cursor pair. The error handler that maps them to a status
    is not in the sources. *)
Definition MalformedCursor (e : exn) : Prop :=
  e = SyntaxError \/ exists detail, e = ValidationFailure detail.

(** Modelled from the spec: ConflictingCursor (section 6) is the error
    [parseEvaluatedKey] raises when both cursors are supplied. *)
Definition ConflictingCursor (e : exn) : Prop :=
  e = JsError conflict_message.

(** Modelled from the spec: ValidationError (section 7) covers the
    malformed cursor and the conflicting cursor pair. *)
Definition ValidationError (e : exn) : Prop :=
  MalformedCursor e \/ ConflictingCursor e.

(** *** Confirmation filter (models/logic/utxo) *)

(** Modelled from the spec: section 4.2, the ceiling computed by the query
    engine of models/logic/utxo (not in the sources) from the head height
    [H] and the two values the router forwards: [H - confirmThreshold] when
    [onlyConfirmed] holds, no ceiling otherwise. *)
Definition confirmationCeiling (H : Z) (onlyConfirmed : value)
  (confirmThreshold : Z) : option Z :=
  if truthy onlyConfirmed then Some (H - confirmThreshold) else None.

(** Modelled from the spec: an output created at [blockNumber] is eligible
    when there is no ceiling or it lies at or under it. *)
Definition eligible (ceiling : option Z) (blockNumber : Z) : bool :=
  match ceiling with
  | Some c => blockNumber <=? c
  | None => true
  end.

(** *** Snapshot block resolution (models/logic/block) *)

(** Modelled from the spec: of two blocks, the one with the greater
    number (section 3: the number of a block grows with the chain). *)
Definition later (a b : BlockAttribute) : BlockAttribute :=
  if number a <? number b then b else a.

(** Modelled from the spec: [BlockModel.getByTime] (section 6,
    resolveBlockByTimestamp): the latest block with [timestamp <= t], none
    if there is no such block. models/logic/block is not in the sources. *)
Definition resolveBlockByTimestamp (blocks : list BlockAttribute) (t : Z)
  : option BlockAttribute :=
  match List.filter (fun b => timestamp b <=? t) blocks with
  | [] => None
  | b :: rest => Some (fold_left later rest b)
  end.

End SpecModel.

(** ** Views of the handlers

    What each monadic handler computes, written as plain expressions; the
    theorems below first show that the handlers run to these. *)

Module Views.

Import Primitives Express Middleware AssetRouter SpecModel.

(** One cursor of [parseEvaluatedKey]: parsed in place when truthy; [None]
    when [JSON.parse] throws. *)
Definition decode_key (k : string) (q : Query) : option Query :=
  let v := param q k in
  if truthy v then
    match JSON_parse v with
    | Some x => Some (<[k := x]> q)
    | None => None
    end
  else Some q.

Definition assetType_result (v : value) : result (option H160) :=
  if truthy v then
    if H160_check v then Returns (Some (mkH160 (ToString v)))
    else Throws (H160_error v)
  else Returns None.

Definition utxo_params (q : Query) (assetType : option H160) : GetUTXO.params :=
  {| GetUTXO.address := param q "address";
     GetUTXO.assetType := assetType;
     GetUTXO.shardId := and_parseInt (param q "shardId");
     GetUTXO.itemsPerPage :=
       js_add (itemsPerPage_of (param q "itemsPerPage")) (VNum (Int 1));
     GetUTXO.firstEvaluatedKey := param q "firstEvaluatedKey";
     GetUTXO.lastEvaluatedKey := param q "lastEvaluatedKey";
     GetUTXO.onlyConfirmed := param q "onlyConfirmed";
     GetUTXO.confirmThreshold := and_parseInt (param q "confirmThreshold") |}.

Definition aggs_params (q : Query) (assetType : option H160)
  : GetAggsUTXO.params :=
  {| GetAggsUTXO.order := order_of (param q "address");
     GetAggsUTXO.address := param q "address";
     GetAggsUTXO.assetType := assetType;
     GetAggsUTXO.shardId := and_parseInt (param q "shardId");
     GetAggsUTXO.itemsPerPage :=
       js_add (itemsPerPage_of (param q "itemsPerPage")) (VNum (Int 1));
     GetAggsUTXO.firstEvaluatedKey := param q "firstEvaluatedKey";
     GetAggsUTXO.lastEvaluatedKey := param q "lastEvaluatedKey";
     GetAggsUTXO.onlyConfirmed := param q "onlyConfirmed";
     GetAggsUTXO.confirmThreshold := and_parseInt (param q "confirmThreshold") |}.

Definition utxo_page (context : Env) (q : Query) (rows : list value) : value :=
  createPaginationResult context
    {| Pagination.query_firstEvaluatedKey := param q "firstEvaluatedKey";
       Pagination.query_lastEvaluatedKey := param q "lastEvaluatedKey";
       Pagination.rows := rows;
       Pagination.getEvaluatedKey := Express.createUTXOEvaluatedKey context;
       Pagination.itemsPerPage := itemsPerPage_of (param q "itemsPerPage") |}.

Definition aggs_page (context : Env) (q : Query) (rows : list value) : value :=
  createPaginationResult context
    {| Pagination.query_firstEvaluatedKey := param q "firstEvaluatedKey";
       Pagination.query_lastEvaluatedKey := param q "lastEvaluatedKey";
       Pagination.rows := rows;
       Pagination.getEvaluatedKey :=
         (fun row => Express.createAggsUTXOEvaluatedKey context row
                       (order_of (param q "address")));
       Pagination.itemsPerPage := itemsPerPage_of (param q "itemsPerPage") |}.

Definition snapshot_params (q : Query) (b : BlockAttribute)
  : GetSnapshot.params :=
  {| GetSnapshot.assetType := mkH160 (ToString (param q "assetType"));
     GetSnapshot.blockNumber := VNum (Int (number b));
     GetSnapshot.lastEvaluatedKey := param q "lastEvaluatedKey" |}.

Definition snapshot_body (b : BlockAttribute) (snapshot : list (string * value))
  : value :=
  VObj (spread [("blockHash", VStr (hash b));
                ("blockNumber", VNum (Int (number b)))] snapshot).

Definition block_body (inst : option BlockAttribute) : value :=
  match inst with
  | Some b => plain b
  | None => VNull
  end.

(** A storage call, then the response built from what it returned or the
    error it raised passed to [next]. *)
Definition call_then_respond {A} (c : call) (outcome : result A)
  (body : A -> value) : list event :=
  Call c :: match outcome with
            | Returns a => [Send (Json (body a))]
            | Throws e => [NextErr e]
            end.

(** The events of a request on a stack. *)
Definition events_of (m : middleware) (q : Query) : list event := snd (m q).

(** A cursor that counts in the conflict test of [parseEvaluatedKey]: a
    text, as a request carries it, that is not empty and that [JSON.parse]
    rejects or decodes to a truthy value. The text of every JSON array or
    object does; the empty string and the texts of [null], [false], [0] and
    the empty string literal do not. The text of a number with a fraction
    is left out: the code rounds such a number to a double, to zero when it
    is small enough, as [1e-400]. *)
Definition decodes_truthy (v : value) : bool :=
  match v with
  | VStr s =>
      negb (String.eqb s "")
      && match JSON_parse_string s with
         | Some (VNum (Frac _ _)) => false
         | Some decoded => truthy decoded
         | None => true
         end
  | _ => false
  end.

(** The functions after the validator on each paginated stack. *)
Definition after_validation (context : Env) (op : Paginated) : list middleware :=
  match op with
  | listUTXO => [run (syncIfNeeded context); run (utxo_handler context)]
  | listAggregateUTXO =>
      [run (syncIfNeeded context); run (aggs_utxo_handler context)]
  | snapshot => [run (snapshot_handler context)]
  end.

(** A request that carries one cursor, as the client sends it. *)
Definition with_cursor (k : string) (cursor : string) : Query :=
  {[ k := VStr cursor ]}.

(** Predicates on JSON text used to read back what [JSON_stringify]
    writes: nothing, or something that is not a digit, comes next; a comma
    or a closing bracket comes next. *)
Definition no_digit_ahead (s : string) : Prop :=
  match s with
  | "" => True
  | String c _ => digit_of c = None
  end.

Definition delimiter_ahead (s : string) : Prop :=
  exists r, s = String "," r \/ s = String "]" r.

Definition starts_number (c : ascii) : Prop :=
  digit_of c <> None \/ c = "-"%char.

(** Enough fuel: a parse that succeeds with some fuel succeeds with twice
    the number of characters it consumed. *)
Definition enough_fuel (f : nat) : Prop :=
  (forall s v r, parse_value f s = Some (v, r) ->
     (String.length r < String.length s)%nat
     /\ forall f', (2 * (String.length s - String.length r) <= f')%nat ->
                   parse_value f' s = Some (v, r))
  /\ (forall s vs r, parse_elems f s = Some (vs, r) ->
     (String.length r < String.length s)%nat
     /\ forall f', (2 * (String.length s - String.length r) - 1 <= f')%nat ->
                   parse_elems f' s = Some (vs, r))
  /\ (forall s fs r, parse_members f s = Some (fs, r) ->
     (String.length r < String.length s)%nat
     /\ forall f', (2 * (String.length s - String.length r) - 1 <= f')%nat ->
                   parse_members f' s = Some (fs, r)).

(** The entries of a sort key: integers and strings. *)
Definition is_key_entry (v : value) : bool :=
  match v with
  | VNum (Int _) | VStr _ => true
  | _ => false
  end.

End Views.

(** ** An example deployment

    A store with one block, no outputs, a worker whose node refuses
    connections, the cursor validator of [SpecModel], and a date library
    that knows two instants. *)

Module Example.

Import Primitives Express Middleware AssetRouter SpecModel.

Definition first_block : BlockAttribute :=
  {| parentHash := "0000000000000000000000000000000000000000000000000000000000000000";
     timestamp := 1546300800;
     number := 0;
     author := "tccq9h7vnl68frvqapzv3tujrxtxtwqdnxw6yamrrgd";
     extraData := [];
     parcelsRoot := "45b0cfc220ceec5b7c1c62c4d4193d38e4eba48e8815729ce75f9c0ab0e4c1c0";
     stateRoot := "09f943122bfbb85adda8209ba72514374f71826fd874e08855b64bc95498cb02";
     invoicesRoot := "45b0cfc220ceec5b7c1c62c4d4193d38e4eba48e8815729ce75f9c0ab0e4c1c0";
     score := "131072";
     seal := [];
     hash := "3a7bd3e2360a3d29eea436fcfb7e44c735d117c42d1c1835420b6b9942dd4f1b";
     miningReward := "0";
     createdAt := None;
     updatedAt := None;
     parcels := None |}.

Definition example_moment (date : value) : option Z :=
  match date with
  | VStr s =>
      if String.eqb s "2018-01-01T00:00:00Z" then Some 1514764800
      else if String.eqb s "2019-06-01T00:00:00Z" then Some 1559347200
      else None
  | _ => None
  end.

Definition field (row : value) (k : string) : value :=
  match row with
  | VObj fs =>
      match List.find (fun kv => String.eqb (fst kv) k) fs with
      | Some kv => snd kv
      | None => VUndef
      end
  | _ => VUndef
  end.

Definition env : Env :=
  {| validate_query := validate_cursors;
     sync := Some "connect ECONNREFUSED 127.0.0.1:8080";
     getUTXO := fun _ => Returns [];
     getAggsUTXO := fun _ => Returns [];
     getCountOfAggsUTXO := fun _ => Returns (VNum (Int 0));
     getSnapshot := fun _ => Returns [("data", VArr [])];
     getByTime := fun t => Returns (resolveBlockByTimestamp [first_block] t);
     getByHash := fun h =>
       Returns (if String.eqb (H256_value h) (hash first_block)
                then Some first_block else None);
     getByNumber := fun n =>
       Returns (match n with Int 0 => Some first_block | _ => None end);
     createPaginationResult := fun p => VObj [("data", VArr (Pagination.rows p))];
     Express.createUTXOEvaluatedKey := fun row =>
       JSON_stringify (VArr [field row "blockNumber"; field row "actionId";
                             field row "outputIndex"]);
     Express.createAggsUTXOEvaluatedKey := fun row order =>
       JSON_stringify
         (VArr match order with
               | order_address => [field row "address"; field row "assetType"]
               | order_assetType => [field row "assetType"; field row "address"]
               end);
     moment_unix := example_moment |}.

Definition asset : string := "9f2b61b9c0e8a1d54a3f7c2e6d5b4a39f8e7d6c5".

(** Requests used as examples below. *)
Definition both_cursors : Query :=
  <[ "firstEvaluatedKey" := VStr "[1,2,3]" ]>
    {[ "lastEvaluatedKey" := VStr "[4,5,6]" ]}.

Definition early_snapshot : Query :=
  <[ "assetType" := VStr asset ]>
    {[ "date" := VStr "2018-01-01T00:00:00Z" ]}.

Definition undated_snapshot : Query :=
  <[ "assetType" := VStr asset ]> {[ "date" := VStr "yesterday" ]}.

Definition synced_listing : Query := {[ "sync" := VBool true ]}.

Definition short_cursor : Query := {[ "lastEvaluatedKey" := VStr "[1]" ]}.

Definition negative_page : Query := {[ "itemsPerPage" := VStr "-5" ]}.

End Example.

(** * The other routes of the two routers

    [src/routers/asset.ts] also serves [/asset-scheme/:assetType] and
    [/asset-image/:assetType]; [src/routers/block.ts] also serves
    [/block/latest], [/block] and [/block/count], and the order in which it
    registers its four routes decides which one serves a request. *)

(** ** Request paths

    [router.get(path, ...)] registers a route; a GET request is served by
    the first registered route whose path matches, and by the following
    matching ones only as far as the handlers before them call [next()].
    A path is matched segment by segment: a segment of the route written
    [:name] takes any non-empty segment of the request and binds it in
    [req.params]; any other segment has to be the same text, letter case
    apart unless the router is case sensitive; one trailing slash is
    allowed unless the router is strict. A parameter is bound to its
    segment as the request writes it; Express also decodes the percent
    escapes of the segment, which is left out here. *)

Module Paths.

Fixpoint split_on (sep : ascii) (s : string) : list string :=
  match s with
  | "" => [""]
  | String c r =>
      if Ascii.eqb c sep then "" :: split_on sep r
      else match split_on sep r with
           | seg :: rest => String c seg :: rest
           | [] => [String c ""]
           end
  end.

Definition lower (c : ascii) : ascii :=
  let n := nat_of_ascii c in
  if ((65 <=? n) && (n <=? 90))%nat then ascii_of_nat (n + 32) else c.

Fixpoint lowercase (s : string) : string :=
  match s with
  | "" => ""
  | String c r => String (lower c) (lowercase r)
  end.

Inductive segment : Type :=
  | Literal (text : string)
  | Named (name : string).

Definition segment_of (s : string) : segment :=
  match s with
  | String c name => if Ascii.eqb c ":" then Named name else Literal s
  | "" => Literal ""
  end.

(** The segments of a route path, which starts with a slash. *)
Definition compile (route_path : string) : list segment :=
  List.map segment_of (List.tl (split_on "/" route_path)).

(** The options of [express.Router]; both are off by default. *)
Record options : Type := {
  caseSensitive : bool;
  strict : bool
}.

Definition same_text (o : options) (a b : string) : bool :=
  if caseSensitive o then String.eqb a b
  else String.eqb (lowercase a) (lowercase b).

Fixpoint match_segments (o : options) (pattern : list segment)
  (segments : list string) : option (list (string * string)) :=
  match pattern, segments with
  | [], [] => Some []
  | Literal text :: pattern', s :: segments' =>
      if same_text o text s then match_segments o pattern' segments' else None
  | Named name :: pattern', s :: segments' =>
      if String.eqb s "" then None
      else
        match match_segments o pattern' segments' with
        | Some params => Some ((name, s) :: params)
        | None => None
        end
  | _, _ => None
  end.

(** Without the empty segment that follows a trailing slash. *)
Fixpoint drop_trailing_slash (segments : list string) : list string :=
  match segments with
  | [] => []
  | [s] => if String.eqb s "" then [] else [s]
  | s :: rest => s :: drop_trailing_slash rest
  end.

(** [req.params] when the route matches the request path. *)
Definition match_path (o : options) (route_path request_path : string)
  : option (list (string * string)) :=
  match split_on "/" request_path with
  | s :: segments =>
      if String.eqb s "" then
        match_segments o (compile route_path)
          (if strict o then segments else drop_trailing_slash segments)
      else None
  | [] => None
  end.

End Paths.

(** ** Effects of the other routes *)

Module Effects.

Import Primitives Express.

(** The argument of [BlockModel.getBlocks]. *)
Module GetBlocks.
Record params : Type := {
  address : value;
  page : value;
  itemsPerPage : value
}.
End GetBlocks.

(** Calls that leave the routers: those of the stacks above, and the
    lookups of the other routes. *)
Inductive request : Type :=
  | Stacked (c : call)
  | AssetSchemeModel_getByAssetType (assetType : H160)
  | AssetImageModel_getByAssetType (assetType : H160)
  | BlockModel_getLatestBlock
  | BlockModel_getBlocks (p : GetBlocks.params).

(** What is written to [res]: [res.json] and the bare status of the stacks
    above, [res.status(code).send(text)], [res.writeHead(code, headers)]
    and [res.end(chunk)]. *)
Inductive reply : Type :=
  | Body (r : response)
  | StatusSend (code : Z) (text : string)
  | WriteHead (code : Z) (headers : list (string * value))
  | EndWith (chunk : list N).

(** What is thrown: an error of the stacks above, or the
    [Exception.NotImplmeneted] of src/exception. *)
Inductive thrown : Type :=
  | Exn (e : exn)
  | NotImplmeneted.

Inductive effect : Type :=
  | Calls (c : request)
  | Replies (r : reply)
  | Continues
  | Fails (e : thrown).

(** An event of the stacks above, as an effect. *)
Definition lift (ev : event) : effect :=
  match ev with
  | Call c => Calls (Stacked c)
  | Send r => Replies (Body r)
  | Next => Continues
  | NextErr e => Fails (Exn e)
  end.

(** The storage models and the validator the other routes import.
    [AssetSchemeModel.getByAssetType] answers with the plain object of the
    scheme, [AssetImageModel.getByAssetType] with the bytes of the image. *)
Record Models : Type := {
  validate_params : Query -> Query + string;
  scheme_getByAssetType : H160 -> result (option value);
  image_getByAssetType : H160 -> result (option (list N));
  getLatestBlock : result (option BlockAttribute);
  getBlocks : GetBlocks.params -> result (list BlockAttribute)
}.

(** *** The handler monad of these routes: effects and exceptions; none of
    them writes to [req] *)

Inductive outcome (A : Type) : Type :=
  | Done (a : A)
  | Raised (e : thrown).
Arguments Done {A} a.
Arguments Raised {A} e.

Definition Handler (A : Type) : Type := list effect * outcome A.

#[export] Instance Handler_ret : MRet Handler := fun A a => ([], Done a).

#[export] Instance Handler_bind : MBind Handler := fun A B f m =>
  match m with
  | (ef1, Done a) => let '(ef2, r) := f a in (ef1 ++ ef2, r)
  | (ef1, Raised e) => (ef1, Raised e)
  end.

Definition throw {A} (e : thrown) : Handler A := ([], Raised e).

(** [try { body } catch (e) { handler(e) }] *)
Definition try_catch {A} (body : Handler A) (handler : thrown -> Handler A)
  : Handler A :=
  match body with
  | (ef1, Raised e) => let '(ef2, r) := handler e in (ef1 ++ ef2, r)
  | done => done
  end.

Definition emit (ef : effect) : Handler unit := ([ef], Done tt).

Definition next_err (e : thrown) : Handler unit := emit (Fails e).
Definition res_json (body : value) : Handler unit :=
  emit (Replies (Body (Json body))).
Definition res_status_send (code : Z) (text : string) : Handler unit :=
  emit (Replies (StatusSend code text)).
Definition res_writeHead (code : Z) (headers : list (string * value))
  : Handler unit :=
  emit (Replies (WriteHead code headers)).
Definition res_end (chunk : list N) : Handler unit :=
  emit (Replies (EndWith chunk)).

(** [await f(args)]: the call is recorded, its outcome is the oracle's. *)
Definition await {A} (c : request) (answer : result A) : Handler A :=
  ([Calls c], match answer with
              | Returns a => Done a
              | Throws e => Raised (Exn e)
              end).

Definition effects (body : Handler unit) : list effect := fst body.

(** [new H160(v)] *)
Definition new_H160 (v : value) : Handler H160 :=
  if H160_check v then mret (mkH160 (ToString v))
  else throw (Exn (AssetRouter.H160_error v)).

(** [router.get(path, validate({ params: {...} }), handler)]: the handler
    runs with the validated [req.params]; a validation failure goes to
    [next]. *)
Definition validated (models : Models) (handler : Query -> Handler unit)
  (params : Query) : list effect :=
  match validate_params models params with
  | inl params' => effects (handler params')
  | inr detail => [Fails (Exn (ValidationFailure detail))]
  end.

(** A registered route: its path and what its stack does with
    [req.params] and [req.query]. *)
Record route : Type := {
  route_path : string;
  route_stack : list (string * string) -> Query -> list effect
}.

(** A GET request on the routes, in the order of their registration. The
    routes modelled this way leave [req.query] as it is. *)
Fixpoint serve (o : Paths.options) (routes : list route)
  (request_path : string) (q : Query) : list effect :=
  match routes with
  | [] => []
  | r :: rest =>
      match Paths.match_path o (route_path r) request_path with
      | Some params =>
          List.flat_map
            (fun ef => match ef with
                       | Continues => serve o rest request_path q
                       | _ => [ef]
                       end) (route_stack r params q)
      | None => serve o rest request_path q
      end
  end.

(** [req.params] as an object. *)
Definition req_params (params : list (string * string)) : Query :=
  list_to_map (List.map (fun kv => (fst kv, VStr (snd kv))) params).

End Effects.

(** ** src/routers/asset.ts, the scheme and image routes *)

Module AssetSchemeRouter.

Import Primitives Express Effects.

(** GET /asset-scheme/:assetType, the final handler. *)
Definition asset_scheme_handler (models : Models) (params : Query)
  : Handler unit :=
  let assetTypeString := param params "assetType" in
  try_catch
    (assetType ← new_H160 assetTypeString;
     assetSchemeInst ← await (AssetSchemeModel_getByAssetType assetType)
                             (scheme_getByAssetType models assetType);
     res_json match assetSchemeInst with
              | Some scheme => scheme
              | None => VNull
              end)
    next_err.

(** GET /asset-image/:assetType, the final handler. [image.byteLength] is
    the number of bytes of the buffer. *)
Definition asset_image_handler (models : Models) (params : Query)
  : Handler unit :=
  let assetTypeString := param params "assetType" in
  try_catch
    (assetType ← new_H160 assetTypeString;
     assetImageInst ← await (AssetImageModel_getByAssetType assetType)
                            (image_getByAssetType models assetType);
     match assetImageInst with
     | None => res_status_send 404 "Not found"
     | Some image =>
         res_writeHead 200
           [("Content-Type", VStr "image/png");
            ("Content-Length", VNum (Int (Z.of_nat (length image))))];;
         res_end image
     end)
    next_err.

Definition asset_scheme_route (models : Models) : Query -> list effect :=
  validated models (asset_scheme_handler models).

Definition asset_image_route (models : Models) : Query -> list effect :=
  validated models (asset_image_handler models).

End AssetSchemeRouter.

(** ** src/routers/block.ts, the other routes and their order *)

Module BlockRoutes.

Import Primitives Express Effects.

(** GET /block/latest *)
Definition latest_handler (models : Models) : Handler unit :=
  try_catch
    (latestBlockInst ← await BlockModel_getLatestBlock (getLatestBlock models);
     res_json match latestBlockInst with
              | Some b => plain b
              | None => VNull
              end)
    next_err.

(** GET /block *)
Definition blocks_handler (models : Models) (q : Query) : Handler unit :=
  let address := param q "address" in
  let page := AssetRouter.and_parseInt (param q "page") in
  let itemsPerPage := AssetRouter.and_parseInt (param q "itemsPerPage") in
  try_catch
    (let p := {| GetBlocks.address := address;
                 GetBlocks.page := page;
                 GetBlocks.itemsPerPage := itemsPerPage |} in
     blockInsts ← await (BlockModel_getBlocks p) (getBlocks models p);
     res_json (VArr (List.map plain blockInsts)))
    next_err.

(** GET /block/count *)
Definition count_handler : Handler unit :=
  try_catch (throw NotImplmeneted) next_err.

(** [req.params.hashOrNumber]. A name the route does not bind reads as
    [undefined], which [new H256] and [isNaN] treat as they treat the text
    of that word: not a hash and not a number. *)
Definition hashOrNumber_of (params : list (string * string)) : string :=
  ToString (param (req_params params) "hashOrNumber").

(** [handle(_C, router)]: the four routes, as registered. *)
Definition handle (context : Env) (models : Models) : list route :=
  [ {| route_path := "/block/latest";
       route_stack := fun _ _ => effects (latest_handler models) |};
    {| route_path := "/block/:hashOrNumber";
       route_stack := fun params q =>
         List.map lift
           (snd (run (BlockRouter.block_handler context
                        (hashOrNumber_of params)) q)) |};
    {| route_path := "/block";
       route_stack := fun _ q => effects (blocks_handler models q) |};
    {| route_path := "/block/count";
       route_stack := fun _ _ => effects count_handler |} ].

End BlockRoutes.

(** ** What the theorems on the handlers are stated with *)

Module Shapes.

Import Primitives Express Effects.

Definition is_call (ev : event) : bool :=
  match ev with
  | Call _ => true
  | _ => false
  end.

Definition is_answer (ev : event) : bool :=
  match ev with
  | Send _ | NextErr _ => true
  | _ => false
  end.

(** Calls to the models, then one answer and nothing after it: a response,
    or an error passed to [next]. *)
Fixpoint answers_once (evs : list event) : bool :=
  match evs with
  | [] => false
  | [ev] => is_answer ev
  | ev :: rest => is_call ev && answers_once rest
  end.

(** How many times a request is answered. *)
Definition answers (evs : list event) : nat :=
  length (List.filter is_answer evs).

(** The value of member [k] of an object, as [obj[k]] reads it. *)
Definition member (k : string) (fields : list (string * value)) : option value :=
  match List.find (fun kv => String.eqb (fst kv) k) fields with
  | Some kv => Some (snd kv)
  | None => None
  end.

(** The argument of [getCountOfAggsUTXO] for a query. *)
Definition count_params (q : Query) (assetType : option H160)
  : GetCountOfAggsUTXO.params :=
  {| GetCountOfAggsUTXO.address := param q "address";
     GetCountOfAggsUTXO.assetType := assetType;
     GetCountOfAggsUTXO.shardId := AssetRouter.and_parseInt (param q "shardId");
     GetCountOfAggsUTXO.onlyConfirmed := param q "onlyConfirmed";
     GetCountOfAggsUTXO.confirmThreshold :=
       AssetRouter.and_parseInt (param q "confirmThreshold") |}.

(** What a stack does from [syncIfNeeded] on, [handled] being the events
    of the handler that follows it: the handler runs when no sync is asked
    for or when the sync succeeds, and not when it fails. *)
Definition after_sync (context : Env) (q : Query) (handled : list event)
  : list event :=
  if Middleware.strictly_true (param q "sync") then
    Call worker_sync ::
      match sync context with
      | None => handled
      | Some message =>
          if Middleware.is_connection_error message
          then [Send (Status Middleware.SERVICE_UNAVAILABLE)]
          else [NextErr (JsError message)]
      end
  else handled.

(** A string that [trim] leaves alone: ASCII text without white space. *)
Definition no_white_space (s : string) : bool :=
  all_chars (fun c => (N_of_ascii c <? 128)%N && negb (is_str_ws c)) s.

(** [Number.isSafeInteger] *)
Definition is_safe_integer (z : Z) : Prop := Z.abs z <= MAX_SAFE_INTEGER.

(** A decimal literal continues with nothing, or with a fraction. *)
Definition fraction_or_end (rest : string) : Prop :=
  rest = ""
  \/ exists fraction, rest = String "." fraction
                      /\ all_chars is_digit fraction = true.

(** An effect that neither calls [next()] nor passes on
    [Exception.NotImplmeneted]. *)
Definition settled (ef : effect) : Prop :=
  ef <> Continues /\ ef <> Fails NotImplmeneted.

End Shapes.

(** ** More of the example deployment *)

Module Samples.

Import Primitives Express Effects.

(** The deployment of [Example] with another sync worker. *)
Definition with_worker (context : Env) (outcome : option string) : Env :=
  {| validate_query := validate_query context;
     sync := outcome;
     getUTXO := getUTXO context;
     getAggsUTXO := getAggsUTXO context;
     getCountOfAggsUTXO := getCountOfAggsUTXO context;
     getSnapshot := getSnapshot context;
     getByTime := getByTime context;
     getByHash := getByHash context;
     getByNumber := getByNumber context;
     createPaginationResult := createPaginationResult context;
     Express.createUTXOEvaluatedKey := Express.createUTXOEvaluatedKey context;
     Express.createAggsUTXOEvaluatedKey :=
       Express.createAggsUTXOEvaluatedKey context;
     moment_unix := moment_unix context |}.

(** A worker that fails, but not on its connection. *)
Definition flaky : Env := with_worker Example.env (Some "socket hang up").

(** A worker whose node does not answer in time. *)
Definition unreachable : Env :=
  with_worker Example.env (Some "connect ETIMEDOUT 10.0.0.1:8080").

(** A page of [2^53] rows. *)
Definition huge_page : Query := {[ "itemsPerPage" := VStr "9007199254740992" ]}.

Definition owner : string := "tccq9h7vnl68frvqapzv3tujrxtxtwqdnxw6yamrrgd".

Definition second_page : Query :=
  <[ "address" := VStr owner ]> {[ "lastEvaluatedKey" := VStr "[4,5,6]" ]}.

Definition second_page_decoded : Query :=
  <[ "address" := VStr owner ]>
    {[ "lastEvaluatedKey" := VArr [VNum (Int 4); VNum (Int 5); VNum (Int 6)] ]}.

Definition unknown_asset : Query := {[ "assetType" := VStr "gold" ]}.

Definition by_owner : Query := {[ "address" := VStr owner ]}.

Definition by_owner_paged : Query :=
  <[ "itemsPerPage" := VStr "50" ]> by_owner.

Definition filtered : Query :=
  <[ "shardId" := VStr "0" ]>
    (<[ "confirmThreshold" := VStr "6" ]> {[ "itemsPerPage" := VStr "20" ]}).

Definition dated_snapshot : Query :=
  <[ "assetType" := VStr Example.asset ]>
    {[ "date" := VStr "2019-06-01T00:00:00Z" ]}.

Definition anonymous_snapshot : Query :=
  {[ "date" := VStr "2019-06-01T00:00:00Z" ]}.

End Samples.

(** * Facts about the JavaScript model *)

Module JSFacts.

Import Views.

#[local] Arguments String.append : simpl nomatch.

Lemma append_assoc (a b c : string) : (a +:+ b) +:+ c = a +:+ (b +:+ c).
Proof. induction a as [|x a IH]; simpl; [reflexivity | now f_equal]. Qed.

Lemma length_append (a b : string) :
  String.length (a +:+ b) = (String.length a + String.length b)%nat.
Proof. induction a as [|x a IH]; simpl; [reflexivity | now f_equal]. Qed.

Lemma read_digits_no_digit s : no_digit_ahead s -> read_digits s = (Nil, s).
Proof. destruct s as [|c r]; simpl; [reflexivity | now intros ->]. Qed.

Lemma read_digits_printed (d : uint) (rest : string) :
  no_digit_ahead rest ->
  read_digits (NilEmpty.string_of_uint d +:+ rest) = (d, rest).
Proof.
  intros Hrest.
  induction d as [|d IH|d IH|d IH|d IH|d IH|d IH|d IH|d IH|d IH|d IH];
    simpl; try (rewrite IH; reflexivity).
  now apply read_digits_no_digit.
Qed.

Lemma to_uint_no_leading_zero (p : positive) (u : uint) :
  Pos.to_uint p <> D0 u.
Proof.
  intros E.
  pose proof (DecimalPos.Unsigned.to_of (Pos.to_uint p)) as H.
  rewrite DecimalPos.Unsigned.of_to in H. simpl in H.
  rewrite E in H. unfold unorm in H.
  destruct (nzhead (D0 u)) eqn:Hn; try discriminate H.
  - injection H as ->. now apply (Unsigned.to_uint_nonzero p).
  - now apply nzhead_nonzero in Hn.
Qed.

Lemma to_uint_valid_int_part (p : positive) :
  valid_int_part (Pos.to_uint p) = true.
Proof.
  pose proof (to_uint_no_leading_zero p) as Hz.
  pose proof (Unsigned.to_uint_nonnil p) as Hn.
  destruct (Pos.to_uint p); simpl; try reflexivity.
  - now destruct Hn.
  - now destruct (Hz u).
Qed.

Lemma delimiter_no_digit s : delimiter_ahead s -> no_digit_ahead s.
Proof. now intros [r [-> | ->]]. Qed.

Lemma parse_fraction_delimiter s :
  delimiter_ahead s -> parse_fraction s = Some (Nil, s).
Proof. now intros [r [-> | ->]]. Qed.

Lemma parse_exponent_delimiter s :
  delimiter_ahead s -> parse_exponent s = Some (0, s).
Proof. now intros [r [-> | ->]]. Qed.

Lemma number_of_parts_integer (neg : bool) (d : uint) :
  number_of_parts neg d Nil 0
  = Int (if neg then - Z.of_uint d else Z.of_uint d).
Proof.
  unfold number_of_parts. simpl. f_equal.
  change (Z.of_uint Nil) with 0. destruct neg; lia.
Qed.

(** A string that starts with a digit has no sign to split off. *)
Lemma split_minus_digit (c : ascii) (r : string) :
  digit_of c <> None -> split_minus (String c r) = (false, String c r).
Proof.
  intros Hc. unfold split_minus.
  destruct (Ascii.eqb_spec c "-") as [-> | _]; [now destruct Hc | reflexivity].
Qed.

Lemma printed_uint_head (d : uint) (rest : string) :
  d <> Nil ->
  exists c r, NilEmpty.string_of_uint d +:+ rest = String c r
              /\ digit_of c <> None.
Proof.
  intros Hd. destruct d; try (now destruct Hd); simpl; eauto.
Qed.

Lemma parse_number_unsigned (d : uint) (rest : string) :
  valid_int_part d = true -> delimiter_ahead rest ->
  parse_number (NilEmpty.string_of_uint d +:+ rest)
  = Some (Int (Z.of_uint d), rest).
Proof.
  intros Hv Hrest.
  assert (Hd : d <> Nil) by (intros ->; discriminate Hv).
  destruct (printed_uint_head d rest Hd) as (c & r & Hs & Hc).
  unfold parse_number. rewrite Hs, split_minus_digit by exact Hc.
  rewrite <- Hs, read_digits_printed by now apply delimiter_no_digit.
  rewrite Hv, parse_fraction_delimiter, parse_exponent_delimiter by exact Hrest.
  now rewrite number_of_parts_integer.
Qed.

Lemma parse_number_negative (d : uint) (rest : string) :
  valid_int_part d = true -> delimiter_ahead rest ->
  parse_number (String "-" (NilEmpty.string_of_uint d +:+ rest))
  = Some (Int (- Z.of_uint d), rest).
Proof.
  intros Hv Hrest. unfold parse_number.
  change (split_minus (String "-" ?x)) with (true, x). cbv beta iota.
  rewrite read_digits_printed by now apply delimiter_no_digit.
  rewrite Hv, parse_fraction_delimiter, parse_exponent_delimiter by exact Hrest.
  now rewrite number_of_parts_integer.
Qed.

Lemma of_uint_to_uint (p : positive) : Z.of_uint (Pos.to_uint p) = Z.pos p.
Proof. unfold Z.of_uint. now rewrite DecimalPos.Unsigned.of_to. Qed.

Lemma string_of_uint_nonnil (d : uint) :
  d <> Nil -> NilZero.string_of_uint d = NilEmpty.string_of_uint d.
Proof. now destruct d. Qed.

(** Reading back an integer as [JSON_stringify] writes it. *)
Lemma parse_number_printed (z : Z) (rest : string) :
  delimiter_ahead rest ->
  parse_number (string_of_Z z +:+ rest) = Some (Int z, rest).
Proof.
  intros Hrest. unfold string_of_Z. destruct z as [|p|p]; simpl.
  - now apply (parse_number_unsigned (D0 Nil)).
  - rewrite string_of_uint_nonnil by apply Unsigned.to_uint_nonnil.
    rewrite parse_number_unsigned, of_uint_to_uint;
      auto using to_uint_valid_int_part.
  - rewrite string_of_uint_nonnil by apply Unsigned.to_uint_nonnil.
    rewrite parse_number_negative, of_uint_to_uint;
      auto using to_uint_valid_int_part.
Qed.

(** Reading back a string literal as [JSON_stringify] writes it. *)
Lemma parse_chars_escaped (s rest : string) :
  parse_chars (escape s +:+ String "034" rest) = Some (s, rest).
Proof.
  induction s as [|c s IH]; [reflexivity|].
  change (escape (String c s)) with (escape_char c +:+ escape s).
  rewrite append_assoc.
  destruct c as [[] [] [] [] [] [] [] []]; simpl; now rewrite IH.
Qed.

Lemma parse_chars_quoted (s rest : string) :
  exists tail, quote s +:+ rest = String "034" tail
               /\ parse_chars tail = Some (s, rest).
Proof.
  exists (escape s +:+ String "034" rest). split.
  - unfold quote. simpl. f_equal. now rewrite append_assoc.
  - apply parse_chars_escaped.
Qed.

Lemma parse_value_number (fuel : nat) (c : ascii) (r : string) :
  starts_number c ->
  parse_value (S fuel) (String c r)
  = match parse_number (String c r) with
    | Some (n, rest) => Some (VNum n, rest)
    | None => None
    end.
Proof.
  intros [Hc | ->]; [|reflexivity].
  destruct c as [[] [] [] [] [] [] [] []]; try reflexivity; now destruct Hc.
Qed.

Lemma string_of_Z_head (z : Z) (rest : string) :
  exists c r, string_of_Z z +:+ rest = String c r /\ starts_number c.
Proof.
  unfold string_of_Z, starts_number. destruct z as [|p|p]; simpl.
  - exists "0"%char, rest. split; [reflexivity | now left].
  - rewrite string_of_uint_nonnil by apply Unsigned.to_uint_nonnil.
    destruct (printed_uint_head (Pos.to_uint p) rest) as (c & r & -> & Hc);
      eauto using Unsigned.to_uint_nonnil.
  - eauto.
Qed.

Lemma parse_value_entry (fuel : nat) (v : value) (rest : string) :
  is_key_entry v = true -> delimiter_ahead rest ->
  parse_value (S fuel) (JSON_stringify v +:+ rest) = Some (v, rest).
Proof.
  intros Hv Hrest. destruct v as [| | |[| |z|]|s| |]; try discriminate Hv.
  - change (JSON_stringify (VNum (Int z))) with (string_of_Z z).
    destruct (string_of_Z_head z rest) as (c & r & Hs & Hc).
    rewrite Hs, parse_value_number by exact Hc.
    now rewrite <- Hs, parse_number_printed.
  - destruct (parse_chars_quoted s rest) as (tail & Hs & Hp).
    change (JSON_stringify (VStr s)) with (quote s).
    rewrite Hs. simpl. now rewrite Hp.
Qed.

(** An entry starts with a digit, a minus sign or a double quote: no
    white space to skip, and not the end of the array. *)
Lemma entry_head (v : value) (rest : string) :
  is_key_entry v = true ->
  exists c r, JSON_stringify v +:+ rest = String c r
              /\ is_json_ws c = false /\ c <> "]"%char.
Proof.
  intros Hv. destruct v as [| | |[| |z|]|s| |]; try discriminate Hv.
  - change (JSON_stringify (VNum (Int z))) with (string_of_Z z).
    destruct (string_of_Z_head z rest) as (c & r & -> & [Hc | ->]).
    + exists c, r. split; [reflexivity|].
      destruct c as [[] [] [] [] [] [] [] []];
        try (now destruct Hc); now split.
    + now exists "-"%char, r.
  - destruct (parse_chars_quoted s rest) as (tail & Hs & _).
    change (JSON_stringify (VStr s)) with (quote s).
    now exists "034"%char, tail.
Qed.

Lemma join_cons (sep x : string) (y : string) (l : list string) :
  join sep (x :: y :: l) = x +:+ sep +:+ join sep (y :: l).
Proof. reflexivity. Qed.

Lemma parse_elems_unfold (fuel : nat) (s : string) :
  parse_elems (S fuel) s
  = match parse_value fuel s with
    | Some (v, r) =>
        match skip_ws r with
        | "" => None
        | String c r' =>
            if Ascii.eqb c "," then
              match parse_elems fuel r' with
              | Some (vs, rest) => Some (v :: vs, rest)
              | None => None
              end
            else if Ascii.eqb c "]" then Some ([v], r')
            else None
        end
    | None => None
    end.
Proof. reflexivity. Qed.

Lemma parse_elems_last (fuel : nat) (v : value) (rest : string) :
  is_key_entry v = true ->
  parse_elems (S (S fuel)) (JSON_stringify v +:+ String "]" rest)
  = Some ([v], rest).
Proof.
  intros Hv.
  rewrite parse_elems_unfold.
  rewrite parse_value_entry by (auto; eexists; eauto). reflexivity.
Qed.

Lemma parse_elems_more (fuel : nat) (v : value) (rest : string) :
  is_key_entry v = true ->
  parse_elems (S (S fuel)) (JSON_stringify v +:+ String "," rest)
  = match parse_elems (S fuel) rest with
    | Some (vs, r) => Some (v :: vs, r)
    | None => None
    end.
Proof.
  intros Hv.
  rewrite parse_elems_unfold.
  rewrite parse_value_entry by (auto; eexists; eauto). reflexivity.
Qed.

Lemma parse_elems_entries (l : list value) (rest : string) :
  l <> [] -> forallb is_key_entry l = true ->
  forall fuel, (length l < fuel)%nat ->
  parse_elems fuel
    (join "," (List.map JSON_stringify l) +:+ String "]" rest)
  = Some (l, rest).
Proof.
  intros Hl Hall. induction l as [|v l IH]; [now destruct Hl|].
  apply andb_prop in Hall as [Hv Hall].
  intros [|[|fuel]] Hfuel; simpl in Hfuel; try lia.
  destruct l as [|w l].
  - now apply parse_elems_last.
  - rewrite List.map_cons, List.map_cons, join_cons, <- List.map_cons.
    rewrite !append_assoc.
    change ("," +:+ ?x) with (String "," x).
    rewrite parse_elems_more, IH; [reflexivity | discriminate | exact Hall | | exact Hv].
    simpl in *. lia.
Qed.

Lemma entry_length (v : value) :
  is_key_entry v = true -> (1 <= String.length (JSON_stringify v))%nat.
Proof.
  intros Hv. destruct (entry_head v "" Hv) as (c & r & Hs & _).
  assert (E : JSON_stringify v = String c r).
  { rewrite <- Hs. clear. induction (JSON_stringify v); simpl; congruence. }
  rewrite E. simpl. lia.
Qed.

Lemma join_length (l : list value) :
  forallb is_key_entry l = true ->
  (length l <= String.length (join "," (List.map JSON_stringify l)))%nat.
Proof.
  induction l as [|v [|w l] IH]; intros Hall; [simpl; lia | |].
  - apply andb_prop in Hall as [Hv _]. apply entry_length in Hv. simpl in *. lia.
  - apply andb_prop in Hall as [Hv Hall]. apply entry_length in Hv.
    specialize (IH Hall).
    rewrite List.map_cons, List.map_cons, join_cons, <- List.map_cons.
    rewrite !length_append. simpl in *. lia.
Qed.

Lemma parse_value_array (fuel : nat) (c : ascii) (r : string) :
  is_json_ws c = false -> c <> "]"%char ->
  parse_value (S fuel) (String "[" (String c r))
  = match parse_elems fuel (String c r) with
    | Some (vs, rest) => Some (VArr vs, rest)
    | None => None
    end.
Proof.
  intros Hws Hc.
  change (parse_value (S fuel) (String "[" (String c r)))
    with (match skip_ws (String c r) with
          | "" => None
          | String c1 r' =>
              if Ascii.eqb c1 "]" then Some (VArr [], r')
              else
                match parse_elems fuel (String c1 r') with
                | Some (vs, rest) => Some (VArr vs, rest)
                | None => None
                end
          end).
  cbn [skip_ws]. rewrite Hws.
  now destruct (Ascii.eqb_spec c "]").
Qed.

(** [JSON.parse(JSON.stringify(key))] is [key] for every tuple of integers
    and strings. *)
Lemma JSON_parse_stringify_key (l : list value) :
  forallb is_key_entry l = true ->
  JSON_parse_string (JSON_stringify (VArr l)) = Some (VArr l).
Proof.
  intros Hall. unfold JSON_parse_string.
  change (JSON_stringify (VArr l))
    with ("[" +:+ join "," (List.map JSON_stringify l) +:+ "]").
  set (body := join "," (List.map JSON_stringify l)).
  assert (Hlen : (length l <= String.length body)%nat) by now apply join_length.
  replace (2 * String.length ("[" +:+ body +:+ "]") + 2)%nat
    with (S (S (2 * String.length body + 4)))
    by (rewrite !length_append; simpl; lia).
  destruct l as [|v l]; [reflexivity|].
  assert (Hv : is_key_entry v = true) by now apply andb_prop in Hall.
  assert (Hhead : exists c r, body +:+ "]" = String c r
                    /\ is_json_ws c = false /\ c <> "]"%char).
  { subst body. destruct l as [|w l].
    - now apply entry_head.
    - rewrite List.map_cons, List.map_cons, join_cons, append_assoc.
      now apply entry_head. }
  destruct Hhead as (c & r & Hs & Hws & Hc).
  change ("[" +:+ body +:+ "]") with (String "[" (body +:+ "]")).
  rewrite Hs, parse_value_array, <- Hs by assumption.
  subst body.
  rewrite parse_elems_entries; [reflexivity | discriminate | exact Hall |].
  simpl in *. lia.
Qed.

(** [JSON.parse] never yields [undefined]. *)
Lemma parse_value_defined (fuel : nat) (s r : string) (v : value) :
  parse_value fuel s = Some (v, r) -> v <> VUndef.
Proof.
  destruct fuel as [|fuel]; [discriminate|]. cbn [parse_value].
  intros H. repeat case_match; simplify_eq; discriminate.
Qed.

Lemma JSON_parse_defined (text v : value) :
  JSON_parse text = Some v -> v <> VUndef.
Proof.
  unfold JSON_parse, JSON_parse_string. intros H.
  repeat case_match; simplify_eq. eauto using parse_value_defined.
Qed.

Lemma append_empty (s : string) : s +:+ "" = s.
Proof. induction s as [|c s IH]; simpl; [reflexivity | now f_equal]. Qed.

(** No white space of two or three bytes starts with an ASCII character. *)
Lemma ascii_not_ws2 (c c2 : ascii) :
  (N_of_ascii c <? 128)%N = true -> is_str_ws2 c c2 = false.
Proof.
  intros H. apply N.ltb_lt in H. unfold is_str_ws2.
  destruct (N.eqb_spec (N_of_ascii c) 194); [lia | reflexivity].
Qed.

Lemma ascii_not_ws3 (c c2 c3 : ascii) :
  (N_of_ascii c <? 128)%N = true -> is_str_ws3 c c2 c3 = false.
Proof.
  intros H. apply N.ltb_lt in H. unfold is_str_ws3. cbv zeta.
  repeat match goal with
         | |- context [(N_of_ascii c =? ?k)%N] =>
             destruct (N.eqb_spec (N_of_ascii c) k); [lia|]
         end.
  reflexivity.
Qed.

(** Trimming stops at an ASCII character that is not white space. *)
Lemma trim_left_head (c : ascii) (r : string) :
  (N_of_ascii c <? 128)%N = true -> is_str_ws c = false ->
  trim_left (String c r) = String c r.
Proof.
  intros Ha Hw. cbn [trim_left]. rewrite Hw.
  destruct r as [|c2 [|c3 r3]]; try reflexivity;
    now rewrite ?ascii_not_ws2, ?ascii_not_ws3 by exact Ha.
Qed.

Lemma is_blank_head (c : ascii) (r : string) :
  (N_of_ascii c <? 128)%N = true -> is_str_ws c = false ->
  is_blank (String c r) = false.
Proof.
  intros Ha Hw. cbn [is_blank]. rewrite Hw.
  destruct r as [|c2 [|c3 r3]]; try reflexivity;
    now rewrite ?ascii_not_ws2, ?ascii_not_ws3 by exact Ha.
Qed.

(** A digit or a sign is an ASCII character that is not white space. *)
Lemma digit_plain (c : ascii) :
  digit_of c <> None ->
  (N_of_ascii c <? 128)%N = true /\ is_str_ws c = false.
Proof.
  destruct c as [[] [] [] [] [] [] [] []]; intros H;
    try (now destruct H); now split.
Qed.

End JSFacts.

(** * The fuel of the JSON parser *)

Module FuelFacts.

Import Views JSFacts.

#[local] Arguments String.append : simpl nomatch.

Lemma skip_ws_length (s : string) : (String.length (skip_ws s) <= String.length s)%nat.
Proof.
  induction s as [|c s IH]; simpl; [lia|].
  destruct (is_json_ws c); simpl; lia.
Qed.

Lemma read_digits_length (s r : string) (d : uint) :
  read_digits s = (d, r) -> String.length s = (nb_digits d + String.length r)%nat.
Proof.
  revert d r. induction s as [|c s IH]; simpl; intros d r H.
  - now simplify_eq.
  - destruct (digit_of c) as [k|] eqn:Hc; [|now simplify_eq].
    destruct (read_digits s) as [ds rest]. specialize (IH ds rest eq_refl).
    simplify_eq. unfold digit_of in Hc.
    repeat case_match; simplify_eq; simpl; lia.
Qed.

Lemma strip_prefix_length (p s r : string) :
  strip_prefix p s = Some r -> String.length s = (String.length p + String.length r)%nat.
Proof.
  revert s. induction p as [|a p IH]; intros [|b s] H; simpl in *;
    simplify_eq; try reflexivity.
  destruct (Ascii.eqb a b); [|discriminate]. f_equal. auto.
Qed.

Lemma parse_chars_length (s str r : string) :
  parse_chars s = Some (str, r) -> (String.length r < String.length s)%nat.
Proof.
  remember (String.length s) as n eqn:Hn. revert s str r Hn.
  induction n as [n IH] using lt_wf_ind. intros s str r -> H.
  assert (Hrec : forall r' str', (String.length r' < String.length s)%nat ->
             parse_chars r' = Some (str', r) -> (String.length r < String.length s)%nat).
  { intros r' str' Hr' Hp. specialize (IH (String.length r') Hr' r' str' r eq_refl Hp). lia. }
  clear IH. destruct s as [|c s]; [discriminate|]. cbn [parse_chars] in H.
  repeat case_match; simplify_eq;
    solve [ simpl; lia
          | match goal with
            | Hp : parse_chars ?r' = Some _ |- _ =>
                apply (Hrec r' _ ltac:(simpl; lia) Hp)
            end ].
Qed.

Lemma split_minus_length (s r : string) (neg : bool) :
  split_minus s = (neg, r) -> (String.length r <= String.length s)%nat.
Proof.
  unfold split_minus. intros H. repeat case_match; simplify_eq; simpl; lia.
Qed.

Lemma split_sign_length (s r : string) (neg : bool) :
  split_sign s = (neg, r) -> (String.length r <= String.length s)%nat.
Proof.
  unfold split_sign. intros H. repeat case_match; simplify_eq; simpl; lia.
Qed.

Lemma parse_fraction_length (s r : string) (d : uint) :
  parse_fraction s = Some (d, r) -> (String.length r <= String.length s)%nat.
Proof.
  unfold parse_fraction. intros H.
  repeat case_match; simplify_eq;
    repeat match goal with
           | Hd : read_digits _ = _ |- _ => apply read_digits_length in Hd
           end; simpl in *; lia.
Qed.

Lemma parse_exponent_length (s r : string) (e : Z) :
  parse_exponent s = Some (e, r) -> (String.length r <= String.length s)%nat.
Proof.
  unfold parse_exponent. intros H.
  repeat case_match; simplify_eq;
    repeat match goal with
           | Hd : read_digits _ = _ |- _ => apply read_digits_length in Hd
           | Hd : split_sign _ = _ |- _ => apply split_sign_length in Hd
           end; simpl in *; lia.
Qed.

Lemma parse_number_length (s r : string) (n : number) :
  parse_number s = Some (n, r) -> (String.length r < String.length s)%nat.
Proof.
  unfold parse_number. intros H.
  destruct (split_minus s) as [neg s1] eqn:H1.
  destruct (read_digits s1) as [ip s2] eqn:H2.
  destruct (valid_int_part ip) eqn:Hv; [|discriminate].
  destruct (parse_fraction s2) as [[fp s3]|] eqn:H3; [|discriminate].
  destruct (parse_exponent s3) as [[e s4]|] eqn:H4; simplify_eq.
  apply split_minus_length in H1. apply read_digits_length in H2.
  apply parse_fraction_length in H3. apply parse_exponent_length in H4.
  destruct ip; try discriminate Hv; simpl in *; lia.
Qed.

Lemma skip_ws_shorter (s r : string) :
  skip_ws s = r -> (String.length r <= String.length s)%nat.
Proof. intros <-. apply skip_ws_length. Qed.

Ltac note H :=
  let T := type of H in
  lazymatch goal with
  | _ : T |- _ => fail
  | _ => pose proof H
  end.

Ltac length_facts :=
  repeat match goal with
         | E : skip_ws _ = _ |- _ => note (skip_ws_shorter _ _ E)
         | E : parse_chars _ = Some _ |- _ => note (parse_chars_length _ _ _ E)
         | E : parse_number _ = Some _ |- _ => note (parse_number_length _ _ _ E)
         | E : strip_prefix _ _ = Some _ |- _ => note (strip_prefix_length _ _ _ E)
         end;
  cbn [String.length] in *.

Ltac replay :=
  repeat match goal with
         | E : ?x = _ |- context [match ?x with _ => _ end] => rewrite E
         | E : ?x = _ |- context [if ?x then _ else _] => rewrite E
         end.

Ltac use_fuel :=
  repeat match goal with
         | Hf : (forall g : nat, @?P g -> parse_value g ?x = ?y)
           |- context [parse_value ?g' ?x] => rewrite (Hf g') by lia
         | Hf : (forall g : nat, @?P g -> parse_elems g ?x = ?y)
           |- context [parse_elems ?g' ?x] => rewrite (Hf g') by lia
         | Hf : (forall g : nat, @?P g -> parse_members g ?x = ?y)
           |- context [parse_members ?g' ?x] => rewrite (Hf g') by lia
         end.

Ltac use_IH IHv IHe IHm :=
  repeat match goal with
         | E : parse_value _ _ = Some _ |- _ => apply IHv in E as [? ?]
         | E : parse_elems _ _ = Some _ |- _ => apply IHe in E as [? ?]
         | E : parse_members _ _ = Some _ |- _ => apply IHm in E as [? ?]
         end.

Lemma enough_fuel_all (f : nat) : enough_fuel f.
Proof.
  induction f as [|f (IHv & IHe & IHm)]; [repeat split; discriminate|].
  repeat split.
  - cbn [parse_value] in H.
    repeat case_match; simplify_eq; use_IH IHv IHe IHm; length_facts; lia.
  - intros f' Hf'. cbn [parse_value] in H.
    repeat case_match; simplify_eq; use_IH IHv IHe IHm; length_facts;
      (destruct f' as [|f']; [lia|]); cbn [parse_value];
      replay; use_fuel; replay; reflexivity.
  - cbn [parse_elems] in H.
    repeat case_match; simplify_eq; use_IH IHv IHe IHm; length_facts; lia.
  - intros f' Hf'. cbn [parse_elems] in H.
    repeat case_match; simplify_eq; use_IH IHv IHe IHm; length_facts;
      (destruct f' as [|f']; [lia|]); cbn [parse_elems];
      use_fuel; replay; use_fuel; replay; reflexivity.
  - cbn [parse_members] in H.
    repeat case_match; simplify_eq; use_IH IHv IHe IHm; length_facts; lia.
  - intros f' Hf'. cbn [parse_members] in H.
    repeat case_match; simplify_eq; use_IH IHv IHe IHm; length_facts;
      (destruct f' as [|f']; [lia|]); cbn [parse_members];
      replay; use_fuel; replay; use_fuel; replay; reflexivity.
Qed.

(** [JSON_parse_string] gives itself enough fuel: it fails only on a text
    that no amount of fuel parses to the end. *)
Lemma JSON_parse_string_complete (s : string) (fuel : nat) (v : value)
  (rest : string) :
  parse_value fuel s = Some (v, rest) -> skip_ws rest = "" ->
  JSON_parse_string s = Some v.
Proof.
  intros H Hrest. unfold JSON_parse_string.
  destruct (enough_fuel_all fuel) as (Hv & _ & _).
  destruct (Hv s v rest H) as [_ Hf]. rewrite Hf by lia. now rewrite Hrest.
Qed.

End FuelFacts.

(** * The handlers run to their views *)

Module RouterFacts.

Import Primitives Express Middleware AssetRouter BlockRouter Views.

Ltac unfold_M :=
  unfold run, try_catch, when, next, next_err, res_json, res_status_send, emit,
    await, throw, query, set_query, mbind, mret, M_bind, M_ret in *.

Lemma parseEvaluatedKey_run (q : Query) :
  run parseEvaluatedKey q
  = match decode_key "firstEvaluatedKey" q with
    | None => (q, [NextErr SyntaxError])
    | Some q1 =>
        match decode_key "lastEvaluatedKey" q1 with
        | None => (q1, [NextErr SyntaxError])
        | Some q2 =>
            (q2, [if truthy (js_and (param q2 "lastEvaluatedKey")
                                    (param q2 "firstEvaluatedKey"))
                  then NextErr (JsError conflict_message) else Next])
        end
    end.
Proof.
  unfold parseEvaluatedKey, decode_key, JSON_parse_or_throw. unfold_M.
  destruct (truthy (param q "firstEvaluatedKey"));
    [destruct (JSON_parse (param q "firstEvaluatedKey")) as [v1|]|];
    simpl; try reflexivity.
  all: match goal with
       | |- context [truthy (param ?q1 "lastEvaluatedKey")] =>
           destruct (truthy (param q1 "lastEvaluatedKey"));
           [destruct (JSON_parse (param q1 "lastEvaluatedKey")) as [v2|]|]
       end; simpl; try reflexivity.
  all: match goal with
       | |- context [truthy (js_and ?a ?b)] => destruct (truthy (js_and a b))
       end; reflexivity.
Qed.

Lemma assetType_of_run (v : value) (q : Query) :
  assetType_of v q = (q, [], assetType_result v).
Proof.
  unfold assetType_of, assetType_result, new_H160. unfold_M.
  destruct (truthy v); [destruct (H160_check v)|]; reflexivity.
Qed.

Lemma utxo_handler_run (context : Env) (q : Query) :
  run (utxo_handler context) q
  = (q, match assetType_result (param q "assetType") with
        | Throws e => [NextErr e]
        | Returns assetType =>
            call_then_respond
              (UTXOModel_getUTXO (utxo_params q assetType))
              (getUTXO context (utxo_params q assetType))
              (utxo_page context q)
        end).
Proof.
  unfold utxo_handler, call_then_respond. unfold_M.
  rewrite assetType_of_run.
  destruct (assetType_result (param q "assetType")) as [h|e]; [|reflexivity].
  fold (utxo_params q h).
  destruct (getUTXO context (utxo_params q h)); reflexivity.
Qed.

Lemma aggs_utxo_handler_run (context : Env) (q : Query) :
  run (aggs_utxo_handler context) q
  = (q, match assetType_result (param q "assetType") with
        | Throws e => [NextErr e]
        | Returns assetType =>
            call_then_respond
              (UTXOModel_getAggsUTXO (aggs_params q assetType))
              (getAggsUTXO context (aggs_params q assetType))
              (aggs_page context q)
        end).
Proof.
  unfold aggs_utxo_handler, call_then_respond. unfold_M.
  rewrite assetType_of_run.
  destruct (assetType_result (param q "assetType")) as [h|e]; [|reflexivity].
  fold (aggs_params q h).
  destruct (getAggsUTXO context (aggs_params q h)); reflexivity.
Qed.

Lemma syncIfNeeded_run (context : Env) (q : Query) :
  run (syncIfNeeded context) q
  = (q, if strictly_true (param q "sync") then
          Call worker_sync ::
            match sync context with
            | None => [Next]
            | Some message =>
                if is_connection_error message
                then [Send (Status SERVICE_UNAVAILABLE)]
                else [NextErr (JsError message); Next]
            end
        else [Next]).
Proof.
  unfold syncIfNeeded, worker_sync_outcome. unfold_M.
  destruct (strictly_true (param q "sync")); [|reflexivity].
  destruct (sync context) as [message|]; [|reflexivity].
  simpl. destruct (is_connection_error message); reflexivity.
Qed.

Lemma snapshot_handler_run (context : Env) (q : Query) :
  run (snapshot_handler context) q
  = (q, if H160_check (param q "assetType") then
          match moment_unix context (param q "date") with
          | None => [NextErr InvalidDateParam]
          | Some t =>
              Call (BlockModel_getByTime t) ::
                match getByTime context t with
                | Throws e => [NextErr e]
                | Returns None => [Send (Json VNull)]
                | Returns (Some b) =>
                    call_then_respond
                      (UTXOModel_getSnapshot (snapshot_params q b))
                      (getSnapshot context (snapshot_params q b))
                      (snapshot_body b)
                end
          end
        else [NextErr (H160_error (param q "assetType"))]).
Proof.
  unfold snapshot_handler, new_H160, snapshotTime_of, call_then_respond. unfold_M.
  destruct (H160_check (param q "assetType")); [|reflexivity].
  destruct (moment_unix context (param q "date")) as [t|]; [|reflexivity].
  destruct (getByTime context t) as [[b|]|e]; try reflexivity.
  fold (snapshot_params q b).
  destruct (getSnapshot context (snapshot_params q b)); reflexivity.
Qed.

Lemma block_handler_run (context : Env) (hashOrNumber : string) (q : Query) :
  run (block_handler context hashOrNumber) q
  = (q, if H256_check (VStr hashOrNumber) then
          call_then_respond
            (BlockModel_getByHash (mkH256 hashOrNumber))
            (getByHash context (mkH256 hashOrNumber))
            block_body
        else if isNaN_string hashOrNumber then [Send (Json VNull)]
        else
          call_then_respond
            (BlockModel_getByNumber (parseInt (VStr hashOrNumber)))
            (getByNumber context (parseInt (VStr hashOrNumber)))
            block_body).
Proof.
  unfold block_handler, call_then_respond, block_body. unfold_M.
  destruct (H256_check (VStr hashOrNumber)).
  - destruct (getByHash context (mkH256 hashOrNumber)); reflexivity.
  - destruct (isNaN_string hashOrNumber); [reflexivity|]. simpl.
    destruct (getByNumber context (parseInt (VStr hashOrNumber))); reflexivity.
Qed.

(** The events of a function, one by one. *)
Lemma enter_nil (layers : nat) (left : list middleware) (q : Query) :
  enter layers left q [] = ([], (left, q)).
Proof. now destruct layers. Qed.

Lemma enter_next (layers : nat) (m : middleware) (rest : list middleware)
  (q : Query) (evs : list event) :
  enter (S layers) (m :: rest) q (Next :: evs)
  = let (q1, evs1) := m q in
    let '(out1, (left1, q2)) := enter layers rest q1 evs1 in
    let '(out2, state) := enter (S layers) left1 q2 evs in
    (out1 ++ out2, state).
Proof. reflexivity. Qed.

Lemma enter_next_err (layers : nat) (left : list middleware) (q : Query)
  (e : exn) (evs : list event) :
  enter layers left q (NextErr e :: evs)
  = let '(out, state) := enter layers [] q evs in (NextErr e :: out, state).
Proof. now destruct layers. Qed.

Lemma enter_next_end (layers : nat) (q : Query) (evs : list event) :
  enter layers [] q (Next :: evs) = enter layers [] q evs.
Proof. now destruct layers. Qed.

Lemma enter_call (layers : nat) (left : list middleware) (q : Query)
  (c : call) (evs : list event) :
  enter layers left q (Call c :: evs)
  = let '(out, state) := enter layers left q evs in (Call c :: out, state).
Proof. now destruct layers. Qed.

Lemma enter_send (layers : nat) (left : list middleware) (q : Query)
  (r : response) (evs : list event) :
  enter layers left q (Send r :: evs)
  = let '(out, state) := enter layers left q evs in (Send r :: out, state).
Proof. now destruct layers. Qed.

(** A function that does not call [next()] is the last one to run. *)
Lemma enter_no_next (layers : nat) (left : list middleware) (q : Query)
  (evs : list event) :
  Forall (fun ev => ev <> Next) evs -> fst (enter layers left q evs) = evs.
Proof.
  intros H. revert left. induction H as [|ev evs Hev _ IH]; intros left.
  - now rewrite enter_nil.
  - destruct ev as [c|r| |e]; [| |now destruct Hev|].
    + rewrite enter_call. specialize (IH left).
      destruct (enter layers left q evs). simpl in *. now f_equal.
    + rewrite enter_send. specialize (IH left).
      destruct (enter layers left q evs). simpl in *. now f_equal.
    + rewrite enter_next_err. specialize (IH []).
      destruct (enter layers [] q evs). simpl in *. now f_equal.
Qed.

(** A request enters the first function of the stack, the index on the
    second. *)
Lemma dispatch_cons (m : middleware) (rest : list middleware) (q : Query) :
  dispatch (m :: rest) q
  = fst (enter (length rest) rest (fst (m q)) (snd (m q))).
Proof.
  unfold dispatch. cbn [length]. rewrite enter_next.
  destruct (m q) as [q1 evs1]. cbn [fst snd].
  destruct (enter (length rest) rest q1 evs1) as [out1 [left1 q2]].
  rewrite enter_nil. cbn. apply app_nil_r.
Qed.

(** Dispatch through a function that only calls [next()], and through one
    that only calls [next(e)]. *)
Lemma dispatch_next (m : middleware) (rest : list middleware) (q q' : Query) :
  m q = (q', [Next]) -> dispatch (m :: rest) q = dispatch rest q'.
Proof. intros H. now rewrite dispatch_cons, H. Qed.

Lemma dispatch_next_err (m : middleware) (rest : list middleware)
  (q q' : Query) (e : exn) :
  m q = (q', [NextErr e]) -> dispatch (m :: rest) q = [NextErr e].
Proof.
  intros H. rewrite dispatch_cons, H. cbn [fst snd].
  now rewrite enter_next_err, enter_nil.
Qed.

Lemma dispatch_last (m : middleware) (q q' : Query) (evs : list event) :
  m q = (q', evs) -> Forall (fun ev => ev <> Next) evs ->
  forall rest, dispatch (m :: rest) q = evs.
Proof.
  intros H Hall rest. rewrite dispatch_cons, H. now apply enter_no_next.
Qed.

(** A call, then [next()]: the rest of the stack runs after the call. *)
Lemma dispatch_call_next (m : middleware) (rest : list middleware)
  (q q' : Query) (c : call) :
  m q = (q', [Call c; Next]) ->
  dispatch (m :: rest) q = Call c :: dispatch rest q'.
Proof.
  intros H. rewrite dispatch_cons, H. cbn [fst snd]. rewrite enter_call.
  unfold dispatch. now destruct (enter (length rest) rest q' [Next]).
Qed.

(** [next(e)], then [next()]: the error handler has the request, the rest
    of the stack is passed over. *)
Lemma dispatch_next_err_next (m : middleware) (rest : list middleware)
  (q q' : Query) (before : list event) (e : exn) :
  m q = (q', before ++ [NextErr e; Next]) ->
  Forall (fun ev => ev <> Next) before ->
  dispatch (m :: rest) q = before ++ [NextErr e].
Proof.
  intros H Hall. rewrite dispatch_cons, H. cbn [fst snd]. clear H.
  generalize rest at 2. induction Hall as [|ev evs Hev _ IH]; intros left.
  - cbn [app]. now rewrite enter_next_err, enter_next_end, enter_nil.
  - cbn [app]. destruct ev as [c|r| |e']; [| |now destruct Hev|].
    + rewrite enter_call. specialize (IH left).
      destruct (enter _ left q' _). simpl in *. now f_equal.
    + rewrite enter_send. specialize (IH left).
      destruct (enter _ left q' _). simpl in *. now f_equal.
    + rewrite enter_next_err. specialize (IH []).
      destruct (enter _ [] q' _). simpl in *. now f_equal.
Qed.

(** A sync failure that is not a connection error goes to the error
    handler; the [next()] that follows [next(e)] finds the stack passed
    over, and what comes after [syncIfNeeded] does not run. *)
Lemma sync_other_failure (context : Env) (rest : list middleware) (q : Query)
  (message : string) :
  param q "sync" = VBool true ->
  sync context = Some message ->
  is_connection_error message = false ->
  dispatch (run (syncIfNeeded context) :: rest) q
  = [Call worker_sync; NextErr (JsError message)].
Proof.
  intros Hq Hs Hm.
  apply (dispatch_next_err_next _ _ q q [Call worker_sync]);
    [|repeat constructor; discriminate].
  now rewrite syncIfNeeded_run, Hq, Hs, Hm.
Qed.

(** A sync that succeeds: the worker is called, then the stack goes on. *)
Lemma sync_success (context : Env) (rest : list middleware) (q : Query) :
  param q "sync" = VBool true ->
  sync context = None ->
  dispatch (run (syncIfNeeded context) :: rest) q
  = Call worker_sync :: dispatch rest q.
Proof.
  intros Hq Hs. apply dispatch_call_next.
  now rewrite syncIfNeeded_run, Hq, Hs.
Qed.

(** A sync that fails on its connection: 503, and nothing after it. *)
Lemma sync_connection_failure (context : Env) (rest : list middleware)
  (q : Query) (message : string) :
  param q "sync" = VBool true ->
  sync context = Some message ->
  is_connection_error message = true ->
  dispatch (run (syncIfNeeded context) :: rest) q
  = [Call worker_sync; Send (Status SERVICE_UNAVAILABLE)].
Proof.
  intros Hq Hs Hm.
  apply dispatch_last with (q' := q); [|repeat constructor; discriminate].
  now rewrite syncIfNeeded_run, Hq, Hs, Hm.
Qed.

(** Without [sync=true] the worker is left alone. *)
Lemma sync_not_requested (context : Env) (rest : list middleware) (q : Query) :
  strictly_true (param q "sync") = false ->
  dispatch (run (syncIfNeeded context) :: rest) q = dispatch rest q.
Proof.
  intros Hq. apply dispatch_next. now rewrite syncIfNeeded_run, Hq.
Qed.

End RouterFacts.

(** * Cursors through the pipeline *)

Module CursorFacts.

Import Primitives Express Middleware AssetRouter BlockRouter SpecModel Views JSFacts RouterFacts.

Lemma param_insert (q : Query) (k : string) (v : value) :
  param (<[k := v]> q) k = v.
Proof. unfold param. now rewrite lookup_insert_eq. Qed.

Lemma param_insert_ne (q : Query) (k k' : string) (v : value) :
  k <> k' -> param (<[k := v]> q) k' = param q k'.
Proof. intros H. unfold param. now rewrite lookup_insert_ne. Qed.

Lemma truthy_js_and (a b : value) :
  truthy (js_and a b) = truthy a && truthy b.
Proof. unfold js_and. destruct (truthy a) eqn:E; [reflexivity | exact E]. Qed.

(** What [decode_key] leaves under its own key and under the others. *)
Lemma decode_key_other (k k' : string) (q q1 : Query) :
  k <> k' -> decode_key k q = Some q1 -> param q1 k' = param q k'.
Proof.
  unfold decode_key. intros Hk H.
  destruct (truthy (param q k)); [|now simplify_eq].
  destruct (JSON_parse (param q k)); simplify_eq.
  now apply param_insert_ne.
Qed.

Lemma decode_key_defined (k : string) (q q1 : Query) :
  decode_key k q = Some q1 -> param q k <> VUndef -> param q1 k <> VUndef.
Proof.
  unfold decode_key. intros H Hk.
  destruct (truthy (param q k)); [|now simplify_eq].
  destruct (JSON_parse (param q k)) as [v|] eqn:Hp; simplify_eq.
  rewrite param_insert. eauto using JSON_parse_defined.
Qed.

(** A cursor that counts is truthy, and so is what it decodes to. *)
Lemma decodes_truthy_spec (v : value) :
  decodes_truthy v = true ->
  truthy v = true
  /\ forall decoded, JSON_parse v = Some decoded -> truthy decoded = true.
Proof.
  destruct v as [| | | |s| |]; try discriminate. cbn [decodes_truthy truthy].
  intros H. apply andb_prop in H as [Hs Hd]. split; [exact Hs|].
  unfold JSON_parse. cbn [ToString]. intros decoded Hp. rewrite Hp in Hd.
  destruct decoded as [| | |[| | |]| | |]; try exact Hd; discriminate Hd.
Qed.

Lemma accepted_cursor_truthy (n : nat) (v : value) :
  cursor_accepted n v = true -> v <> VUndef -> truthy v = true.
Proof. destruct v; simpl; intros H Hv; congruence. Qed.

Lemma stack_shape (context : Env) (op : Paginated) :
  stack context op
  = run parseEvaluatedKey :: validate context (schemas_of op)
      :: after_validation context op.
Proof. now destruct op. Qed.

Lemma validate_dispatch (context : Env) (schemas : list schema)
  (rest : list middleware) (q : Query) :
  dispatch (validate context schemas :: rest) q
  = match validate_query context schemas q with
    | inl q' => dispatch rest q'
    | inr detail => [NextErr (ValidationFailure detail)]
    end.
Proof.
  destruct (validate_query context schemas q) as [q'|detail] eqn:Hv.
  - apply dispatch_next. unfold validate. now rewrite Hv.
  - apply dispatch_next_err with (q' := q). unfold validate. now rewrite Hv.
Qed.

(** A paginated request, stage by stage. *)
Lemma paginated_dispatch (context : Env) (op : Paginated) (q : Query) :
  dispatch (stack context op) q
  = match decode_key "firstEvaluatedKey" q with
    | None => [NextErr SyntaxError]
    | Some q1 =>
        match decode_key "lastEvaluatedKey" q1 with
        | None => [NextErr SyntaxError]
        | Some q2 =>
            if truthy (param q2 "lastEvaluatedKey")
               && truthy (param q2 "firstEvaluatedKey")
            then [NextErr (JsError conflict_message)]
            else
              match validate_query context (schemas_of op) q2 with
              | inl q3 => dispatch (after_validation context op) q3
              | inr detail => [NextErr (ValidationFailure detail)]
              end
        end
    end.
Proof.
  rewrite stack_shape.
  set (rest := validate context (schemas_of op) :: after_validation context op).
  pose proof (parseEvaluatedKey_run q) as Hrun.
  destruct (decode_key "firstEvaluatedKey" q) as [q1|];
    [|now apply dispatch_next_err with (q' := q)].
  destruct (decode_key "lastEvaluatedKey" q1) as [q2|];
    [|now apply dispatch_next_err with (q' := q1)].
  rewrite truthy_js_and in Hrun.
  destruct (truthy (param q2 "lastEvaluatedKey")
            && truthy (param q2 "firstEvaluatedKey")).
  - now apply dispatch_next_err with (q' := q2).
  - rewrite (dispatch_next _ _ _ _ Hrun). apply validate_dispatch.
Qed.

Lemma sortKey_entries (r : UnspentOutput) :
  forallb is_key_entry (sortKey r) = true.
Proof. reflexivity. Qed.

Lemma aggsSortKey_entries (order : Order) (r : AggregateRow) :
  forallb is_key_entry (aggsSortKey order r) = true.
Proof. now destruct order. Qed.

Lemma param_singleton (k : string) (v : value) :
  param {[ k := v ]} k = v.
Proof. unfold param. now rewrite lookup_singleton_eq. Qed.

Lemma param_singleton_ne (k k' : string) (v : value) :
  k <> k' -> param ({[ k := v ]} : Query) k' = VUndef.
Proof. intros H. unfold param. now rewrite lookup_singleton_ne. Qed.

Lemma decode_encoded_key (k : string) (key : list value) :
  forallb is_key_entry key = true ->
  decode_key k (with_cursor k (JSON_stringify (VArr key)))
  = Some {[ k := VArr key ]}.
Proof.
  intros Hkey. unfold decode_key, with_cursor. rewrite param_singleton.
  change (truthy (VStr (JSON_stringify (VArr key)))) with true. cbv iota.
  unfold JSON_parse. change (ToString (VStr ?s)) with s.
  rewrite JSON_parse_stringify_key by exact Hkey.
  now rewrite insert_singleton_eq.
Qed.

Lemma decode_absent_key (k k' : string) (v : value) :
  k <> k' -> decode_key k' ({[ k := v ]} : Query) = Some {[ k := v ]}.
Proof.
  intros H. unfold decode_key. now rewrite param_singleton_ne.
Qed.

Lemma parse_first_cursor (key : list value) :
  forallb is_key_entry key = true ->
  run parseEvaluatedKey
      (with_cursor "firstEvaluatedKey" (JSON_stringify (VArr key)))
  = ({[ "firstEvaluatedKey" := VArr key ]}, [Next]).
Proof.
  intros Hkey.
  rewrite parseEvaluatedKey_run, decode_encoded_key by exact Hkey.
  rewrite decode_absent_key, param_singleton_ne by discriminate.
  reflexivity.
Qed.

Lemma parse_last_cursor (key : list value) :
  forallb is_key_entry key = true ->
  run parseEvaluatedKey
      (with_cursor "lastEvaluatedKey" (JSON_stringify (VArr key)))
  = ({[ "lastEvaluatedKey" := VArr key ]}, [Next]).
Proof.
  intros Hkey. rewrite parseEvaluatedKey_run. unfold with_cursor at 1.
  rewrite decode_absent_key by discriminate.
  fold (with_cursor "lastEvaluatedKey" (JSON_stringify (VArr key))).
  rewrite decode_encoded_key by exact Hkey.
  rewrite param_singleton, param_singleton_ne by discriminate.
  reflexivity.
Qed.

(** A cursor that does not decode to a well-formed key is refused. *)
Lemma malformed_first_cursor (context : Env) (op : Paginated) (q : Query)
  (s : string) :
  validator_checks_cursors context ->
  param q "firstEvaluatedKey" = VStr s ->
  param q "lastEvaluatedKey" = VUndef ->
  (forall v, JSON_parse_string s = Some v ->
             well_formed_cursor (arity op) v = false) ->
  exists e, dispatch (stack context op) q = [NextErr e] /\ MalformedCursor e.
Proof.
  intros Hval Hk Hother Hbad. rewrite paginated_dispatch.
  destruct (decode_key "firstEvaluatedKey" q) as [q1|] eqn:H1;
    [|exists SyntaxError; split; [reflexivity | now left]].
  assert (Hl1 : param q1 "lastEvaluatedKey" = VUndef)
    by (rewrite <- Hother; now apply (decode_key_other "firstEvaluatedKey")).
  unfold decode_key at 1. rewrite Hl1. cbn [truthy]. cbv iota.
  rewrite Hl1. cbn [truthy andb].
  destruct (validate_query context (schemas_of op) q1) as [q3|detail] eqn:Hv;
    [|exists (ValidationFailure detail); split; [reflexivity | right; eauto]].
  destruct (Hval op q1 q3 Hv) as [Ha _]. exfalso.
  unfold decode_key in H1. rewrite Hk in H1.
  destruct (truthy (VStr s)) eqn:Ht.
  - unfold JSON_parse in H1. simpl ToString in H1.
    destruct (JSON_parse_string s) as [v|] eqn:Hp; simplify_eq.
    rewrite param_insert in Ha.
    assert (Hdef : v <> VUndef)
      by (apply (JSON_parse_defined (VStr s)); exact Hp).
    specialize (Hbad v eq_refl). destruct v; unfold cursor_accepted in Ha; congruence.
  - simplify_eq. rewrite Hk in Ha. discriminate Ha.
Qed.

Lemma malformed_last_cursor (context : Env) (op : Paginated) (q : Query)
  (s : string) :
  validator_checks_cursors context ->
  param q "lastEvaluatedKey" = VStr s ->
  param q "firstEvaluatedKey" = VUndef ->
  (forall v, JSON_parse_string s = Some v ->
             well_formed_cursor (arity op) v = false) ->
  exists e, dispatch (stack context op) q = [NextErr e] /\ MalformedCursor e.
Proof.
  intros Hval Hk Hother Hbad. rewrite paginated_dispatch.
  unfold decode_key at 1. rewrite Hother. cbn [truthy]. cbv iota.
  destruct (decode_key "lastEvaluatedKey" q) as [q2|] eqn:H2;
    [|exists SyntaxError; split; [reflexivity | now left]].
  assert (Hf2 : param q2 "firstEvaluatedKey" = VUndef)
    by (rewrite <- Hother; now apply (decode_key_other "lastEvaluatedKey")).
  rewrite Hf2. cbn [truthy]. rewrite andb_false_r.
  destruct (validate_query context (schemas_of op) q2) as [q3|detail] eqn:Hv;
    [|exists (ValidationFailure detail); split; [reflexivity | right; eauto]].
  destruct (Hval op q2 q3 Hv) as [_ Ha]. exfalso.
  unfold decode_key in H2. rewrite Hk in H2.
  destruct (truthy (VStr s)) eqn:Ht.
  - unfold JSON_parse in H2. simpl ToString in H2.
    destruct (JSON_parse_string s) as [v|] eqn:Hp; simplify_eq.
    rewrite param_insert in Ha.
    assert (Hdef : v <> VUndef)
      by (apply (JSON_parse_defined (VStr s)); exact Hp).
    specialize (Hbad v eq_refl). destruct v; unfold cursor_accepted in Ha; congruence.
  - simplify_eq. rewrite Hk in Ha. discriminate Ha.
Qed.

(** The validator of the example deployment checks the cursors. *)
Lemma example_validator_checks_cursors : validator_checks_cursors Example.env.
Proof.
  intros op q q'. unfold Example.env, validate_query, validate_cursors.
  destruct op; simpl;
    destruct (cursor_accepted _ (param q "firstEvaluatedKey"));
    destruct (cursor_accepted _ (param q "lastEvaluatedKey"));
    simpl; intros H; now try discriminate H.
Qed.

End CursorFacts.

(** * The listing handlers *)

Module HandlerFacts.

Import Primitives Express Middleware AssetRouter BlockRouter SpecModel Views JSFacts RouterFacts.

#[local] Arguments String.append : simpl nomatch.

(** An integer up to [2^53] in magnitude is a double. *)
Lemma double_of_Z_safe (z : Z) :
  Z.abs z <= MAX_SAFE_INTEGER -> double_of_Z z = Int z.
Proof.
  intros H. unfold double_of_Z. cbv zeta.
  now destruct (Z.leb_spec (Z.abs z) MAX_SAFE_INTEGER); [|lia].
Qed.

Lemma double_of_Z_exact (z : Z) :
  Z.abs z <= MAX_SAFE_INTEGER + 1 -> double_of_Z z = Int z.
Proof.
  intros H.
  destruct (Z.le_gt_cases (Z.abs z) MAX_SAFE_INTEGER) as [Hs | Hs];
    [now apply double_of_Z_safe|].
  assert (E : z = MAX_SAFE_INTEGER + 1 \/ z = - (MAX_SAFE_INTEGER + 1)) by lia.
  destruct E as [-> | ->]; vm_compute; reflexivity.
Qed.

(** A rounded integer is an integer, or infinite. *)
Lemma double_of_Z_integral (z : Z) :
  (exists n, double_of_Z z = Int n) \/ exists s, double_of_Z z = Infinity s.
Proof.
  unfold double_of_Z. cbv zeta.
  destruct (Z.abs z <=? MAX_SAFE_INTEGER); [eauto|].
  destruct (2 ^ 1024 <=? _); eauto.
Qed.

(** One more than a safe integer. *)
Lemma num_add_one (n : Z) :
  Z.abs n <= MAX_SAFE_INTEGER -> num_add (Int n) (Int 1) = Int (n + 1).
Proof.
  intros H. cbn [num_add]. apply double_of_Z_exact. lia.
Qed.

Lemma parseInt_string_digit_head (c : ascii) (r : string) :
  digit_of c <> None ->
  parseInt_string (String c r)
  = match read_digits (String c r) with
    | (Nil, _) => NaN
    | (ds, _) => double_of_Z (Z.of_uint ds)
    end.
Proof.
  intros Hc. unfold parseInt_string.
  destruct (digit_plain c Hc) as [Ha Hw]. rewrite trim_left_head by assumption.
  destruct c as [[] [] [] [] [] [] [] []]; try reflexivity; now destruct Hc.
Qed.

Lemma parseInt_string_minus (r : string) :
  parseInt_string (String "-" r)
  = match read_digits r with
    | (Nil, _) => NaN
    | (ds, _) => double_of_Z (- Z.of_uint ds)
    end.
Proof.
  unfold parseInt_string. now rewrite trim_left_head by reflexivity.
Qed.

Lemma parseInt_string_uint (d : uint) (rest : string) :
  d <> Nil -> no_digit_ahead rest ->
  parseInt_string (NilEmpty.string_of_uint d +:+ rest)
  = double_of_Z (Z.of_uint d).
Proof.
  intros Hd Hrest.
  destruct (printed_uint_head d rest Hd) as (c & r & Hs & Hc).
  rewrite Hs, parseInt_string_digit_head, <- Hs by exact Hc.
  rewrite read_digits_printed by exact Hrest.
  destruct d; try reflexivity. now destruct Hd.
Qed.

(** [parseInt] reads back the decimal text of an integer, whatever follows
    it that is not a digit, and rounds it to a double. *)
Lemma parseInt_string_printed (z : Z) (rest : string) :
  no_digit_ahead rest ->
  parseInt_string (string_of_Z z +:+ rest) = double_of_Z z.
Proof.
  intros Hrest. unfold string_of_Z. destruct z as [|p|p]; simpl.
  - now apply (parseInt_string_uint (D0 Nil)).
  - rewrite string_of_uint_nonnil by apply Unsigned.to_uint_nonnil.
    rewrite parseInt_string_uint, of_uint_to_uint;
      auto using Unsigned.to_uint_nonnil.
  - rewrite string_of_uint_nonnil by apply Unsigned.to_uint_nonnil.
    rewrite parseInt_string_minus, read_digits_printed by exact Hrest.
    pose proof (Unsigned.to_uint_nonnil p) as Hn.
    change (Z.neg p) with (- Z.pos p). rewrite <- (of_uint_to_uint p).
    destruct (Pos.to_uint p); try reflexivity. now destruct Hn.
Qed.

Lemma string_of_Z_nonempty (z : Z) : string_of_Z z <> "".
Proof.
  destruct (string_of_Z_head z "") as (c & r & H & _).
  rewrite append_empty in H. now rewrite H.
Qed.

Lemma truthy_string_of_Z (z : Z) : truthy (VStr (string_of_Z z)) = true.
Proof.
  simpl. destruct (String.eqb_spec (string_of_Z z) ""); [|reflexivity].
  now destruct (string_of_Z_nonempty z).
Qed.

Lemma parseInt_printed (z : Z) :
  parseInt (VStr (string_of_Z z)) = double_of_Z z.
Proof.
  unfold parseInt. simpl ToString.
  rewrite <- (append_empty (string_of_Z z)).
  now apply parseInt_string_printed.
Qed.

(** The decimal text of a safe integer is read back as that integer. *)
Lemma and_parseInt_printed (z : Z) :
  Z.abs z <= MAX_SAFE_INTEGER ->
  and_parseInt (VStr (string_of_Z z)) = VNum (Int z).
Proof.
  intros Hz. unfold and_parseInt, js_and.
  now rewrite truthy_string_of_Z, parseInt_printed, double_of_Z_safe.
Qed.

(** The storage calls among the events of the two listing handlers. *)
Lemma utxo_handler_calls (context : Env) (q : Query) (p : GetUTXO.params) :
  In (Call (UTXOModel_getUTXO p)) (events_of (run (utxo_handler context)) q) ->
  exists assetType, p = utxo_params q assetType.
Proof.
  unfold events_of. rewrite utxo_handler_run. simpl.
  destruct (assetType_result (param q "assetType")) as [h|e]; simpl.
  - intros [E | H]; [injection E as <-; eauto|].
    destruct (getUTXO context (utxo_params q h)); simpl in H;
      destruct H as [H | []]; discriminate H.
  - intros [H | []]; discriminate H.
Qed.

Lemma aggs_utxo_handler_calls (context : Env) (q : Query)
  (p : GetAggsUTXO.params) :
  In (Call (UTXOModel_getAggsUTXO p))
     (events_of (run (aggs_utxo_handler context)) q) ->
  exists assetType, p = aggs_params q assetType.
Proof.
  unfold events_of. rewrite aggs_utxo_handler_run. simpl.
  destruct (assetType_result (param q "assetType")) as [h|e]; simpl.
  - intros [E | H]; [injection E as <-; eauto|].
    destruct (getAggsUTXO context (aggs_params q h)); simpl in H;
      destruct H as [H | []]; discriminate H.
  - intros [H | []]; discriminate H.
Qed.

(** [parseInt] of a number goes through its decimal text. *)
Lemma parseInt_number (n : Z) :
  Z.abs n <= MAX_SAFE_INTEGER -> parseInt (VNum (Int n)) = Int n.
Proof.
  intros Hn. unfold parseInt. cbn [ToString string_of_number].
  rewrite <- (append_empty (string_of_Z n)).
  rewrite parseInt_string_printed by exact I. now apply double_of_Z_safe.
Qed.

(** [parseInt] yields NaN, an integer or an infinity. *)
Lemma parseInt_integral (v : value) :
  parseInt v = NaN \/ (exists n, parseInt v = Int n)
  \/ exists s, parseInt v = Infinity s.
Proof.
  unfold parseInt, parseInt_string.
  destruct (trim_left (ToString v)) as [|c r]; simpl.
  - now left.
  - repeat case_match; simplify_eq;
      solve [now left | right; apply double_of_Z_integral].
Qed.

(** The page size: 15, or what was parsed when that is a number other than
    zero. *)
Lemma itemsPerPage_of_cases (v : value) :
  (itemsPerPage_of v = VNum (Int 15)
   /\ (truthy v = false \/ parseInt v = NaN \/ parseInt v = Int 0))
  \/ (itemsPerPage_of v = VNum (parseInt v)
      /\ truthy v = true /\ parseInt v <> NaN /\ parseInt v <> Int 0).
Proof.
  unfold itemsPerPage_of, and_parseInt, js_or, js_and.
  destruct (truthy v) eqn:Hv.
  - destruct (parseInt_integral v) as [-> | [[n ->] | [s ->]]]; simpl; [auto| |].
    + destruct (Z.eqb_spec n 0) as [-> | Hn]; simpl; [auto|].
      right. repeat split; congruence.
    + right. now repeat split.
  - rewrite Hv. auto.
Qed.

(** The page size is a number, and never zero. *)
Lemma itemsPerPage_of_number (v : value) :
  exists size, itemsPerPage_of v = VNum size /\ size <> NaN /\ size <> Int 0.
Proof.
  destruct (itemsPerPage_of_cases v) as [[-> _] | (-> & _ & Hn & Hz)].
  - exists (Int 15). now repeat split.
  - exists (parseInt v). now repeat split.
Qed.

End HandlerFacts.

(** * The snapshot stack *)

Module SnapshotFacts.

Import Primitives Express Middleware AssetRouter BlockRouter SpecModel Views JSFacts RouterFacts CursorFacts.

Lemma resolve_none (blocks : list BlockAttribute) (t : Z) :
  (forall b, In b blocks -> t < timestamp b) ->
  resolveBlockByTimestamp blocks t = None.
Proof.
  intros Hall. unfold resolveBlockByTimestamp.
  replace (List.filter (fun b => timestamp b <=? t) blocks) with (@nil BlockAttribute);
    [reflexivity|].
  symmetry. induction blocks as [|b blocks IH]; [reflexivity|]. simpl.
  destruct (Z.leb_spec (timestamp b) t) as [Hle|_].
  - specialize (Hall b (or_introl eq_refl)). lia.
  - apply IH. intros b' Hb'. apply Hall. now right.
Qed.

(** A snapshot request that passes the cursor parsing and the validation
    reaches the handler with the validated query. *)
Lemma snapshot_dispatch (context : Env) (q q1 q2 : Query) :
  run parseEvaluatedKey q = (q1, [Next]) ->
  validate_query context (schemas_of snapshot) q1 = inl q2 ->
  dispatch (snapshot_route context) q
  = events_of (run (snapshot_handler context)) q2.
Proof.
  intros Hp Hv. unfold snapshot_route.
  rewrite (dispatch_next _ _ _ _ Hp), validate_dispatch.
  change [snapshotSchema; snapshotPaginationSchema] with (schemas_of snapshot).
  rewrite Hv. unfold events_of. rewrite snapshot_handler_run.
  apply dispatch_last with (q' := q2); [apply snapshot_handler_run|].
  destruct (H160_check (param q2 "assetType")); [|repeat constructor; discriminate].
  destruct (moment_unix context (param q2 "date")) as [t|];
    [|repeat constructor; discriminate].
  unfold call_then_respond.
  destruct (getByTime context t) as [[b|]|e];
    [destruct (getSnapshot context (snapshot_params q2 b))| |];
    repeat constructor; discriminate.
Qed.

End SnapshotFacts.

(** * The model on concrete inputs *)

Module Examples.

Import Primitives Express Middleware AssetRouter Views.

Example truthy_values :
  List.map truthy [VUndef; VNull; VStr ""; VStr "0"; VNum (Int 0); VNum NaN;
                   VArr []; VObj []; VBool false]
  = [false; false; false; true; false; false; true; true; false].
Proof. reflexivity. Qed.

Example parseInt_values :
  List.map parseInt [VStr "20"; VStr "  -12abc"; VStr ""; VStr "abc";
                     VStr "0x10"; VStr "+7"; VNum (Int 20); VNum (Frac 15 1);
                     VBool true; VUndef]
  = [Int 20; Int (-12); NaN; NaN; Int 0; Int 7; Int 20; Int 1; NaN; NaN].
Proof. vm_compute. reflexivity. Qed.

Example double_of_Z_values :
  List.map double_of_Z
    [9007199254740991; 9007199254740992; 9007199254740993; 9007199254740995;
     - 9007199254740995; 10 ^ 22; 10 ^ 23; 2 ^ 1024 - 2 ^ 970 - 1;
     2 ^ 1024 - 2 ^ 970; - 2 ^ 1024]
  = [Int 9007199254740991; Int 9007199254740992; Int 9007199254740992;
     Int 9007199254740996; Int (- 9007199254740996); Int (10 ^ 22);
     Int 99999999999999991611392; Int (2 ^ 1024 - 2 ^ 971);
     Infinity false; Infinity true].
Proof. vm_compute. reflexivity. Qed.

Example sums :
  List.map (fun n => js_add (VNum n) (VNum (Int 1)))
    [Int 15; Int (-5); Int 9007199254740991; Int 9007199254740992;
     Infinity false; NaN]
  = List.map VNum
      [Int 16; Int (-4); Int 9007199254740992; Int 9007199254740992;
       Infinity false; NaN].
Proof. vm_compute. reflexivity. Qed.

Example parseInt_rounds :
  List.map parseInt_string
    ["9007199254740993"; "-9007199254740993"; "100000000000000000000000"]
  = [Int 9007199254740992; Int (-9007199254740992);
     Int 99999999999999991611392].
Proof. vm_compute. reflexivity. Qed.

(** Every StrWhiteSpaceChar, in UTF-8, is trimmed on both sides; the next
    line character U+0085 and the zero-width space U+200B are not white
    space. *)
Example white_space :
  forallb (fun cp => String.eqb (trim (utf8_encode cp +:+ "12" +:+ utf8_encode cp))
                                "12")
          str_ws_code_points = true
  /\ List.map (fun cp => is_blank (utf8_encode cp)) [133; 8203]%N
     = [false; false]
  /\ isNaN_string (utf8_encode 160) = false
  /\ parseInt_string (utf8_encode 160 +:+ "12") = Int 12.
Proof. repeat split; vm_compute; reflexivity. Qed.

Example isNaN_values :
  List.map isNaN_string ["12"; " 12 "; "abc"; "12abc"; "0x1f"; "1e5"; "1e";
                         ".5"; "."; "-Infinity"; "-0x10"; " "; "latest"]
  = [false; false; true; true; false; false; true;
     false; true; false; true; false; true].
Proof. vm_compute. reflexivity. Qed.

Example JSON_parse_values :
  List.map JSON_parse_string ["[1,2,3]"; " [ 1 , -20 ,3 ] "; "null"; "0"; "01";
                              "1.50"; "1e2"; "[1,]"; "[]"; "tru"; "";
                              "[[[]]]"; "1 2"]
  = [Some (VArr [VNum (Int 1); VNum (Int 2); VNum (Int 3)]);
     Some (VArr [VNum (Int 1); VNum (Int (-20)); VNum (Int 3)]);
     Some VNull; Some (VNum (Int 0)); None;
     Some (VNum (Frac 15 1)); Some (VNum (Int 100)); None; Some (VArr []);
     None; None; Some (VArr [VArr [VArr []]]); None].
Proof. vm_compute. reflexivity. Qed.

Example JSON_parse_object :
  JSON_parse_string
    ("{" +:+ quote "a" +:+ ": 1, " +:+ quote "b" +:+ ":[true], "
         +:+ quote "a" +:+ ":null}")
  = Some (VObj [("a", VNull); ("b", VArr [VBool true])]).
Proof. vm_compute. reflexivity. Qed.

Example JSON_stringify_key :
  JSON_stringify (VArr [VNum (Int 120); VNum (Int (-3)); VStr "tcaq"])
  = "[120,-3," +:+ double_quoted "tcaq" +:+ "]".
Proof. vm_compute. reflexivity. Qed.

Example itemsPerPage_values :
  List.map itemsPerPage_of [VUndef; VStr ""; VStr "0"; VStr "abc"; VStr "20";
                            VNum (Int 0); VNum (Int 30); VStr "-5"]
  = List.map (fun n => VNum (Int n)) [15; 15; 15; 15; 20; 15; 30; -5].
Proof. vm_compute. reflexivity. Qed.

Example hash_checks :
  List.map H256_check
    [VStr "3a7bd3e2360a3d29eea436fcfb7e44c735d117c42d1c1835420b6b9942dd4f1b";
     VStr "0x3A7BD3E2360A3D29EEA436FCFB7E44C735D117C42D1C1835420B6B9942DD4F1B";
     VStr "3a7bd3e2360a3d29"; VStr "12"; VNum (Int 12)]
  = [true; true; false; false; false].
Proof. vm_compute. reflexivity. Qed.

Example H160_errors :
  List.map H160_error
    [VStr "gold"; VUndef; VArr [VStr Example.asset];
     VArr [VStr Example.asset; VStr Example.asset]]
  = [JsError ("Expected 20 byte hexstring for creating H160 but found "
                +:+ double_quoted "gold");
     JsError ("Expected 20 byte hexstring for creating H160 but found "
                +:+ double_quoted "undefined");
     TypeError;
     JsError ("Expected 20 byte hexstring for creating H160 but found "
                +:+ double_quoted (Example.asset +:+ "," +:+ Example.asset))].
Proof. vm_compute. reflexivity. Qed.

(** [next()] after [next(e)]: the function that follows is passed over;
    [next()] twice: the two functions that follow run in turn. *)
Example shared_index :
  let say (code : Z) : middleware := fun q => (q, [Send (Status code)]) in
  dispatch [(fun q => (q, [NextErr SyntaxError; Next])); say 1] ∅
  = [NextErr SyntaxError]
  /\ dispatch [(fun q => (q, [Next; Next])); say 1; say 2; say 3] ∅
     = [Send (Status 1); Send (Status 2)]
  /\ dispatch [(fun q => (q, [Next; Next]));
               (fun q => (q, [Send (Status 1); Next])); say 2; say 3] ∅
     = [Send (Status 1); Send (Status 2); Send (Status 3)].
Proof. cbv zeta. repeat split; vm_compute; reflexivity. Qed.

Example connection_errors :
  List.map is_connection_error
    ["connect ECONNREFUSED 127.0.0.1:8080"; "read ECONNRESET";
     "connect ETIMEDOUT 10.0.0.1:8080"; ""]
  = [true; true; false; false].
Proof. vm_compute. reflexivity. Qed.

(** The conflict test of [parseEvaluatedKey] looks at the decoded values: a
    cursor that decodes to [null] does not conflict with another one, and
    the request goes on to the validator. *)
Example null_cursor_passes_parsing :
  run parseEvaluatedKey
      (<[ "firstEvaluatedKey" := VStr "null" ]>
         {[ "lastEvaluatedKey" := VStr "[4,5,6]" ]})
  = (<[ "firstEvaluatedKey" := VNull ]>
       {[ "lastEvaluatedKey" :=
            VArr [VNum (Int 4); VNum (Int 5); VNum (Int 6)] ]},
     [Next]).
Proof. vm_compute. reflexivity. Qed.

Example conflicting_cursors :
  snd (run parseEvaluatedKey Example.both_cursors)
  = [NextErr (JsError conflict_message)].
Proof. vm_compute. reflexivity. Qed.

End Examples.

(** * The claims *)

Module Claims.

Import Primitives Express Middleware AssetRouter BlockRouter SpecModel Views JSFacts RouterFacts CursorFacts HandlerFacts
  SnapshotFacts.

(** C1. A request to a paginated query ([listUTXO], [listAggregateUTXO]
    or [snapshot]) that supplies both [firstEvaluatedKey] and
    [lastEvaluatedKey] ends with one error passed to [next] and nothing
    else: no sync, no storage call. The error is a ValidationError of
    section 7. When both cursors count in the conflict test of
    [parseEvaluatedKey] (the texts of any two JSON arrays do), it is raised
    by [parseEvaluatedKey] itself: the SyntaxError of [JSON.parse], or the
    conflict when both decode. When a cursor is empty or decodes to a falsy
    value, the conflict test does not fire and the request is refused by
    the validator, which admits well-formed keys only. *)
Theorem conflicting_cursor_rejected (context : Env) (op : Paginated) (q : Query) :
  param q "firstEvaluatedKey" <> VUndef ->
  param q "lastEvaluatedKey" <> VUndef ->
  validator_checks_cursors context
  \/ (decodes_truthy (param q "firstEvaluatedKey") = true
      /\ decodes_truthy (param q "lastEvaluatedKey") = true) ->
  exists e,
    dispatch (stack context op) q = [NextErr e]
    /\ ValidationError e
    /\ (forall first last,
          JSON_parse (param q "firstEvaluatedKey") = Some first ->
          JSON_parse (param q "lastEvaluatedKey") = Some last ->
          decodes_truthy (param q "firstEvaluatedKey") = true ->
          decodes_truthy (param q "lastEvaluatedKey") = true ->
          e = JsError conflict_message).
Proof.
  intros Hfirst Hlast Hwhy. rewrite paginated_dispatch.
  destruct (decode_key "firstEvaluatedKey" q) as [q1|] eqn:H1.
  2:{ exists SyntaxError. repeat split; [left; now left|].
      intros first last Hp1 _ Ht1 _. unfold decode_key in H1.
      apply decodes_truthy_spec in Ht1 as [Ht1 _]. now rewrite Ht1, Hp1 in H1. }
  assert (Hlast1 : param q1 "lastEvaluatedKey" = param q "lastEvaluatedKey")
    by now apply (decode_key_other "firstEvaluatedKey").
  destruct (decode_key "lastEvaluatedKey" q1) as [q2|] eqn:H2.
  2:{ exists SyntaxError. repeat split; [left; now left|].
      intros first last _ Hp2 _ Ht2. unfold decode_key in H2.
      apply decodes_truthy_spec in Ht2 as [Ht2 _].
      now rewrite Hlast1, Ht2, Hp2 in H2. }
  assert (Hfirst2 : param q2 "firstEvaluatedKey" = param q1 "firstEvaluatedKey")
    by now apply (decode_key_other "lastEvaluatedKey").
  assert (Hd1 : param q2 "firstEvaluatedKey" <> VUndef)
    by (rewrite Hfirst2; eauto using decode_key_defined).
  assert (Hd2 : param q2 "lastEvaluatedKey" <> VUndef)
    by (apply (decode_key_defined _ q1); [exact H2 | now rewrite Hlast1]).
  assert (Hdecoded :
    decodes_truthy (param q "firstEvaluatedKey") = true ->
    decodes_truthy (param q "lastEvaluatedKey") = true ->
    truthy (param q2 "lastEvaluatedKey")
    && truthy (param q2 "firstEvaluatedKey") = true).
  { intros Ht1 Ht2.
    apply decodes_truthy_spec in Ht1 as [Ht1 Hv1].
    apply decodes_truthy_spec in Ht2 as [Ht2 Hv2].
    unfold decode_key in H1, H2. rewrite Ht1 in H1. rewrite Hlast1, Ht2 in H2.
    destruct (JSON_parse (param q "firstEvaluatedKey")) as [d1|]; [|discriminate].
    destruct (JSON_parse (param q "lastEvaluatedKey")) as [d2|]; [|discriminate].
    simplify_eq.
    rewrite param_insert, param_insert_ne, param_insert by discriminate.
    now rewrite (Hv1 d1 eq_refl), (Hv2 d2 eq_refl). }
  destruct (truthy (param q2 "lastEvaluatedKey")
            && truthy (param q2 "firstEvaluatedKey")) eqn:Hboth.
  - exists (JsError conflict_message). repeat split. now right.
  - destruct Hwhy as [Hval | [Ht1 Ht2]];
      [|discriminate (Hdecoded Ht1 Ht2)].
    destruct (validate_query context (schemas_of op) q2) as [q3|detail] eqn:Hv.
    + destruct (Hval op q2 q3 Hv) as [Ha Hb].
      apply accepted_cursor_truthy in Ha, Hb; try assumption.
      now rewrite Ha, Hb in Hboth.
    + exists (ValidationFailure detail). repeat split; [left; right; eauto|].
      intros first last _ _ Ht1 Ht2. discriminate (Hdecoded Ht1 Ht2).
Qed.

(** Two array cursors at once on the UTXO listing of the example
    deployment: the conflict is raised, whatever the validator. *)
Lemma conflicting_cursor_rejected_witness :
  param Example.both_cursors "firstEvaluatedKey" <> VUndef
  /\ param Example.both_cursors "lastEvaluatedKey" <> VUndef
  /\ decodes_truthy (param Example.both_cursors "firstEvaluatedKey") = true
  /\ decodes_truthy (param Example.both_cursors "lastEvaluatedKey") = true
  /\ exists e,
       dispatch (stack Example.env listUTXO) Example.both_cursors = [NextErr e]
       /\ ValidationError e.
Proof.
  assert (H1 : param Example.both_cursors "firstEvaluatedKey" <> VUndef)
    by (vm_compute; discriminate).
  assert (H2 : param Example.both_cursors "lastEvaluatedKey" <> VUndef)
    by (vm_compute; discriminate).
  assert (H3 : decodes_truthy (param Example.both_cursors "firstEvaluatedKey")
               = true) by (vm_compute; reflexivity).
  assert (H4 : decodes_truthy (param Example.both_cursors "lastEvaluatedKey")
               = true) by (vm_compute; reflexivity).
  split; [exact H1|]. split; [exact H2|]. split; [exact H3|]. split; [exact H4|].
  destruct (conflicting_cursor_rejected Example.env listUTXO Example.both_cursors
              H1 H2 (or_intror (conj H3 H4))) as (e & He & Hv & _).
  exists e. now split.
Defined.

(** C2. The aggregate listing chooses its grouping order from the address
    filter alone: every [getAggsUTXO] call carries [order = "assetType"]
    when [address] is truthy (any non-empty string) and [order = "address"]
    otherwise (in particular when it is absent); the call is made as soon
    as the asset type is absent or well-formed; and two requests with the
    same [address] get the same order whatever else they carry and whatever
    the store holds. *)
Theorem aggregate_order_selection (context : Env) (q : Query) :
  (forall p,
      In (Call (UTXOModel_getAggsUTXO p))
         (events_of (run (aggs_utxo_handler context)) q) ->
      GetAggsUTXO.order p
      = if truthy (param q "address") then order_assetType else order_address)
  /\ (forall assetType,
      assetType_result (param q "assetType") = Returns assetType ->
      exists p rest,
        events_of (run (aggs_utxo_handler context)) q
        = Call (UTXOModel_getAggsUTXO p) :: rest)
  /\ (forall (context' : Env) (q' : Query) p p',
      param q' "address" = param q "address" ->
      In (Call (UTXOModel_getAggsUTXO p))
         (events_of (run (aggs_utxo_handler context)) q) ->
      In (Call (UTXOModel_getAggsUTXO p'))
         (events_of (run (aggs_utxo_handler context')) q') ->
      GetAggsUTXO.order p = GetAggsUTXO.order p')
  /\ (param q "address" = VUndef -> order_of (param q "address") = order_address)
  /\ (forall s, param q "address" = VStr s -> s <> "" ->
                order_of (param q "address") = order_assetType).
Proof.
  repeat split.
  - intros p Hp. apply aggs_utxo_handler_calls in Hp as [h ->]. reflexivity.
  - intros h Hh. unfold events_of. rewrite aggs_utxo_handler_run, Hh. simpl.
    unfold call_then_respond. eauto.
  - intros context' q' p p' Haddr Hp Hp'.
    apply aggs_utxo_handler_calls in Hp as [h ->].
    apply aggs_utxo_handler_calls in Hp' as [h' ->].
    simpl. now rewrite Haddr.
  - now intros ->.
  - intros s -> Hs. unfold order_of. simpl.
    destruct (String.eqb_spec s ""); [contradiction | reflexivity].
Qed.

(** C3 as stated does not hold for every page size: the limit is a sum of
    doubles. [itemsPerPage=9007199254740992] is kept as the page size, and
    the limit passed to [getUTXO] is the same [9007199254740992], not one
    more: no extra row is asked for. *)
Lemma over_fetch_rounding_counterexample :
  itemsPerPage_of (param Samples.huge_page "itemsPerPage")
  = VNum (Int 9007199254740992)
  /\ events_of (run (utxo_handler Example.env)) Samples.huge_page
     = [Call (UTXOModel_getUTXO
                {| GetUTXO.address := VUndef;
                   GetUTXO.assetType := None;
                   GetUTXO.shardId := VUndef;
                   GetUTXO.itemsPerPage := VNum (Int 9007199254740992);
                   GetUTXO.firstEvaluatedKey := VUndef;
                   GetUTXO.lastEvaluatedKey := VUndef;
                   GetUTXO.onlyConfirmed := VUndef;
                   GetUTXO.confirmThreshold := VUndef |});
        Send (Json (VObj [("data", VArr [])]))]
  /\ 9007199254740992 < 9007199254740992 + 1.
Proof. repeat split; vm_compute; reflexivity. Qed.

(** C3, as the code has it. With [size] the page size the handler settles
    on (the one it hands to [createPaginationResult]), a number that is
    never NaN, the [itemsPerPage] passed to [getUTXO] and to [getAggsUTXO]
    is the sum [size + 1] as JavaScript computes it, on doubles: one more
    than [size] when [size] is a safe integer, at most [2^53 - 1] in
    magnitude. The call is the first thing the handler does once the asset
    type is absent or well-formed. *)
Theorem over_fetch_limit (context : Env) (q : Query) :
  exists size : JS.number,
    itemsPerPage_of (param q "itemsPerPage") = VNum size
    /\ size <> NaN
    /\ (forall p,
          In (Call (UTXOModel_getUTXO p))
             (events_of (run (utxo_handler context)) q) ->
          GetUTXO.itemsPerPage p = VNum (num_add size (Int 1)))
    /\ (forall p,
          In (Call (UTXOModel_getAggsUTXO p))
             (events_of (run (aggs_utxo_handler context)) q) ->
          GetAggsUTXO.itemsPerPage p = VNum (num_add size (Int 1)))
    /\ (forall n,
          size = Int n -> Z.abs n <= MAX_SAFE_INTEGER ->
          num_add size (Int 1) = Int (n + 1))
    /\ (forall body,
          In (Send (Json body)) (events_of (run (utxo_handler context)) q) ->
          exists rows,
            body = createPaginationResult context
                     {| Pagination.query_firstEvaluatedKey := param q "firstEvaluatedKey";
                        Pagination.query_lastEvaluatedKey := param q "lastEvaluatedKey";
                        Pagination.rows := rows;
                        Pagination.getEvaluatedKey :=
                          Express.createUTXOEvaluatedKey context;
                        Pagination.itemsPerPage := VNum size |})
    /\ (forall assetType,
          assetType_result (param q "assetType") = Returns assetType ->
          exists p rest,
            events_of (run (utxo_handler context)) q
            = Call (UTXOModel_getUTXO p) :: rest
            /\ exists p' rest',
              events_of (run (aggs_utxo_handler context)) q
              = Call (UTXOModel_getAggsUTXO p') :: rest').
Proof.
  destruct (itemsPerPage_of_number (param q "itemsPerPage"))
    as (size & Hn & Hnan & _).
  exists size. split; [exact Hn|]. split; [exact Hnan|].
  split; [|split; [|split; [|split]]].
  - intros p Hp. apply utxo_handler_calls in Hp as [h ->]. simpl. now rewrite Hn.
  - intros p Hp. apply aggs_utxo_handler_calls in Hp as [h ->]. simpl.
    now rewrite Hn.
  - intros n -> Hsafe. now apply num_add_one.
  - intros body. unfold events_of. rewrite utxo_handler_run. simpl.
    destruct (assetType_result (param q "assetType")) as [h|e]; simpl.
    + intros [H | H]; [discriminate H|].
      destruct (getUTXO context (utxo_params q h)) as [rows|e]; simpl in H;
        destruct H as [H | []]; [|discriminate H].
      injection H as <-. exists rows. unfold utxo_page. now rewrite Hn.
    + intros [H | []]; discriminate H.
  - intros h Hh. unfold events_of.
    rewrite utxo_handler_run, aggs_utxo_handler_run, Hh. simpl.
    unfold call_then_respond. eauto 10.
Qed.

(** C4. A snapshot request that passes cursor parsing and validation, with
    a well-formed asset type and a valid date [t], when the store holds no
    block with [timestamp <= t]: the block lookup is the only call made and
    the response is [res.json(null)]; neither an error nor a page, and
    [getSnapshot] is not called. *)
Theorem snapshot_before_first_block (context : Env)
  (blocks : list BlockAttribute) (q q1 q2 : Query) (t : Z) :
  run parseEvaluatedKey q = (q1, [Next]) ->
  validate_query context (schemas_of snapshot) q1 = inl q2 ->
  H160_check (param q2 "assetType") = true ->
  moment_unix context (param q2 "date") = Some t ->
  getByTime context t = Returns (resolveBlockByTimestamp blocks t) ->
  (forall b, In b blocks -> t < timestamp b) ->
  dispatch (snapshot_route context) q
  = [Call (BlockModel_getByTime t); Send (Json VNull)].
Proof.
  intros Hp Hv Hasset Hdate Hstore Hnone.
  rewrite (snapshot_dispatch context q q1 q2 Hp Hv).
  unfold events_of. rewrite snapshot_handler_run. simpl.
  now rewrite Hasset, Hdate, Hstore, resolve_none.
Qed.

(** The example store starts in 2019; a snapshot as of 2018 is [null]. *)
Lemma snapshot_before_first_block_witness :
  dispatch (snapshot_route Example.env) Example.early_snapshot
  = [Call (BlockModel_getByTime 1514764800); Send (Json VNull)].
Proof.
  apply (snapshot_before_first_block Example.env [Example.first_block]
           Example.early_snapshot Example.early_snapshot Example.early_snapshot 1514764800).
  - vm_compute. reflexivity.
  - vm_compute. reflexivity.
  - vm_compute. reflexivity.
  - vm_compute. reflexivity.
  - reflexivity.
  - intros b [<- | []]. vm_compute. reflexivity.
Defined.

(** C5. A snapshot request that passes cursor parsing and validation and
    whose date is not valid ends with one error passed to [next], before
    any block lookup or storage call and without a second attempt; the
    error is InvalidDateParam when the asset type is well-formed (the asset
    type is checked first). *)
Theorem snapshot_invalid_date (context : Env) (q q1 q2 : Query) :
  run parseEvaluatedKey q = (q1, [Next]) ->
  validate_query context (schemas_of snapshot) q1 = inl q2 ->
  moment_unix context (param q2 "date") = None ->
  exists e,
    dispatch (snapshot_route context) q = [NextErr e]
    /\ (H160_check (param q2 "assetType") = true -> e = InvalidDateParam).
Proof.
  intros Hp Hv Hdate.
  rewrite (snapshot_dispatch context q q1 q2 Hp Hv).
  unfold events_of. rewrite snapshot_handler_run. simpl. rewrite Hdate.
  destruct (H160_check (param q2 "assetType")); eauto.
  eexists. split; [reflexivity | discriminate].
Qed.

(** A date the example date library does not know. *)
Lemma snapshot_invalid_date_witness :
  moment_unix Example.env (param Example.undated_snapshot "date") = None
  /\ dispatch (snapshot_route Example.env) Example.undated_snapshot
     = [NextErr InvalidDateParam].
Proof.
  split; [vm_compute; reflexivity|].
  destruct (snapshot_invalid_date Example.env Example.undated_snapshot
              Example.undated_snapshot Example.undated_snapshot) as (e & He & Hkind).
  - vm_compute. reflexivity.
  - vm_compute. reflexivity.
  - vm_compute. reflexivity.
  - rewrite He, Hkind; [reflexivity|]. vm_compute. reflexivity.
Defined.

(** C6 as stated does not hold for every way the sync dependency can be
    out of reach: a worker whose node does not answer in time fails with
    ETIMEDOUT, which is not a connection error to [syncIfNeeded]; the
    request does not get the 503 but ends with that error passed to
    [next], as any other error. *)
Lemma sync_timeout_counterexample :
  sync Samples.unreachable = Some "connect ETIMEDOUT 10.0.0.1:8080"
  /\ is_connection_error "connect ETIMEDOUT 10.0.0.1:8080" = false
  /\ dispatch (utxo_route Samples.unreachable) Example.synced_listing
     = [Call worker_sync;
        NextErr (JsError "connect ETIMEDOUT 10.0.0.1:8080")].
Proof. repeat split; vm_compute; reflexivity. Qed.

(** C6, as the code has it. A request with [sync === true] whose
    [worker.sync()] fails: the worker is called once; when the message of
    the error contains ECONNRESET or ECONNREFUSED the response is the bare
    status 503 and [next] is never called; otherwise the error is passed
    to [next], as any error is. Either way none of the functions after
    [syncIfNeeded] runs, so the query is not executed. *)
Theorem sync_unavailable (context : Env) (rest : list middleware) (q : Query)
  (message : string) :
  param q "sync" = VBool true ->
  sync context = Some message ->
  dispatch (run (syncIfNeeded context) :: rest) q
  = Call worker_sync ::
      (if is_connection_error message
       then [Send (Status SERVICE_UNAVAILABLE)]
       else [NextErr (JsError message)]).
Proof.
  intros Hq Hs. destruct (is_connection_error message) eqn:Hm.
  - now apply (sync_connection_failure context rest q message).
  - now apply sync_other_failure.
Qed.

(** The example worker is refused by its node: the listing answers 503. *)
Lemma sync_unavailable_witness :
  dispatch (run (syncIfNeeded Example.env)
              :: [run (utxo_handler Example.env)]) Example.synced_listing
  = [Call worker_sync; Send (Status 503)].
Proof.
  rewrite (sync_unavailable Example.env [run (utxo_handler Example.env)]
             Example.synced_listing "connect ECONNREFUSED 127.0.0.1:8080").
  - vm_compute. reflexivity.
  - vm_compute. reflexivity.
  - reflexivity.
Defined.

(** C7. The router forwards [onlyConfirmed] as it is and
    [confirmThreshold] parsed as an integer; with [onlyConfirmed] true the
    ceiling is [H - confirmThreshold] and an output created at block [b] is
    eligible exactly when [b <= H - confirmThreshold]: at [H = 100] and
    threshold 10, block 91 is out and block 90 is in; with [onlyConfirmed]
    false or absent there is no ceiling. *)
Theorem confirmation_ceiling (context : Env) (q : Query) (H t b : Z) :
  (forall p,
      In (Call (UTXOModel_getUTXO p)) (events_of (run (utxo_handler context)) q) ->
      GetUTXO.onlyConfirmed p = param q "onlyConfirmed"
      /\ GetUTXO.confirmThreshold p = and_parseInt (param q "confirmThreshold"))
  /\ (forall p,
      In (Call (UTXOModel_getAggsUTXO p))
         (events_of (run (aggs_utxo_handler context)) q) ->
      GetAggsUTXO.onlyConfirmed p = param q "onlyConfirmed"
      /\ GetAggsUTXO.confirmThreshold p
         = and_parseInt (param q "confirmThreshold"))
  /\ and_parseInt (VStr "10") = VNum (Int 10)
  /\ confirmationCeiling H (VBool true) t = Some (H - t)
  /\ (eligible (confirmationCeiling H (VBool true) t) b = true <-> b <= H - t)
  /\ eligible (confirmationCeiling 100 (VBool true) 10) 91 = false
  /\ eligible (confirmationCeiling 100 (VBool true) 10) 90 = true
  /\ eligible (confirmationCeiling H (VBool false) t) b = true
  /\ eligible (confirmationCeiling H VUndef t) b = true.
Proof.
  split; [|split; [|split; [|split; [|split]]]].
  - intros p Hp. apply utxo_handler_calls in Hp as [h ->]. now split.
  - intros p Hp. apply aggs_utxo_handler_calls in Hp as [h ->]. now split.
  - reflexivity.
  - reflexivity.
  - simpl. apply Z.leb_le.
  - now repeat split.
Qed.

(** C8. The cursor codec. Decoding ([JSON.parse], as [parseEvaluatedKey]
    applies it to either cursor of a request) what [createUTXOEvaluatedKey]
    or [createAggsUTXOEvaluatedKey] encoded gives back the SortKey of the
    row, so rows with the same cursor have the same SortKey. A request
    whose only cursor is not valid JSON, or does not decode to a key of the
    arity of its query shape, ends with one MalformedCursor error passed to
    [next], the validator admitting well-formed keys only. *)
Theorem cursor_codec_round_trip :
  (forall r : UnspentOutput,
      JSON_parse (VStr (createUTXOEvaluatedKey r)) = Some (VArr (sortKey r))
      /\ run parseEvaluatedKey
           (with_cursor "lastEvaluatedKey" (createUTXOEvaluatedKey r))
         = ({[ "lastEvaluatedKey" := VArr (sortKey r) ]}, [Next])
      /\ run parseEvaluatedKey
           (with_cursor "firstEvaluatedKey" (createUTXOEvaluatedKey r))
         = ({[ "firstEvaluatedKey" := VArr (sortKey r) ]}, [Next]))
  /\ (forall (order : Order) (r : AggregateRow),
      JSON_parse (VStr (createAggsUTXOEvaluatedKey r order))
      = Some (VArr (aggsSortKey order r))
      /\ run parseEvaluatedKey
           (with_cursor "lastEvaluatedKey" (createAggsUTXOEvaluatedKey r order))
         = ({[ "lastEvaluatedKey" := VArr (aggsSortKey order r) ]}, [Next])
      /\ run parseEvaluatedKey
           (with_cursor "firstEvaluatedKey" (createAggsUTXOEvaluatedKey r order))
         = ({[ "firstEvaluatedKey" := VArr (aggsSortKey order r) ]}, [Next]))
  /\ (forall r r' : UnspentOutput,
      createUTXOEvaluatedKey r = createUTXOEvaluatedKey r' ->
      sortKey r = sortKey r')
  /\ (forall (order : Order) (r r' : AggregateRow),
      createAggsUTXOEvaluatedKey r order = createAggsUTXOEvaluatedKey r' order ->
      aggsSortKey order r = aggsSortKey order r')
  /\ (forall (context : Env) (op : Paginated) (q : Query) (k other s : string),
      validator_checks_cursors context ->
      (k = "firstEvaluatedKey" /\ other = "lastEvaluatedKey"
       \/ k = "lastEvaluatedKey" /\ other = "firstEvaluatedKey") ->
      param q k = VStr s ->
      param q other = VUndef ->
      (forall v, JSON_parse_string s = Some v ->
                 well_formed_cursor (arity op) v = false) ->
      exists e, dispatch (stack context op) q = [NextErr e]
                /\ MalformedCursor e).
Proof.
  assert (Hrt : forall key, forallb is_key_entry key = true ->
                JSON_parse (VStr (JSON_stringify (VArr key))) = Some (VArr key))
    by (intros key Hkey; now apply JSON_parse_stringify_key).
  assert (Hinj : forall key key',
             forallb is_key_entry key = true ->
             forallb is_key_entry key' = true ->
             JSON_stringify (VArr key) = JSON_stringify (VArr key') ->
             key = key').
  { intros key key' Hk Hk' E. apply Hrt in Hk, Hk'. rewrite E in Hk. congruence. }
  repeat split.
  - apply Hrt, sortKey_entries.
  - apply parse_last_cursor, sortKey_entries.
  - apply parse_first_cursor, sortKey_entries.
  - apply Hrt, aggsSortKey_entries.
  - apply parse_last_cursor, aggsSortKey_entries.
  - apply parse_first_cursor, aggsSortKey_entries.
  - intros r r'. apply Hinj; apply sortKey_entries.
  - intros order r r'. apply Hinj; apply aggsSortKey_entries.
  - intros context op q k other s Hval [[-> ->] | [-> ->]];
      eauto using malformed_first_cursor, malformed_last_cursor.
Qed.

(** A cursor of one entry on the UTXO listing, whose keys have three. *)
Lemma cursor_codec_round_trip_witness :
  JSON_parse (VStr "[1]") = Some (VArr [VNum (Int 1)])
  /\ well_formed_cursor (arity listUTXO) (VArr [VNum (Int 1)]) = false
  /\ exists e,
       dispatch (stack Example.env listUTXO) Example.short_cursor = [NextErr e]
       /\ MalformedCursor e.
Proof.
  split; [vm_compute; reflexivity|]. split; [reflexivity|].
  destruct cursor_codec_round_trip as (_ & _ & _ & _ & Hbad).
  apply (Hbad Example.env listUTXO Example.short_cursor
           "lastEvaluatedKey" "firstEvaluatedKey" "[1]").
  - exact example_validator_checks_cursors.
  - right. now split.
  - vm_compute. reflexivity.
  - vm_compute. reflexivity.
  - intros v Hv. vm_compute in Hv. injection Hv as <-. reflexivity.
Defined.

(** C9 as stated does not hold for every identifier that is neither a hash
    nor a number: [isNaN] takes [Infinity] and blank text for numbers,
    [parseInt] finds no digit in them, and the store is asked for the
    block whose number is NaN. *)
Lemma block_lookup_counterexample :
  H256_check (VStr "Infinity") = false
  /\ dispatch (block_route Example.env "Infinity") ∅
     = [Call (BlockModel_getByNumber NaN); Send (Json VNull)]
  /\ H256_check (VStr " ") = false
  /\ dispatch (block_route Example.env " ") ∅
     = [Call (BlockModel_getByNumber NaN); Send (Json VNull)].
Proof. repeat split; vm_compute; reflexivity. Qed.

(** C9, as the code has it. GET /block/:hashOrNumber with an identifier
    that [new H256] rejects and that is NaN as a number, to [isNaN]: no
    block lookup, no error, the response is [res.json(null)], the same
    body as for a well-formed hash or a number that the store does not
    hold. Every other identifier that [new H256] rejects is looked up by
    number, with what [parseInt] reads in it. *)
Theorem block_malformed_identifier (context : Env) (hashOrNumber : string)
  (q : Query) :
  H256_check (VStr hashOrNumber) = false ->
  isNaN_string hashOrNumber = true ->
  dispatch (block_route context hashOrNumber) q = [Send (Json VNull)]
  /\ (forall known : string,
        H256_check (VStr known) = true ->
        getByHash context (mkH256 known) = Returns None ->
        dispatch (block_route context known) q
        = [Call (BlockModel_getByHash (mkH256 known)); Send (Json VNull)])
  /\ (forall numeric : string,
        H256_check (VStr numeric) = false ->
        isNaN_string numeric = false ->
        getByNumber context (parseInt (VStr numeric)) = Returns None ->
        dispatch (block_route context numeric) q
        = [Call (BlockModel_getByNumber (parseInt (VStr numeric)));
           Send (Json VNull)])
  /\ (forall other : string,
        H256_check (VStr other) = false ->
        isNaN_string other = false ->
        exists answer,
          dispatch (block_route context other) q
          = [Call (BlockModel_getByNumber (parseInt (VStr other))); answer]).
Proof.
  intros Hhash Hnan. split; [|split; [|split]].
  - apply dispatch_last with (q' := q); [|repeat constructor; discriminate].
    now rewrite block_handler_run, Hhash, Hnan.
  - intros known Hk Hmiss.
    apply dispatch_last with (q' := q); [|repeat constructor; discriminate].
    rewrite block_handler_run, Hk. unfold call_then_respond. now rewrite Hmiss.
  - intros numeric Hk Hnum Hmiss.
    apply dispatch_last with (q' := q); [|repeat constructor; discriminate].
    rewrite block_handler_run, Hk, Hnum. unfold call_then_respond.
    now rewrite Hmiss.
  - intros other Hk Hnum.
    assert (E : dispatch (block_route context other) q
                = call_then_respond
                    (BlockModel_getByNumber (parseInt (VStr other)))
                    (getByNumber context (parseInt (VStr other)))
                    block_body).
    { apply dispatch_last with (q' := q).
      - now rewrite block_handler_run, Hk, Hnum.
      - unfold call_then_respond.
        destruct (getByNumber context _); repeat constructor; discriminate. }
    rewrite E. unfold call_then_respond.
    destruct (getByNumber context _); eauto.
Qed.

(** An identifier that is neither a hash nor a number. *)
Lemma block_malformed_identifier_witness :
  H256_check (VStr "latest-block") = false
  /\ isNaN_string "latest-block" = true
  /\ dispatch (BlockRouter.block_route Example.env "latest-block") ∅
     = [Send (Json VNull)].
Proof.
  split; [vm_compute; reflexivity|]. split; [vm_compute; reflexivity|].
  apply (block_malformed_identifier Example.env "latest-block" ∅);
    vm_compute; reflexivity.
Defined.

(** C10 as stated does not hold: [itemsPerPage=-5] is parsed, is truthy,
    and is kept; the limit passed to [getUTXO] is [-4]. *)
Lemma negative_page_size_counterexample :
  itemsPerPage_of (param Example.negative_page "itemsPerPage") = VNum (Int (-5))
  /\ events_of (run (utxo_handler Example.env)) Example.negative_page
     = [Call (UTXOModel_getUTXO
                {| GetUTXO.address := VUndef;
                   GetUTXO.assetType := None;
                   GetUTXO.shardId := VUndef;
                   GetUTXO.itemsPerPage := VNum (Int (-4));
                   GetUTXO.firstEvaluatedKey := VUndef;
                   GetUTXO.lastEvaluatedKey := VUndef;
                   GetUTXO.onlyConfirmed := VUndef;
                   GetUTXO.confirmThreshold := VUndef |});
        Send (Json (VObj [("data", VArr [])]))]
  /\ -4 < 1.
Proof. repeat split; vm_compute; reflexivity. Qed.

(** C10, as the code has it. An absent [itemsPerPage], and one whose text
    [parseInt] reads as NaN or as zero, becomes 15, and the requested limit
    16. A text that [parseInt] reads as another number is kept as parsed,
    whatever its sign, and so is a number that is a safe integer other than
    zero. The page size is always a number and never zero. When it is a
    safe integer [n] that is positive, the limit is [n + 1], at least 2. *)
Theorem page_size_default (v : value) :
  (v = VUndef -> itemsPerPage_of v = VNum (Int 15))
  /\ (forall s,
        v = VStr s ->
        parseInt_string s = NaN \/ parseInt_string s = Int 0 ->
        itemsPerPage_of v = VNum (Int 15))
  /\ (forall s,
        v = VStr s ->
        parseInt_string s <> NaN -> parseInt_string s <> Int 0 ->
        itemsPerPage_of v = VNum (parseInt_string s))
  /\ (forall n,
        v = VNum (Int n) -> Z.abs n <= MAX_SAFE_INTEGER ->
        itemsPerPage_of v = VNum (Int (if n =? 0 then 15 else n)))
  /\ js_add (VNum (Int 15)) (VNum (Int 1)) = VNum (Int 16)
  /\ (exists size,
        itemsPerPage_of v = VNum size /\ size <> NaN /\ size <> Int 0)
  /\ (forall n,
        itemsPerPage_of v = VNum (Int n) ->
        1 <= n <= MAX_SAFE_INTEGER ->
        js_add (itemsPerPage_of v) (VNum (Int 1)) = VNum (Int (n + 1))
        /\ 2 <= n + 1).
Proof.
  split; [now intros ->|].
  split; [|split; [|split; [|split; [reflexivity|split]]]].
  - intros s -> Hs.
    destruct (itemsPerPage_of_cases (VStr s)) as [[E _] | (_ & _ & Hn & Hz)];
      [exact E|].
    unfold parseInt in Hn, Hz. cbn [ToString] in Hn, Hz.
    destruct Hs; contradiction.
  - intros s -> Hn Hz.
    destruct (itemsPerPage_of_cases (VStr s)) as [[_ Hwhy] | (E & _)];
      [|exact E].
    unfold parseInt in Hwhy. cbn [ToString] in Hwhy.
    destruct Hwhy as [Ht | [Hp | Hp]]; [|contradiction..].
    cbn [truthy] in Ht. apply negb_false_iff, String.eqb_eq in Ht.
    subst s. now destruct Hn.
  - intros n -> Hsafe.
    unfold itemsPerPage_of, and_parseInt, js_or, js_and.
    rewrite parseInt_number by exact Hsafe. cbn [truthy num_is_zero].
    destruct (Z.eqb_spec n 0) as [-> | Hn]; cbn [negb truthy num_is_zero];
      [reflexivity|].
    now destruct (Z.eqb_spec n 0).
  - apply itemsPerPage_of_number.
  - intros n E Hn. rewrite E. split; [|lia].
    cbn [js_add ToPrimitive ToNumber_nonstring]. f_equal.
    apply num_add_one. lia.
Qed.

End Claims.

(** * Beyond the claims: the middlewares *)

Module MiddlewareFacts.

Import Primitives Express Middleware AssetRouter BlockRouter Views JSFacts RouterFacts CursorFacts.

#[local] Arguments String.append : simpl nomatch.

Lemma decode_key_frame (k k' : string) (q q1 : Query) :
  k <> k' -> decode_key k q = Some q1 -> q1 !! k' = q !! k'.
Proof.
  unfold decode_key. intros Hk H.
  destruct (truthy (param q k)); [|now simplify_eq].
  destruct (JSON_parse (param q k)); simplify_eq.
  now apply lookup_insert_ne.
Qed.

Lemma decode_key_falsy (k : string) (q : Query) :
  truthy (param q k) = false -> decode_key k q = Some q.
Proof. unfold decode_key. now intros ->. Qed.

Lemma decode_key_truthy (k : string) (q q1 : Query) :
  truthy (param q k) = true -> decode_key k q = Some q1 ->
  JSON_parse (param q k) = Some (param q1 k).
Proof.
  unfold decode_key. intros -> H.
  destruct (JSON_parse (param q k)); simplify_eq.
  now rewrite param_insert.
Qed.

Lemma strictly_true_spec (v : value) : strictly_true v = true <-> v = VBool true.
Proof.
  split; [|now intros ->].
  destruct v as [| |[]| | | |]; simpl; intros H; now try discriminate H.
Qed.

Lemma prefix_spec (p s : string) :
  String.prefix p s = true <-> exists b, s = p +:+ b.
Proof.
  revert s. induction p as [|c p IH]; intros s.
  - split; [eauto | now destruct s].
  - destruct s as [|d s]; simpl;
      [split; [discriminate | intros [b H]; discriminate H]|].
    destruct (ascii_dec c d) as [<- | Hne].
    + rewrite IH. split; intros [b H]; exists b; [now rewrite H | now injection H].
    + split; [discriminate | intros [b H]; injection H as E _; now destruct Hne].
Qed.

(** [contains] finds the pattern wherever it starts. *)
Lemma contains_spec (p s : string) :
  contains p s = true <-> exists a b, s = a +:+ p +:+ b.
Proof.
  induction s as [|c s IH].
  - cbn [contains]. rewrite orb_false_r, prefix_spec. split.
    + intros [b H]. now exists "", b.
    + intros (a & b & H). destruct a as [|x a]; [eauto | discriminate H].
  - cbn [contains]. rewrite orb_true_iff, prefix_spec, IH. split.
    + intros [[b H] | (a & b & H)].
      * now exists "", b.
      * exists (String c a), b. simpl. now rewrite H.
    + intros (a & b & H). destruct a as [|x a].
      * left. now exists b.
      * right. injection H as _ H. eauto.
Qed.

End MiddlewareFacts.

(** * Beyond the claims: the final handlers of the stacks *)

Module ListingFacts.

Import Primitives Express Middleware AssetRouter BlockRouter Views JSFacts RouterFacts CursorFacts HandlerFacts SnapshotFacts Shapes MiddlewareFacts.

Lemma aggs_utxo_count_handler_run (context : Env) (q : Query) :
  run (aggs_utxo_count_handler context) q
  = (q, match assetType_result (param q "assetType") with
        | Throws e => [NextErr e]
        | Returns assetType =>
            call_then_respond
              (UTXOModel_getCountOfAggsUTXO (count_params q assetType))
              (getCountOfAggsUTXO context (count_params q assetType))
              (fun count => count)
        end).
Proof.
  unfold aggs_utxo_count_handler, call_then_respond. unfold_M.
  rewrite assetType_of_run.
  destruct (assetType_result (param q "assetType")) as [h|e]; [|reflexivity].
  fold (count_params q h).
  destruct (getCountOfAggsUTXO context (count_params q h)); reflexivity.
Qed.

Lemma assetType_result_malformed (v : value) :
  truthy v = true -> H160_check v = false ->
  assetType_result v = Throws (H160_error v).
Proof. unfold assetType_result. now intros -> ->. Qed.

(** What [new H160] throws for a text that is no hash, and for an array
    that holds one hash. *)
Lemma H160_error_text (s : string) :
  is_hex_string 40 s = false ->
  H160_error (VStr s)
  = JsError ("Expected 20 byte hexstring for creating H160 but found "
               +:+ double_quoted s).
Proof. unfold H160_error. cbn [ToString]. now intros ->. Qed.

Lemma H160_error_array (h : string) :
  is_hex_string 40 h = true -> H160_error (VArr [VStr h]) = TypeError.
Proof. unfold H160_error. cbn. now intros ->. Qed.

Lemma assetType_result_text (s : string) :
  s <> "" -> is_hex_string 40 s = false ->
  assetType_result (VStr s)
  = Throws (JsError ("Expected 20 byte hexstring for creating H160 but found "
                       +:+ double_quoted s)).
Proof.
  intros Hs Hc. rewrite assetType_result_malformed, H160_error_text; auto.
  cbn [truthy]. now destruct (String.eqb_spec s "").
Qed.

Lemma assetType_result_array (h : string) :
  is_hex_string 40 h = true ->
  assetType_result (VArr [VStr h]) = Throws TypeError.
Proof.
  intros Hc. rewrite assetType_result_malformed, H160_error_array; auto.
Qed.

Lemma call_then_respond_answers_once {A} (c : call) (outcome : result A)
  (body : A -> value) :
  answers_once (call_then_respond c outcome body) = true.
Proof. now destruct outcome. Qed.

Lemma utxo_handler_answers_once (context : Env) (q : Query) :
  answers_once (events_of (run (utxo_handler context)) q) = true.
Proof.
  unfold events_of. rewrite utxo_handler_run. cbn [snd].
  destruct (assetType_result _);
    [apply call_then_respond_answers_once | reflexivity].
Qed.

Lemma aggs_utxo_handler_answers_once (context : Env) (q : Query) :
  answers_once (events_of (run (aggs_utxo_handler context)) q) = true.
Proof.
  unfold events_of. rewrite aggs_utxo_handler_run. cbn [snd].
  destruct (assetType_result _);
    [apply call_then_respond_answers_once | reflexivity].
Qed.

Lemma count_handler_answers_once (context : Env) (q : Query) :
  answers_once (events_of (run (aggs_utxo_count_handler context)) q) = true.
Proof.
  unfold events_of. rewrite aggs_utxo_count_handler_run. cbn [snd].
  destruct (assetType_result _);
    [apply call_then_respond_answers_once | reflexivity].
Qed.

Lemma snapshot_handler_answers_once (context : Env) (q : Query) :
  answers_once (events_of (run (snapshot_handler context)) q) = true.
Proof.
  unfold events_of. rewrite snapshot_handler_run. cbn [snd].
  destruct (H160_check _); [|reflexivity].
  destruct (moment_unix _ _) as [t|]; [|reflexivity].
  destruct (getByTime context t) as [[b|]|e]; try reflexivity.
  cbn [answers_once is_call andb]. unfold call_then_respond.
  now destruct (getSnapshot context (snapshot_params q b)).
Qed.

Lemma block_handler_answers_once (context : Env) (hashOrNumber : string)
  (q : Query) :
  answers_once (events_of (run (block_handler context hashOrNumber)) q) = true.
Proof.
  unfold events_of. rewrite block_handler_run. cbn [snd].
  destruct (H256_check _); [apply call_then_respond_answers_once|].
  destruct (isNaN_string _);
    [reflexivity | apply call_then_respond_answers_once].
Qed.

Lemma answers_once_no_next (evs : list event) :
  answers_once evs = true -> Forall (fun ev => ev <> Next) evs.
Proof.
  induction evs as [|ev [|ev' evs] IH]; [discriminate| |].
  - intros H. constructor; [|constructor]. now destruct ev.
  - intros H. cbn [answers_once] in H. apply andb_prop in H as [Hc H].
    constructor; [now destruct ev | now apply IH].
Qed.

Lemma answers_once_one (evs : list event) :
  answers_once evs = true -> answers evs = 1%nat.
Proof.
  unfold answers.
  induction evs as [|ev [|ev' evs] IH]; [discriminate| |].
  - now destruct ev.
  - intros H. cbn [answers_once] in H. apply andb_prop in H as [Hc H].
    specialize (IH H). destruct ev; try discriminate Hc. exact IH.
Qed.

(** The last function of a stack, when it answers. *)
Lemma dispatch_final (body : M unit) (q : Query) :
  answers_once (events_of (run body) q) = true ->
  dispatch [run body] q = events_of (run body) q.
Proof.
  intros H. unfold events_of in *.
  destruct (run body q) as [q' evs] eqn:E. cbn [snd] in *.
  apply dispatch_last with (q' := q'); [exact E|].
  now apply answers_once_no_next.
Qed.

Lemma sync_then (context : Env) (body : M unit) (q : Query) :
  answers_once (events_of (run body) q) = true ->
  dispatch [run (syncIfNeeded context); run body] q
  = after_sync context q (events_of (run body) q).
Proof.
  intros Hb. apply dispatch_final in Hb. unfold after_sync.
  destruct (strictly_true (param q "sync")) eqn:Hs.
  - apply strictly_true_spec in Hs.
    destruct (sync context) as [message|] eqn:Hw.
    + destruct (is_connection_error message) eqn:Hm.
      * now apply (sync_connection_failure context _ q message).
      * now apply sync_other_failure.
    + now rewrite sync_success, Hb by assumption.
  - now rewrite sync_not_requested by exact Hs.
Qed.

Lemma answers_after_sync (context : Env) (q : Query) (handled : list event) :
  answers handled = 1%nat -> answers (after_sync context q handled) = 1%nat.
Proof.
  intros H1. unfold after_sync.
  destruct (strictly_true (param q "sync")); [|exact H1].
  destruct (sync context) as [message|]; [|exact H1].
  now destruct (is_connection_error message).
Qed.

Lemma answers_synced (context : Env) (body : M unit) (q : Query) :
  answers_once (events_of (run body) q) = true ->
  answers (dispatch [run (syncIfNeeded context); run body] q) = 1%nat.
Proof.
  intros Hb. rewrite sync_then by exact Hb.
  apply answers_after_sync, answers_once_one, Hb.
Qed.

Lemma answers_paginated (context : Env) (op : SpecModel.Paginated) (q : Query) :
  (forall q3, answers (dispatch (after_validation context op) q3) = 1%nat) ->
  answers (dispatch (SpecModel.stack context op) q) = 1%nat.
Proof.
  intros Hafter. rewrite paginated_dispatch.
  destruct (decode_key "firstEvaluatedKey" q) as [q1|]; [|reflexivity].
  destruct (decode_key "lastEvaluatedKey" q1) as [q2|]; [|reflexivity].
  destruct (truthy _ && truthy _); [reflexivity|].
  destruct (validate_query context (SpecModel.schemas_of op) q2) as [q3|detail];
    [apply Hafter | reflexivity].
Qed.

(** The worker is called at most once, and first. *)
Lemma after_sync_calls (context : Env) (q : Query) (handled : list event) :
  ~ In (Call worker_sync) handled ->
  after_sync context q handled = handled
  \/ exists rest, after_sync context q handled = Call worker_sync :: rest
                  /\ ~ In (Call worker_sync) rest.
Proof.
  intros Hno. unfold after_sync.
  destruct (strictly_true (param q "sync")); [|now left].
  right. destruct (sync context) as [message|]; [|eauto].
  destruct (is_connection_error message); eexists; (split; [reflexivity|]);
    intros [H | []]; discriminate H.
Qed.

Lemma snapshot_handler_no_sync (context : Env) (q : Query) :
  ~ In (Call worker_sync) (events_of (run (snapshot_handler context)) q).
Proof.
  unfold events_of. rewrite snapshot_handler_run. cbn [snd].
  destruct (H160_check _); [|intros [H | []]; discriminate H].
  destruct (moment_unix _ _) as [t|]; [|intros [H | []]; discriminate H].
  unfold call_then_respond.
  destruct (getByTime context t) as [[b|]|e].
  - destruct (getSnapshot context _);
      intros [H | [H | [H | []]]]; discriminate H.
  - intros [H | [H | []]]; discriminate H.
  - intros [H | [H | []]]; discriminate H.
Qed.

Lemma block_handler_no_sync (context : Env) (h : string) (q : Query) :
  ~ In (Call worker_sync) (events_of (run (block_handler context h)) q).
Proof.
  unfold events_of. rewrite block_handler_run. cbn [snd].
  unfold call_then_respond.
  destruct (H256_check _).
  - destruct (getByHash context _); intros [H | [H | []]]; discriminate H.
  - destruct (isNaN_string _); [intros [H | []]; discriminate H|].
    destruct (getByNumber context _); intros [H | [H | []]]; discriminate H.
Qed.

End ListingFacts.

(** * Beyond the claims: decimal text *)

Module DecimalTextFacts.

Import Primitives Express Middleware AssetRouter BlockRouter Views JSFacts HandlerFacts Shapes.

#[local] Arguments String.append : simpl nomatch.

Lemma all_chars_append (p : ascii -> bool) (a b : string) :
  all_chars p (a +:+ b) = all_chars p a && all_chars p b.
Proof.
  induction a as [|c a IH]; simpl; [reflexivity|].
  now rewrite IH, andb_assoc.
Qed.

Lemma all_chars_impl (p p' : ascii -> bool) (s : string) :
  (forall c, p c = true -> p' c = true) ->
  all_chars p s = true -> all_chars p' s = true.
Proof.
  intros Himp. induction s as [|c s IH]; simpl; [reflexivity|].
  intros H. apply andb_prop in H as [Hc Hs]. now rewrite (Himp c Hc), IH.
Qed.

Lemma digit_is_hex (c : ascii) : is_digit c = true -> is_hex_digit c = true.
Proof.
  destruct c as [[] [] [] [] [] [] [] []]; intros H;
    try discriminate H; reflexivity.
Qed.

Lemma digit_not_ws (c : ascii) :
  is_digit c = true -> (N_of_ascii c <? 128)%N && negb (is_str_ws c) = true.
Proof.
  destruct c as [[] [] [] [] [] [] [] []]; intros H;
    try discriminate H; reflexivity.
Qed.

Lemma digit_not_x (c : ascii) :
  is_digit c = true -> negb (Ascii.eqb c "x") = true.
Proof.
  destruct c as [[] [] [] [] [] [] [] []]; intros H;
    try discriminate H; reflexivity.
Qed.

Lemma printed_all_digits (d : uint) :
  all_chars is_digit (NilEmpty.string_of_uint d) = true.
Proof. induction d; simpl; auto. Qed.

(** The decimal text of an integer: digits after an optional minus sign. *)
Lemma string_of_Z_shape (z : Z) :
  exists digits,
    all_chars is_digit digits = true /\ digits <> ""
    /\ string_of_Z z = (if z <? 0 then String "-" digits else digits).
Proof.
  unfold string_of_Z. destruct z as [|p|p]; simpl.
  - now exists "0".
  - exists (NilEmpty.string_of_uint (Pos.to_uint p)).
    rewrite string_of_uint_nonnil by apply Unsigned.to_uint_nonnil.
    split; [apply printed_all_digits|]. split; [|reflexivity].
    pose proof (Unsigned.to_uint_nonnil p) as Hn.
    destruct (Pos.to_uint p); try discriminate. now destruct Hn.
  - exists (NilEmpty.string_of_uint (Pos.to_uint p)).
    rewrite string_of_uint_nonnil by apply Unsigned.to_uint_nonnil.
    split; [apply printed_all_digits|]. split; [|reflexivity].
    pose proof (Unsigned.to_uint_nonnil p) as Hn.
    destruct (Pos.to_uint p); try discriminate. now destruct Hn.
Qed.

(** The characters of decimal text, with or without a fraction. *)
Lemma decimal_chars (p : ascii -> bool) (z : Z) (rest : string) :
  (forall c, is_digit c = true -> p c = true) ->
  p "-"%char = true -> p "."%char = true ->
  fraction_or_end rest ->
  all_chars p (string_of_Z z +:+ rest) = true.
Proof.
  intros Hp Hminus Hdot Hrest. rewrite all_chars_append.
  apply andb_true_intro. split.
  - destruct (string_of_Z_shape z) as (digits & Hd & _ & ->).
    apply (all_chars_impl _ _ _ Hp) in Hd.
    destruct (z <? 0); [simpl; now rewrite Hminus, Hd | exact Hd].
  - destruct Hrest as [-> | (f & -> & Hf)]; [reflexivity|]. simpl.
    rewrite Hdot. now apply (all_chars_impl _ _ _ Hp).
Qed.

(** No [0x] prefix to strip when the second character is not an [x]. *)
Lemma no_0x_prefix (c x : ascii) (r : string) :
  Ascii.eqb x "x" = false ->
  match String c (String x r) with
  | String "0" (String "x" r') => r'
  | _ => String c (String x r)
  end = String c (String x r).
Proof.
  intros Hx.
  destruct c as [[] [] [] [] [] [] [] []]; try reflexivity.
  destruct x as [[] [] [] [] [] [] [] []]; try reflexivity.
  discriminate Hx.
Qed.

Lemma is_hex_string_body (n : nat) (s : string) :
  match s with
  | String _ (String x _) => Ascii.eqb x "x"
  | _ => false
  end = false ->
  is_hex_string n s = (String.length s =? n)%nat && all_chars is_hex_digit s.
Proof.
  intros Hx. unfold is_hex_string.
  destruct s as [|c [|x r]].
  - reflexivity.
  - destruct c as [[] [] [] [] [] [] [] []]; reflexivity.
  - now rewrite no_0x_prefix.
Qed.

Lemma decimal_no_0x (z : Z) (rest : string) :
  fraction_or_end rest ->
  match string_of_Z z +:+ rest with
  | String _ (String x _) => Ascii.eqb x "x"
  | _ => false
  end = false.
Proof.
  intros Hrest.
  pose proof (decimal_chars (fun c => negb (Ascii.eqb c "x")) z rest) as H.
  destruct (string_of_Z z +:+ rest) as [|c [|x r]]; try reflexivity.
  simpl in H. apply negb_true_iff.
  assert (Hall : negb (Ascii.eqb c "x") && (negb (Ascii.eqb x "x")
                   && all_chars (fun c => negb (Ascii.eqb c "x")) r) = true)
    by (apply H; auto using digit_not_x).
  apply andb_prop in Hall as [_ Hall]. now apply andb_prop in Hall as [Hx _].
Qed.

Lemma trim_left_no_ws (s : string) :
  no_white_space s = true -> trim_left s = s.
Proof.
  destruct s as [|c s]; [reflexivity|]. unfold no_white_space.
  cbn [all_chars]. intros H. apply andb_prop in H as [Hc _].
  apply andb_prop in Hc as [Ha Hw]. apply negb_true_iff in Hw.
  now apply trim_left_head.
Qed.

Lemma trim_right_no_ws (s : string) :
  no_white_space s = true -> trim_right s = s.
Proof.
  unfold no_white_space. induction s as [|c s IH]; [reflexivity|].
  cbn [all_chars]. intros H. apply andb_prop in H as [Hc Hs].
  apply andb_prop in Hc as [Ha Hw]. apply negb_true_iff in Hw.
  cbn [trim_right]. now rewrite is_blank_head, IH.
Qed.

Lemma trim_no_ws (s : string) : no_white_space s = true -> trim s = s.
Proof.
  intros H. unfold trim.
  now rewrite trim_left_no_ws, trim_right_no_ws.
Qed.

Lemma read_digits_all_digits (s : string) :
  all_chars is_digit s = true -> exists d, read_digits s = (d, "").
Proof.
  induction s as [|c s IH]; simpl; [eauto|].
  intros H. apply andb_prop in H as [Hc Hs].
  destruct (IH Hs) as [d Hd]. rewrite Hd.
  unfold is_digit in Hc. destruct (digit_of c) as [f|]; [eauto | discriminate Hc].
Qed.

Lemma read_digits_digits (s rest : string) :
  all_chars is_digit s = true -> no_digit_ahead rest ->
  exists d, read_digits (s +:+ rest) = (d, rest) /\ (s <> "" -> d <> Nil).
Proof.
  intros Hs Hrest. induction s as [|c s IH]; simpl.
  - exists Nil. split; [now apply read_digits_no_digit | congruence].
  - simpl in Hs. apply andb_prop in Hs as [Hc Hs].
    destruct (IH Hs) as (d & Hd & _). rewrite Hd.
    unfold is_digit in Hc.
    destruct c as [[] [] [] [] [] [] [] []]; try discriminate Hc;
      simpl; eexists; (split; [reflexivity | discriminate]).
Qed.

Lemma fraction_no_digit_ahead (rest : string) :
  fraction_or_end rest -> no_digit_ahead rest.
Proof. now intros [-> | (f & -> & _)]. Qed.

(** The integer and the fraction of a decimal literal. *)
Lemma is_unsigned_decimal_digits (digits rest : string) :
  all_chars is_digit digits = true -> digits <> "" ->
  fraction_or_end rest ->
  is_unsigned_decimal (digits +:+ rest) = true.
Proof.
  intros Hd Hne Hrest. unfold is_unsigned_decimal.
  destruct (String.eqb (digits +:+ rest) "Infinity"); [reflexivity|].
  destruct (read_digits_digits digits rest Hd) as (d & -> & Hnil);
    [now apply fraction_no_digit_ahead|].
  specialize (Hnil Hne).
  destruct Hrest as [-> | (f & -> & Hf)].
  - destruct d; try reflexivity. now destruct Hnil.
  - destruct (read_digits_all_digits f Hf) as [fd ->].
    destruct d; try reflexivity. now destruct Hnil.
Qed.

Lemma is_numeric_literal_digits (digits rest : string) :
  all_chars is_digit digits = true -> digits <> "" ->
  fraction_or_end rest ->
  is_numeric_literal (digits +:+ rest) = true.
Proof.
  intros Hd Hne Hrest.
  rewrite <- (is_unsigned_decimal_digits digits rest Hd Hne Hrest).
  destruct digits as [|c digits]; [now destruct Hne|].
  simpl in Hd. apply andb_prop in Hd as [Hc Hd]. simpl.
  destruct c as [[] [] [] [] [] [] [] []]; try discriminate Hc;
    try reflexivity.
  destruct digits as [|x digits]; simpl.
  - destruct Hrest as [-> | (f & -> & _)]; reflexivity.
  - simpl in Hd. apply andb_prop in Hd as [Hx _].
    destruct x as [[] [] [] [] [] [] [] []]; try discriminate Hx; reflexivity.
Qed.

(** Decimal text, with or without a fraction, is a number to [isNaN]. *)
Lemma decimal_is_not_NaN (z : Z) (rest : string) :
  fraction_or_end rest ->
  isNaN_string (string_of_Z z +:+ rest) = false.
Proof.
  intros Hrest. unfold isNaN_string.
  rewrite trim_no_ws by (apply decimal_chars; auto using digit_not_ws).
  destruct (string_of_Z_shape z) as (digits & Hd & Hne & ->).
  assert (Hlit : is_numeric_literal (digits +:+ rest) = true)
    by now apply is_numeric_literal_digits.
  destruct (z <? 0).
  - change (String "-" digits +:+ rest) with (String "-" (digits +:+ rest)).
    change (is_numeric_literal (String "-" (digits +:+ rest)))
      with (is_unsigned_decimal (digits +:+ rest)).
    rewrite is_unsigned_decimal_digits by assumption.
    now rewrite orb_true_r.
  - now rewrite Hlit, orb_true_r.
Qed.

(** Decimal text is a hash only if it has 64 digits and no sign. *)
Lemma H256_check_decimal (z : Z) :
  H256_check (VStr (string_of_Z z))
  = (0 <=? z) && (String.length (string_of_Z z) =? 64)%nat.
Proof.
  cbn [H256_check].
  pose proof (decimal_no_0x z "" (or_introl eq_refl)) as Hx.
  rewrite append_empty in Hx. rewrite is_hex_string_body by exact Hx.
  destruct (string_of_Z_shape z) as (digits & Hd & Hne & E).
  rewrite andb_comm. destruct (Z.ltb_spec z 0) as [Hneg | Hpos].
  - replace (0 <=? z) with false by (symmetry; apply Z.leb_gt; lia).
    now rewrite E.
  - replace (0 <=? z) with true by (symmetry; apply Z.leb_le; lia).
    now rewrite E, (all_chars_impl _ _ _ digit_is_hex Hd).
Qed.

Lemma H256_check_fraction (z : Z) (fraction : string) :
  all_chars is_digit fraction = true ->
  H256_check (VStr (string_of_Z z +:+ String "." fraction)) = false.
Proof.
  intros Hf. cbn [H256_check].
  rewrite is_hex_string_body by (apply decimal_no_0x; right; eauto).
  rewrite all_chars_append. simpl. now rewrite !andb_false_r.
Qed.

(** Blank text: nothing is left of it once trimmed, and it is no hash. *)
Lemma blank_trim_left (s : string) :
  all_chars is_str_ws s = true -> trim_left s = "".
Proof.
  induction s as [|c s IH]; [reflexivity|]. simpl.
  intros H. apply andb_prop in H as [-> Hs]. now apply IH.
Qed.

Lemma blank_not_hex (s : string) :
  all_chars is_str_ws s = true -> is_hex_string 64 s = false.
Proof.
  intros Hs. rewrite is_hex_string_body.
  - destruct s as [|c s]; [reflexivity|].
    simpl in Hs. apply andb_prop in Hs as [Hc _].
    cbn [all_chars].
    destruct c as [[] [] [] [] [] [] [] []]; try discriminate Hc;
      now rewrite andb_false_r.
  - destruct s as [|c [|x r]]; try reflexivity.
    simpl in Hs. apply andb_prop in Hs as [_ Hs].
    apply andb_prop in Hs as [Hx _].
    destruct x as [[] [] [] [] [] [] [] []]; try discriminate Hx; reflexivity.
Qed.

End DecimalTextFacts.

(** * Beyond the claims: objects *)

Module ObjectFacts.

Import Primitives Express AssetRouter Views Shapes.

Lemma member_obj_set (k : string) (v : value) (fields : list (string * value)) :
  member k (obj_set k v fields) = Some v.
Proof.
  unfold member. induction fields as [|[k' v'] fields IH]; simpl.
  - now rewrite String.eqb_refl.
  - destruct (String.eqb_spec k k') as [<- | Hne]; simpl.
    + now rewrite String.eqb_refl.
    + destruct (String.eqb_spec k' k); [congruence | exact IH].
Qed.

Lemma member_obj_set_ne (k k' : string) (v : value)
  (fields : list (string * value)) :
  k <> k' -> member k' (obj_set k v fields) = member k' fields.
Proof.
  intros Hne. unfold member.
  induction fields as [|[k0 v0] fields IH]; simpl.
  - now destruct (String.eqb_spec k k').
  - destruct (String.eqb_spec k k0) as [<- | Hk]; simpl.
    + now destruct (String.eqb_spec k k').
    + destruct (String.eqb_spec k0 k'); [reflexivity | exact IH].
Qed.

Lemma member_app (k : string) (l l' : list (string * value)) :
  member k (l ++ l')
  = match member k l with
    | Some v => Some v
    | None => member k l'
    end.
Proof.
  unfold member. induction l as [|kv l IH]; simpl; [reflexivity|].
  now destruct (String.eqb (fst kv) k).
Qed.

Lemma obj_set_keys (k k' : string) (v : value)
  (fields : list (string * value)) :
  In k' (List.map fst (obj_set k v fields)) ->
  k' = k \/ In k' (List.map fst fields).
Proof.
  induction fields as [|[k0 v0] fields IH]; simpl.
  - intros [<- | []]. now left.
  - destruct (String.eqb_spec k k0) as [<- | _]; simpl.
    + intros [<- | H]; auto.
    + intros [<- | H]; auto. destruct (IH H); auto.
Qed.

(** Setting a member keeps every key once. *)
Lemma obj_set_keys_NoDup (k : string) (v : value)
  (fields : list (string * value)) :
  List.NoDup (List.map fst fields) ->
  List.NoDup (List.map fst (obj_set k v fields)).
Proof.
  induction fields as [|[k0 v0] fields IH]; simpl; intros Hnd.
  - constructor; [now intros [] | constructor].
  - apply List.NoDup_cons_iff in Hnd as [Hk0 Hnd].
    destruct (String.eqb_spec k k0) as [<- | Hne]; simpl.
    + now constructor.
    + constructor; [|now apply IH].
      intros Hin. apply obj_set_keys in Hin as [E | Hin]; [|now apply Hk0].
      now destruct Hne.
Qed.

(** [{ ...base, ...extra }]: the members of [extra] win, the last one
    first. *)
Lemma member_spread (k : string) (base extra : list (string * value)) :
  member k (spread base extra)
  = match member k (rev extra) with
    | Some v => Some v
    | None => member k base
    end.
Proof.
  unfold spread. revert base.
  induction extra as [|[k0 v0] extra IH]; intros base; [reflexivity|].
  cbn [fold_left fst snd rev]. rewrite IH, member_app.
  destruct (member k (rev extra)); [reflexivity|].
  assert (Hone : member k [(k0, v0)] = if String.eqb k0 k then Some v0 else None)
    by (unfold member; simpl; now destruct (String.eqb k0 k)).
  rewrite Hone. destruct (String.eqb_spec k0 k) as [-> | Hne].
  - apply member_obj_set.
  - now apply member_obj_set_ne.
Qed.

Lemma spread_keys_NoDup (base extra : list (string * value)) :
  List.NoDup (List.map fst base) ->
  List.NoDup (List.map fst (spread base extra)).
Proof.
  unfold spread. revert base.
  induction extra as [|[k0 v0] extra IH]; intros base Hnd; [exact Hnd|].
  cbn [fold_left fst snd]. now apply IH, obj_set_keys_NoDup.
Qed.

End ObjectFacts.

(** * Beyond the claims: the other routes *)

Module RouteFacts.

Import Primitives Express Views RouterFacts Shapes.
Import Paths Effects AssetSchemeRouter BlockRoutes.

Ltac unfold_Handler :=
  unfold effects, try_catch, new_H160, next_err, res_json, res_status_send,
    res_writeHead, res_end, emit, await, throw, mbind, mret, Handler_bind,
    Handler_ret in *.

Lemma asset_scheme_handler_effects (models : Models) (params : Query) :
  effects (asset_scheme_handler models params)
  = let v := param params "assetType" in
    if H160_check v then
      Calls (AssetSchemeModel_getByAssetType (mkH160 (ToString v))) ::
        match scheme_getByAssetType models (mkH160 (ToString v)) with
        | Returns (Some scheme) => [Replies (Body (Json scheme))]
        | Returns None => [Replies (Body (Json VNull))]
        | Throws e => [Fails (Exn e)]
        end
    else [Fails (Exn (AssetRouter.H160_error v))].
Proof.
  unfold asset_scheme_handler. unfold_Handler. cbv zeta.
  destruct (H160_check (param params "assetType")); [|reflexivity].
  destruct (scheme_getByAssetType models _) as [[scheme|]|e]; reflexivity.
Qed.

Lemma asset_image_handler_effects (models : Models) (params : Query) :
  effects (asset_image_handler models params)
  = let v := param params "assetType" in
    if H160_check v then
      Calls (AssetImageModel_getByAssetType (mkH160 (ToString v))) ::
        match image_getByAssetType models (mkH160 (ToString v)) with
        | Returns (Some image) =>
            [Replies (WriteHead 200
               [("Content-Type", VStr "image/png");
                ("Content-Length", VNum (Int (Z.of_nat (length image))))]);
             Replies (EndWith image)]
        | Returns None => [Replies (StatusSend 404 "Not found")]
        | Throws e => [Fails (Exn e)]
        end
    else [Fails (Exn (AssetRouter.H160_error v))].
Proof.
  unfold asset_image_handler. unfold_Handler. cbv zeta.
  destruct (H160_check (param params "assetType")); [|reflexivity].
  destruct (image_getByAssetType models _) as [[image|]|e]; reflexivity.
Qed.

Lemma latest_handler_effects (models : Models) :
  effects (latest_handler models)
  = Calls BlockModel_getLatestBlock ::
      match getLatestBlock models with
      | Returns inst => [Replies (Body (Json (block_body inst)))]
      | Throws e => [Fails (Exn e)]
      end.
Proof.
  unfold latest_handler, block_body. unfold_Handler.
  destruct (getLatestBlock models) as [[b|]|e]; reflexivity.
Qed.

Lemma blocks_handler_effects (models : Models) (q : Query) :
  effects (blocks_handler models q)
  = let p := {| GetBlocks.address := param q "address";
                GetBlocks.page := AssetRouter.and_parseInt (param q "page");
                GetBlocks.itemsPerPage :=
                  AssetRouter.and_parseInt (param q "itemsPerPage") |} in
    Calls (BlockModel_getBlocks p) ::
      match getBlocks models p with
      | Returns blocks => [Replies (Body (Json (VArr (List.map plain blocks))))]
      | Throws e => [Fails (Exn e)]
      end.
Proof.
  unfold blocks_handler. unfold_Handler. cbv zeta.
  destruct (getBlocks models _); reflexivity.
Qed.

Lemma compiled_routes :
  compile "/block/latest" = [Literal "block"; Literal "latest"]
  /\ compile "/block/:hashOrNumber" = [Literal "block"; Named "hashOrNumber"]
  /\ compile "/block" = [Literal "block"]
  /\ compile "/block/count" = [Literal "block"; Literal "count"].
Proof. now repeat split. Qed.

(** A path that the count route matches is matched by the parameter route
    registered before it. *)
Lemma count_route_is_shadowed (o : options) (request_path : string) :
  match_path o "/block/:hashOrNumber" request_path = None ->
  match_path o "/block/count" request_path = None.
Proof.
  unfold match_path.
  destruct compiled_routes as (_ & -> & _ & ->).
  destruct (split_on "/" request_path) as [|s segments]; [reflexivity|].
  destruct (String.eqb s ""); [|reflexivity].
  destruct (if strict o then segments else drop_trailing_slash segments)
    as [|a [|b [|c rest]]]; cbn [match_segments]; try reflexivity.
  - now destruct (same_text o "block" a).
  - destruct (same_text o "block" a); [|reflexivity].
    destruct (String.eqb_spec b "") as [-> | _]; [|discriminate].
    intros _. now destruct o as [[] ?].
  - destruct (same_text o "block" a); [|reflexivity].
    now destruct (same_text o "count" b).
Qed.

Lemma flat_map_settled (effs rest : list effect) :
  Forall settled effs ->
  List.flat_map (fun ef => match ef with
                           | Continues => rest
                           | _ => [ef]
                           end) effs = effs.
Proof.
  induction 1 as [|ef effs [Hc _] _ IH]; [reflexivity|].
  simpl. rewrite IH. now destruct ef.
Qed.

Lemma settled_not_NotImplmeneted (effs : list effect) :
  Forall settled effs -> ~ In (Fails NotImplmeneted) effs.
Proof.
  induction 1 as [|ef effs [_ Hn] _ IH]; [now intros []|].
  intros [E | Hin]; [now destruct Hn | now apply IH].
Qed.

Lemma block_handler_settled (context : Env) (hashOrNumber : string) (q : Query) :
  Forall settled
    (List.map lift
       (snd (run (BlockRouter.block_handler context hashOrNumber) q))).
Proof.
  rewrite block_handler_run. cbn [snd]. unfold call_then_respond, settled.
  destruct (H256_check _).
  - destruct (getByHash context _); repeat constructor; discriminate.
  - destruct (isNaN_string _); [repeat constructor; discriminate|].
    destruct (getByNumber context _); repeat constructor; discriminate.
Qed.

Lemma latest_handler_settled (models : Models) :
  Forall settled (effects (latest_handler models)).
Proof.
  rewrite latest_handler_effects. unfold settled.
  destruct (getLatestBlock models); repeat constructor; discriminate.
Qed.

Lemma blocks_handler_settled (models : Models) (q : Query) :
  Forall settled (effects (blocks_handler models q)).
Proof.
  rewrite blocks_handler_effects. cbv zeta. unfold settled.
  destruct (getBlocks models _); repeat constructor; discriminate.
Qed.

End RouteFacts.

(** * Properties of the code beyond the claims *)

Module Properties.

Import Primitives Express Middleware AssetRouter BlockRouter Views JSFacts RouterFacts CursorFacts HandlerFacts SnapshotFacts.
Import Shapes MiddlewareFacts ListingFacts DecimalTextFacts ObjectFacts.

#[local] Arguments String.append : simpl nomatch.

(** X1. [parseEvaluatedKey] calls [next] exactly once and does nothing
    else: it goes on with [next()], or it passes to [next] the SyntaxError
    of [JSON.parse] or the conflict error. It never answers the request
    and never calls the store or the worker. *)
Theorem parseEvaluatedKey_calls_next_once (q : Query) :
  exists q',
    run parseEvaluatedKey q = (q', [Next])
    \/ run parseEvaluatedKey q = (q', [NextErr SyntaxError])
    \/ run parseEvaluatedKey q = (q', [NextErr (JsError conflict_message)]).
Proof.
  rewrite parseEvaluatedKey_run.
  destruct (decode_key "firstEvaluatedKey" q) as [q1|]; [|eauto].
  destruct (decode_key "lastEvaluatedKey" q1) as [q2|]; [|eauto].
  destruct (truthy _); eauto.
Qed.

(** X2. [parseEvaluatedKey] writes to [req.query.firstEvaluatedKey] and
    [req.query.lastEvaluatedKey] only: every other key of the query is as
    it was, bound or not, whether the middleware goes on or fails. When
    neither cursor is truthy (absent or empty) the query is not touched at
    all and the request goes on. *)
Theorem parseEvaluatedKey_keeps_other_keys (q q' : Query) (evs : list event) :
  run parseEvaluatedKey q = (q', evs) ->
  (forall k, k <> "firstEvaluatedKey" -> k <> "lastEvaluatedKey" ->
             q' !! k = q !! k)
  /\ (truthy (param q "firstEvaluatedKey") = false ->
      truthy (param q "lastEvaluatedKey") = false ->
      q' = q /\ evs = [Next]).
Proof.
  rewrite parseEvaluatedKey_run. intros Hrun. split.
  - intros k Hf Hl.
    destruct (decode_key "firstEvaluatedKey" q) as [q1|] eqn:H1;
      [|now simplify_eq].
    assert (E1 : q1 !! k = q !! k)
      by (apply (decode_key_frame "firstEvaluatedKey"); [congruence | exact H1]).
    destruct (decode_key "lastEvaluatedKey" q1) as [q2|] eqn:H2;
      [|now simplify_eq].
    assert (E2 : q2 !! k = q1 !! k)
      by (apply (decode_key_frame "lastEvaluatedKey"); [congruence | exact H2]).
    simplify_eq. congruence.
  - intros Hf Hl.
    rewrite (decode_key_falsy _ _ Hf), (decode_key_falsy _ _ Hl) in Hrun.
    rewrite truthy_js_and, Hf, Hl in Hrun. now simplify_eq.
Qed.

(** A second page asked for by its owner: the cursor is decoded, the
    address is left alone. *)
Lemma parseEvaluatedKey_keeps_other_keys_witness :
  run parseEvaluatedKey Samples.second_page
  = (Samples.second_page_decoded, [Next])
  /\ Samples.second_page_decoded !! "address" = Samples.second_page !! "address".
Proof.
  assert (Hrun : run parseEvaluatedKey Samples.second_page
                 = (Samples.second_page_decoded, [Next]))
    by (vm_compute; reflexivity).
  split; [exact Hrun|].
  destruct (parseEvaluatedKey_keeps_other_keys _ _ _ Hrun) as [Hframe _].
  apply Hframe; discriminate.
Defined.

(** X3. When [parseEvaluatedKey] goes on with [next()], each cursor that
    was truthy in the request has been replaced by what [JSON.parse] made
    of it, each cursor that was not is as it was, and the two cursors are
    not both truthy: the handlers behind it never see a pair of cursors. *)
Theorem parseEvaluatedKey_decodes (q q' : Query) :
  run parseEvaluatedKey q = (q', [Next]) ->
  truthy (param q' "lastEvaluatedKey") && truthy (param q' "firstEvaluatedKey")
  = false
  /\ forall k, k = "firstEvaluatedKey" \/ k = "lastEvaluatedKey" ->
       if truthy (param q k)
       then JSON_parse (param q k) = Some (param q' k)
       else q' !! k = q !! k.
Proof.
  rewrite parseEvaluatedKey_run. intros Hrun.
  destruct (decode_key "firstEvaluatedKey" q) as [q1|] eqn:H1;
    [|discriminate Hrun].
  destruct (decode_key "lastEvaluatedKey" q1) as [q2|] eqn:H2;
    [|discriminate Hrun].
  rewrite truthy_js_and in Hrun.
  destruct (truthy (param q2 "lastEvaluatedKey")
            && truthy (param q2 "firstEvaluatedKey")) eqn:Hboth;
    [discriminate Hrun|].
  injection Hrun as <-. split; [exact Hboth|].
  assert (Hl1 : q1 !! "lastEvaluatedKey" = q !! "lastEvaluatedKey")
    by now apply (decode_key_frame "firstEvaluatedKey").
  assert (Hf2 : q2 !! "firstEvaluatedKey" = q1 !! "firstEvaluatedKey")
    by now apply (decode_key_frame "lastEvaluatedKey").
  assert (Pl1 : param q1 "lastEvaluatedKey" = param q "lastEvaluatedKey")
    by (unfold param; now rewrite Hl1).
  assert (Pf2 : param q2 "firstEvaluatedKey" = param q1 "firstEvaluatedKey")
    by (unfold param; now rewrite Hf2).
  intros k [-> | ->].
  - destruct (truthy (param q "firstEvaluatedKey")) eqn:Ht.
    + rewrite Pf2. now apply decode_key_truthy.
    + rewrite (decode_key_falsy _ _ Ht) in H1. now simplify_eq.
  - destruct (truthy (param q "lastEvaluatedKey")) eqn:Ht.
    + rewrite <- Pl1. apply decode_key_truthy; [now rewrite Pl1 | exact H2].
    + rewrite <- Pl1 in Ht. rewrite (decode_key_falsy _ _ Ht) in H2.
      now simplify_eq.
Qed.

(** The cursor of the second page, as text and decoded. *)
Lemma parseEvaluatedKey_decodes_witness :
  run parseEvaluatedKey Samples.second_page
  = (Samples.second_page_decoded, [Next])
  /\ JSON_parse (VStr "[4,5,6]")
     = Some (param Samples.second_page_decoded "lastEvaluatedKey").
Proof.
  assert (Hrun : run parseEvaluatedKey Samples.second_page
                 = (Samples.second_page_decoded, [Next]))
    by (vm_compute; reflexivity).
  split; [exact Hrun|].
  destruct (parseEvaluatedKey_decodes _ _ Hrun) as [_ Hdecoded].
  exact (Hdecoded "lastEvaluatedKey" (or_intror eq_refl)).
Defined.

(** X4. [syncIfNeeded] calls the worker exactly when [req.query.sync] is
    the boolean [true]: with anything else, the text of [true] included, it
    only calls [next()]. It never writes to [req.query]. *)
Theorem sync_only_when_strictly_true (context : Env) (q : Query) :
  fst (run (syncIfNeeded context) q) = q
  /\ (In (Call worker_sync) (events_of (run (syncIfNeeded context)) q)
      <-> param q "sync" = VBool true)
  /\ (param q "sync" <> VBool true ->
      events_of (run (syncIfNeeded context)) q = [Next])
  /\ (param q "sync" = VStr "true" ->
      events_of (run (syncIfNeeded context)) q = [Next]).
Proof.
  unfold events_of. rewrite syncIfNeeded_run. simpl.
  split; [reflexivity|].
  rewrite <- strictly_true_spec.
  destruct (strictly_true (param q "sync")) eqn:Hs.
  - split; [split; [reflexivity | intros _; now left]|].
    split; [now intros [] | intros E; now rewrite E in Hs].
  - split; [split; [intros [H | []]; discriminate H | discriminate]|].
    now split.
Qed.

(** X5. With [sync === true], what [syncIfNeeded] does to the stack it is
    in: the worker is called first; when the sync succeeds the rest of the
    stack runs; when it fails on its connection the answer is 503; when it
    fails otherwise the error is passed to [next]. After a failure of
    either kind the rest of the stack does not run: in the second case the
    [catch] block does not return, so the middleware calls [next()] after
    [next(e)], but the route has by then moved past the functions left. *)
Theorem sync_outcomes (context : Env) (rest : list middleware) (q : Query) :
  param q "sync" = VBool true ->
  dispatch (run (syncIfNeeded context) :: rest) q
  = Call worker_sync ::
      match sync context with
      | None => dispatch rest q
      | Some message =>
          if is_connection_error message
          then [Send (Status SERVICE_UNAVAILABLE)]
          else [NextErr (JsError message)]
      end
  /\ (forall message,
        sync context = Some message ->
        is_connection_error message = false ->
        events_of (run (syncIfNeeded context)) q
        = [Call worker_sync; NextErr (JsError message); Next]).
Proof.
  intros Hq. split.
  - destruct (sync context) as [message|] eqn:Hs.
    + destruct (is_connection_error message) eqn:Hm.
      * now apply (sync_connection_failure context rest q message).
      * now apply sync_other_failure.
    + now apply sync_success.
  - intros message Hs Hm. unfold events_of.
    now rewrite syncIfNeeded_run, Hq, Hs, Hm.
Qed.

(** A worker whose socket hangs up: the error goes to the error handler,
    and the listing is not computed. *)
Lemma sync_outcomes_witness :
  dispatch [run (syncIfNeeded Samples.flaky); run (utxo_handler Samples.flaky)]
    Example.synced_listing
  = [Call worker_sync; NextErr (JsError "socket hang up")].
Proof.
  destruct (sync_outcomes Samples.flaky [run (utxo_handler Samples.flaky)]
              Example.synced_listing) as [H _]; [vm_compute; reflexivity|].
  rewrite H. reflexivity.
Defined.

(** X6. The test [error.message.search(/ECONNRESET|ECONNREFUSED/) >= 0]
    holds exactly for the messages that contain one of the two codes,
    wherever it stands in the message, in upper case. *)
Theorem connection_error_is_substring (message : string) :
  is_connection_error message = true
  <-> exists before after,
        message = before +:+ "ECONNRESET" +:+ after
        \/ message = before +:+ "ECONNREFUSED" +:+ after.
Proof.
  unfold is_connection_error. rewrite orb_true_iff, !contains_spec. split.
  - intros [(a & b & H) | (a & b & H)]; exists a, b; auto.
  - intros (a & b & [H | H]); eauto.
Qed.

(** X7. On [/utxo], [/aggs-utxo] and [/aggs-utxo/count], an [assetType]
    that is given and that [new H160] rejects ends the request with what
    [new H160] throws passed to [next]: the store is not called and
    nothing is sent. For a text that is no hash it is the Error that
    quotes the text; for an array that holds one hash, which passes the
    test of the constructor, it is the TypeError of calling [startsWith]
    on an array. *)
Theorem listing_rejects_malformed_asset_type (context : Env) (q : Query) :
  (forall s,
      param q "assetType" = VStr s -> s <> "" -> is_hex_string 40 s = false ->
      let e := JsError ("Expected 20 byte hexstring for creating H160 but found "
                          +:+ double_quoted s) in
      events_of (run (utxo_handler context)) q = [NextErr e]
      /\ events_of (run (aggs_utxo_handler context)) q = [NextErr e]
      /\ events_of (run (aggs_utxo_count_handler context)) q = [NextErr e])
  /\ (forall h,
      param q "assetType" = VArr [VStr h] -> is_hex_string 40 h = true ->
      events_of (run (utxo_handler context)) q = [NextErr TypeError]
      /\ events_of (run (aggs_utxo_handler context)) q = [NextErr TypeError]
      /\ events_of (run (aggs_utxo_count_handler context)) q
         = [NextErr TypeError]).
Proof.
  unfold events_of.
  rewrite utxo_handler_run, aggs_utxo_handler_run, aggs_utxo_count_handler_run.
  split.
  - intros s E Hs Hc. cbv zeta. rewrite E.
    rewrite (assetType_result_text s Hs Hc). now repeat split.
  - intros h E Hc. rewrite E.
    rewrite (assetType_result_array h Hc). now repeat split.
Qed.

(** An asset type that is not twenty bytes of hexadecimal. *)
Lemma listing_rejects_malformed_asset_type_witness :
  events_of (run (utxo_handler Example.env)) Samples.unknown_asset
  = [NextErr (JsError ("Expected 20 byte hexstring for creating H160 but found "
                         +:+ double_quoted "gold"))].
Proof.
  destruct (listing_rejects_malformed_asset_type Example.env
              Samples.unknown_asset) as [Htext _].
  destruct (Htext "gold") as [H _];
    [vm_compute; reflexivity | discriminate | vm_compute; reflexivity|].
  exact H.
Defined.

(** X8. Each final handler of the stacks ([/utxo], [/aggs-utxo],
    [/aggs-utxo/count], [/snapshot], [/block/:hashOrNumber]) makes its
    calls to the models and then answers exactly once, with a response or
    with an error passed to [next]; it never calls [next()] and does
    nothing after its answer. *)
Theorem final_handlers_answer_once (context : Env) (q : Query)
  (hashOrNumber : string) :
  answers_once (events_of (run (utxo_handler context)) q) = true
  /\ answers_once (events_of (run (aggs_utxo_handler context)) q) = true
  /\ answers_once (events_of (run (aggs_utxo_count_handler context)) q) = true
  /\ answers_once (events_of (run (snapshot_handler context)) q) = true
  /\ answers_once (events_of (run (block_handler context hashOrNumber)) q) = true.
Proof.
  split; [apply utxo_handler_answers_once|].
  split; [apply aggs_utxo_handler_answers_once|].
  split; [apply count_handler_answers_once|].
  split; [apply snapshot_handler_answers_once|].
  apply block_handler_answers_once.
Qed.

(** X9. The count of [/aggs-utxo/count] depends on [address], [assetType],
    [shardId], [onlyConfirmed] and [confirmThreshold] only: two requests
    that agree on these five get the same call to the store and the same
    answer, whatever page size or cursors they carry. *)
Theorem count_ignores_pagination (context : Env) (q q' : Query) :
  (forall k, In k ["address"; "assetType"; "shardId"; "onlyConfirmed";
                   "confirmThreshold"] -> param q' k = param q k) ->
  events_of (run (aggs_utxo_count_handler context)) q'
  = events_of (run (aggs_utxo_count_handler context)) q.
Proof.
  intros Hsame. unfold events_of. rewrite !aggs_utxo_count_handler_run.
  cbn [snd]. unfold count_params.
  rewrite !Hsame by (simpl; auto 10). reflexivity.
Qed.

(** The same owner, with and without a page size. *)
Lemma count_ignores_pagination_witness :
  param Samples.by_owner_paged "itemsPerPage" = VStr "50"
  /\ param Samples.by_owner "itemsPerPage" = VUndef
  /\ events_of (run (aggs_utxo_count_handler Example.env)) Samples.by_owner_paged
     = events_of (run (aggs_utxo_count_handler Example.env)) Samples.by_owner.
Proof.
  split; [vm_compute; reflexivity|]. split; [vm_compute; reflexivity|].
  apply (count_ignores_pagination Example.env).
  intros k Hk. simpl in Hk.
  destruct Hk as [<- | [<- | [<- | [<- | [<- | []]]]]]; vm_compute; reflexivity.
Defined.

(** X10. Numeric parameters written in decimal reach the store as
    numbers: on [/utxo], [shardId] and [confirmThreshold] given as the
    decimal text of safe integers [s] and [t] (at most [2^53 - 1] in
    magnitude) are passed to [getUTXO] as the numbers [s] and [t], zero
    included (the text of zero is truthy), and [itemsPerPage] given as the
    text of a safe integer [n] makes the limit [n + 1], or 16 when [n] is
    zero. *)
Theorem decimal_parameters_reach_the_store (context : Env) (q : Query)
  (shard threshold page : Z) (p : GetUTXO.params) :
  is_safe_integer shard -> is_safe_integer threshold -> is_safe_integer page ->
  param q "shardId" = VStr (string_of_Z shard) ->
  param q "confirmThreshold" = VStr (string_of_Z threshold) ->
  param q "itemsPerPage" = VStr (string_of_Z page) ->
  In (Call (UTXOModel_getUTXO p)) (events_of (run (utxo_handler context)) q) ->
  GetUTXO.shardId p = VNum (Int shard)
  /\ GetUTXO.confirmThreshold p = VNum (Int threshold)
  /\ GetUTXO.itemsPerPage p
     = VNum (Int (if page =? 0 then 16 else page + 1)).
Proof.
  unfold is_safe_integer.
  intros Hshard Hthreshold Hpage Hs Ht Hp Hcall.
  apply utxo_handler_calls in Hcall as [h ->].
  unfold utxo_params. cbn.
  rewrite Hs, Ht, Hp, !and_parseInt_printed by assumption.
  split; [reflexivity|]. split; [reflexivity|].
  unfold itemsPerPage_of, js_or. rewrite and_parseInt_printed by assumption.
  cbn [truthy num_is_zero].
  destruct (Z.eqb_spec page 0) as [-> | Hne]; cbn [negb]; [reflexivity|].
  cbn [js_add ToPrimitive ToNumber_nonstring]. now rewrite num_add_one.
Qed.

(** Shard 0, six confirmations, pages of twenty. *)
Lemma decimal_parameters_reach_the_store_witness :
  exists p,
    In (Call (UTXOModel_getUTXO p))
       (events_of (run (utxo_handler Example.env)) Samples.filtered)
    /\ GetUTXO.shardId p = VNum (Int 0)
    /\ GetUTXO.confirmThreshold p = VNum (Int 6)
    /\ GetUTXO.itemsPerPage p = VNum (Int 21).
Proof.
  exists (utxo_params Samples.filtered None).
  assert (Hcall : In (Call (UTXOModel_getUTXO (utxo_params Samples.filtered None)))
                     (events_of (run (utxo_handler Example.env)) Samples.filtered))
    by (vm_compute; left; reflexivity).
  split; [exact Hcall|].
  apply (decimal_parameters_reach_the_store Example.env Samples.filtered 0 6 20);
    [vm_compute; discriminate | vm_compute; discriminate
    | vm_compute; discriminate
    | vm_compute; reflexivity | vm_compute; reflexivity | vm_compute; reflexivity
    | exact Hcall].
Defined.

(** X11. The page of a listing is built from what was asked and what the
    store gave: once [getUTXO] or [getAggsUTXO] has been called, the
    handler does nothing but answer, with the error the store raised or
    with [createPaginationResult] of exactly the rows the store returned,
    the cursors that went into the call, and the page size; the cursors of
    an aggregate page are made with the order the rows were asked in. *)
Theorem listing_page_is_built_from_the_rows (context : Env) (q : Query) :
  (forall p,
      In (Call (UTXOModel_getUTXO p)) (events_of (run (utxo_handler context)) q) ->
      events_of (run (utxo_handler context)) q
      = [Call (UTXOModel_getUTXO p);
         match getUTXO context p with
         | Returns rows =>
             Send (Json (createPaginationResult context
               {| Pagination.query_firstEvaluatedKey := GetUTXO.firstEvaluatedKey p;
                  Pagination.query_lastEvaluatedKey := GetUTXO.lastEvaluatedKey p;
                  Pagination.rows := rows;
                  Pagination.getEvaluatedKey :=
                    Express.createUTXOEvaluatedKey context;
                  Pagination.itemsPerPage :=
                    itemsPerPage_of (param q "itemsPerPage") |}))
         | Throws e => NextErr e
         end])
  /\ (forall p,
      In (Call (UTXOModel_getAggsUTXO p))
         (events_of (run (aggs_utxo_handler context)) q) ->
      events_of (run (aggs_utxo_handler context)) q
      = [Call (UTXOModel_getAggsUTXO p);
         match getAggsUTXO context p with
         | Returns rows =>
             Send (Json (createPaginationResult context
               {| Pagination.query_firstEvaluatedKey :=
                    GetAggsUTXO.firstEvaluatedKey p;
                  Pagination.query_lastEvaluatedKey :=
                    GetAggsUTXO.lastEvaluatedKey p;
                  Pagination.rows := rows;
                  Pagination.getEvaluatedKey :=
                    (fun row => Express.createAggsUTXOEvaluatedKey context row
                                  (GetAggsUTXO.order p));
                  Pagination.itemsPerPage :=
                    itemsPerPage_of (param q "itemsPerPage") |}))
         | Throws e => NextErr e
         end]).
Proof.
  split; intros p Hp.
  - pose proof Hp as Hcall. apply utxo_handler_calls in Hcall as [h ->].
    unfold events_of in *. rewrite utxo_handler_run in *. cbn [snd] in *.
    destruct (assetType_result (param q "assetType")) as [h'|e].
    + destruct Hp as [E | Hp].
      * injection E as E. rewrite E. unfold call_then_respond.
        now destruct (getUTXO context (utxo_params q h)).
      * unfold call_then_respond in Hp.
        destruct (getUTXO context (utxo_params q h')); simpl in Hp;
          destruct Hp as [Hp | []]; discriminate Hp.
    + destruct Hp as [Hp | []]. discriminate Hp.
  - pose proof Hp as Hcall. apply aggs_utxo_handler_calls in Hcall as [h ->].
    unfold events_of in *. rewrite aggs_utxo_handler_run in *. cbn [snd] in *.
    destruct (assetType_result (param q "assetType")) as [h'|e].
    + destruct Hp as [E | Hp].
      * injection E as E. rewrite E. unfold call_then_respond.
        now destruct (getAggsUTXO context (aggs_params q h)).
      * unfold call_then_respond in Hp.
        destruct (getAggsUTXO context (aggs_params q h')); simpl in Hp;
          destruct Hp as [Hp | []]; discriminate Hp.
    + destruct Hp as [Hp | []]. discriminate Hp.
Qed.

(** X12. The three stacks that sync, stage by stage: a request that passes
    cursor parsing (on [/utxo] and [/aggs-utxo]; [/aggs-utxo/count] has no
    such stage) and validation goes through [syncIfNeeded] on the query the
    validator returned. Its handler runs on that query when no sync is
    asked for or when the sync succeeds; when the sync fails, on the
    connection or otherwise, the handler does not run and the store is not
    called. *)
Theorem listing_pipeline (context : Env) (q q1 q2 : Query) :
  (run parseEvaluatedKey q = (q1, [Next]) ->
   validate_query context
     [utxoSchema; paginationSchema; utxoPaginationSchema] q1 = inl q2 ->
   dispatch (utxo_route context) q
   = after_sync context q2 (events_of (run (utxo_handler context)) q2))
  /\ (run parseEvaluatedKey q = (q1, [Next]) ->
      validate_query context
        [utxoSchema; paginationSchema; aggsUTXOPaginationSchema] q1 = inl q2 ->
      dispatch (aggs_utxo_route context) q
      = after_sync context q2 (events_of (run (aggs_utxo_handler context)) q2))
  /\ (validate_query context [utxoSchema] q = inl q2 ->
      dispatch (aggs_utxo_count_route context) q
      = after_sync context q2
          (events_of (run (aggs_utxo_count_handler context)) q2))
  /\ (forall handled message,
      param q2 "sync" = VBool true ->
      sync context = Some message ->
      after_sync context q2 handled
      = [Call worker_sync;
         if is_connection_error message
         then Send (Status SERVICE_UNAVAILABLE)
         else NextErr (JsError message)]).
Proof.
  split; [|split; [|split]].
  - intros Hp Hv. unfold utxo_route.
    rewrite (dispatch_next _ _ _ _ Hp), validate_dispatch, Hv.
    apply sync_then, utxo_handler_answers_once.
  - intros Hp Hv. unfold aggs_utxo_route.
    rewrite (dispatch_next _ _ _ _ Hp), validate_dispatch, Hv.
    apply sync_then, aggs_utxo_handler_answers_once.
  - intros Hv. unfold aggs_utxo_count_route.
    rewrite validate_dispatch, Hv.
    apply sync_then, count_handler_answers_once.
  - intros handled message Hq Hs. unfold after_sync. rewrite Hq, Hs.
    now destruct (is_connection_error message).
Qed.

(** The whole [/utxo] stack behind a worker whose socket hangs up. *)
Lemma listing_pipeline_witness :
  dispatch (utxo_route Samples.flaky) Example.synced_listing
  = [Call worker_sync; NextErr (JsError "socket hang up")].
Proof.
  destruct (listing_pipeline Samples.flaky Example.synced_listing
              Example.synced_listing Example.synced_listing) as [Hutxo _].
  rewrite Hutxo by (vm_compute; reflexivity).
  vm_compute. reflexivity.
Defined.

(** X13. A request that the validator refuses ends there, on the four
    stacks of the asset router that validate the query: the failure is
    passed to [next], the worker and the store are not called and nothing
    is sent. *)
Theorem validation_failure_ends_the_request (context : Env) (q q1 : Query)
  (detail : string) :
  (run parseEvaluatedKey q = (q1, [Next]) ->
   validate_query context
     [utxoSchema; paginationSchema; utxoPaginationSchema] q1 = inr detail ->
   dispatch (utxo_route context) q = [NextErr (ValidationFailure detail)])
  /\ (run parseEvaluatedKey q = (q1, [Next]) ->
      validate_query context
        [utxoSchema; paginationSchema; aggsUTXOPaginationSchema] q1
      = inr detail ->
      dispatch (aggs_utxo_route context) q
      = [NextErr (ValidationFailure detail)])
  /\ (run parseEvaluatedKey q = (q1, [Next]) ->
      validate_query context [snapshotSchema; snapshotPaginationSchema] q1
      = inr detail ->
      dispatch (snapshot_route context) q
      = [NextErr (ValidationFailure detail)])
  /\ (validate_query context [utxoSchema] q = inr detail ->
      dispatch (aggs_utxo_count_route context) q
      = [NextErr (ValidationFailure detail)]).
Proof.
  repeat split.
  - intros Hp Hv. unfold utxo_route.
    now rewrite (dispatch_next _ _ _ _ Hp), validate_dispatch, Hv.
  - intros Hp Hv. unfold aggs_utxo_route.
    now rewrite (dispatch_next _ _ _ _ Hp), validate_dispatch, Hv.
  - intros Hp Hv. unfold snapshot_route.
    now rewrite (dispatch_next _ _ _ _ Hp), validate_dispatch, Hv.
  - intros Hv. unfold aggs_utxo_count_route.
    now rewrite validate_dispatch, Hv.
Qed.

(** X14. Every request on [/utxo], [/aggs-utxo] and [/aggs-utxo/count] is
    answered exactly once, with a response or with an error passed to
    [next], whatever the cursors, the validator, the worker and the store
    do; a sync failure that is not a connection error included, after
    which [syncIfNeeded] calls [next()] too but no handler is left to
    answer. *)
Theorem listing_requests_are_answered (context : Env) (q : Query) :
  answers (dispatch (utxo_route context) q) = 1%nat
  /\ answers (dispatch (aggs_utxo_route context) q) = 1%nat
  /\ answers (dispatch (aggs_utxo_count_route context) q) = 1%nat.
Proof.
  split; [|split].
  - apply (answers_paginated context SpecModel.listUTXO).
    intros q3. apply answers_synced, utxo_handler_answers_once.
  - apply (answers_paginated context SpecModel.listAggregateUTXO).
    intros q3. apply answers_synced, aggs_utxo_handler_answers_once.
  - unfold aggs_utxo_count_route. rewrite validate_dispatch.
    destruct (validate_query context [utxoSchema] q) as [q3|detail];
      [|reflexivity].
    apply answers_synced, count_handler_answers_once.
Qed.

(** One answer, the error, behind the worker whose socket hangs up. *)
Lemma listing_requests_are_answered_witness :
  dispatch (utxo_route Samples.flaky) Example.synced_listing
  = [Call worker_sync; NextErr (JsError "socket hang up")]
  /\ answers (dispatch (utxo_route Samples.flaky) Example.synced_listing)
     = 1%nat.
Proof.
  split; [vm_compute; reflexivity|].
  now destruct (listing_requests_are_answered Samples.flaky
                  Example.synced_listing) as [H _].
Defined.

(** X15. A snapshot of a block that exists: with a well-formed asset type
    and a valid date for which [getByTime] finds block [b], the block is
    looked up, then [getSnapshot] is called with the asset type, the
    number of [b] and the [lastEvaluatedKey] of the request, and the
    answer is the snapshot under the hash and the number of [b], or the
    error the store raised. *)
Theorem snapshot_of_a_found_block (context : Env) (q q1 q2 : Query) (t : Z)
  (b : BlockAttribute) :
  run parseEvaluatedKey q = (q1, [Next]) ->
  validate_query context [snapshotSchema; snapshotPaginationSchema] q1
  = inl q2 ->
  H160_check (param q2 "assetType") = true ->
  moment_unix context (param q2 "date") = Some t ->
  getByTime context t = Returns (Some b) ->
  let p := {| GetSnapshot.assetType := mkH160 (ToString (param q2 "assetType"));
              GetSnapshot.blockNumber := VNum (Int (number b));
              GetSnapshot.lastEvaluatedKey := param q2 "lastEvaluatedKey" |} in
  dispatch (snapshot_route context) q
  = [Call (BlockModel_getByTime t); Call (UTXOModel_getSnapshot p);
     match getSnapshot context p with
     | Returns snapshot => Send (Json (snapshot_body b snapshot))
     | Throws e => NextErr e
     end].
Proof.
  intros Hp Hv Hasset Hdate Hblock p.
  rewrite (snapshot_dispatch context q q1 q2 Hp Hv).
  unfold events_of. rewrite snapshot_handler_run. cbn [snd].
  rewrite Hasset, Hdate, Hblock. unfold call_then_respond.
  change (snapshot_params q2 b) with p.
  now destruct (getSnapshot context p).
Qed.

(** The example store in June 2019: its one block is found. *)
Lemma snapshot_of_a_found_block_witness :
  dispatch (snapshot_route Example.env) Samples.dated_snapshot
  = [Call (BlockModel_getByTime 1559347200);
     Call (UTXOModel_getSnapshot
             {| GetSnapshot.assetType := mkH160 Example.asset;
                GetSnapshot.blockNumber := VNum (Int 0);
                GetSnapshot.lastEvaluatedKey := VUndef |});
     Send (Json (VObj [("blockHash", VStr (hash Example.first_block));
                       ("blockNumber", VNum (Int 0));
                       ("data", VArr [])]))].
Proof.
  pose proof (snapshot_of_a_found_block Example.env Samples.dated_snapshot
                Samples.dated_snapshot Samples.dated_snapshot 1559347200
                Example.first_block) as H.
  cbv zeta in H. rewrite H by (vm_compute; reflexivity).
  vm_compute. reflexivity.
Defined.

(** X16. A snapshot needs an asset type, and the asset type is looked at
    first: when [req.query.assetType] is absent, or a text that is no
    hash, the request ends with the Error of [new H160] passed to [next],
    whatever the date, and no block is looked up; an array that holds one
    hash ends it with a TypeError. On the listings an absent asset type is
    no filter; here it is an error. *)
Theorem snapshot_needs_an_asset_type (context : Env) (q q1 q2 : Query) :
  run parseEvaluatedKey q = (q1, [Next]) ->
  validate_query context [snapshotSchema; snapshotPaginationSchema] q1
  = inl q2 ->
  (param q2 "assetType" = VUndef ->
   dispatch (snapshot_route context) q
   = [NextErr (JsError ("Expected 20 byte hexstring for creating H160 but found "
                          +:+ double_quoted "undefined"))])
  /\ (forall s,
      param q2 "assetType" = VStr s -> is_hex_string 40 s = false ->
      dispatch (snapshot_route context) q
      = [NextErr (JsError ("Expected 20 byte hexstring for creating H160 but found "
                             +:+ double_quoted s))])
  /\ (forall h,
      param q2 "assetType" = VArr [VStr h] -> is_hex_string 40 h = true ->
      dispatch (snapshot_route context) q = [NextErr TypeError]).
Proof.
  intros Hp Hv.
  rewrite (snapshot_dispatch context q q1 q2 Hp Hv).
  unfold events_of. rewrite snapshot_handler_run. cbn [snd].
  split; [|split].
  - now intros ->.
  - intros s -> Hc. cbn [H160_check]. now rewrite Hc, H160_error_text.
  - intros h -> Hc. cbn [H160_check]. now rewrite H160_error_array.
Qed.

(** A snapshot asked for a date only. *)
Lemma snapshot_needs_an_asset_type_witness :
  dispatch (snapshot_route Example.env) Samples.anonymous_snapshot
  = [NextErr (JsError ("Expected 20 byte hexstring for creating H160 but found "
                         +:+ double_quoted "undefined"))].
Proof.
  destruct (snapshot_needs_an_asset_type Example.env Samples.anonymous_snapshot
              Samples.anonymous_snapshot Samples.anonymous_snapshot)
    as [Habsent _]; [vm_compute; reflexivity | vm_compute; reflexivity|].
  apply Habsent. vm_compute. reflexivity.
Defined.

(** X17. The body of a snapshot answer, [{ blockHash, blockNumber,
    ...snapshot }]: every member of the snapshot is in it with the
    snapshot's value (the last one, if the snapshot has the name twice);
    so a [blockHash] or [blockNumber] member of the snapshot replaces the
    block's, and without one the body carries the hash and the number of
    the block; the body has no other member, and no key twice. *)
Theorem snapshot_body_members (b : BlockAttribute)
  (snapshot : list (string * value)) :
  exists fields,
    snapshot_body b snapshot = VObj fields
    /\ List.NoDup (List.map fst fields)
    /\ forall k,
         member k fields
         = match member k (rev snapshot) with
           | Some v => Some v
           | None =>
               member k [("blockHash", VStr (hash b));
                         ("blockNumber", VNum (Int (number b)))]
           end.
Proof.
  unfold snapshot_body. eexists. split; [reflexivity|]. split.
  - apply spread_keys_NoDup. simpl.
    constructor; [intros [H | []]; discriminate H|].
    constructor; [now intros [] | constructor].
  - intros k. apply member_spread.
Qed.

(** X18. The stacks of [/snapshot] and [/block/:hashOrNumber] have no
    [syncIfNeeded]: whatever the request says, [sync=true] included, the
    worker is never called, and every request is answered exactly once. *)
Theorem snapshot_and_block_never_sync (context : Env) (q : Query)
  (hashOrNumber : string) :
  answers (dispatch (snapshot_route context) q) = 1%nat
  /\ ~ In (Call worker_sync) (dispatch (snapshot_route context) q)
  /\ answers (dispatch (block_route context hashOrNumber) q) = 1%nat
  /\ ~ In (Call worker_sync) (dispatch (block_route context hashOrNumber) q).
Proof.
  assert (Hsnap : forall q3,
            dispatch [run (snapshot_handler context)] q3
            = events_of (run (snapshot_handler context)) q3)
    by (intros q3; apply dispatch_final, snapshot_handler_answers_once).
  assert (Hblock : dispatch (block_route context hashOrNumber) q
                   = events_of (run (block_handler context hashOrNumber)) q)
    by apply dispatch_final, block_handler_answers_once.
  change (snapshot_route context)
    with (SpecModel.stack context SpecModel.snapshot).
  rewrite paginated_dispatch, Hblock.
  split; [|split; [|split]].
  - destruct (decode_key "firstEvaluatedKey" q) as [q1|]; [|reflexivity].
    destruct (decode_key "lastEvaluatedKey" q1) as [q2|]; [|reflexivity].
    destruct (truthy _ && truthy _); [reflexivity|].
    destruct (validate_query context _ q2) as [q3|detail]; [|reflexivity].
    cbn [after_validation]. rewrite Hsnap.
    apply answers_once_one, snapshot_handler_answers_once.
  - destruct (decode_key "firstEvaluatedKey" q) as [q1|];
      [|intros [H | []]; discriminate H].
    destruct (decode_key "lastEvaluatedKey" q1) as [q2|];
      [|intros [H | []]; discriminate H].
    destruct (truthy _ && truthy _); [intros [H | []]; discriminate H|].
    destruct (validate_query context _ q2) as [q3|detail];
      [|intros [H | []]; discriminate H].
    cbn [after_validation]. rewrite Hsnap. apply snapshot_handler_no_sync.
  - apply answers_once_one, block_handler_answers_once.
  - apply block_handler_no_sync.
Qed.

(** X19. GET /block/N, for [N] the decimal text of an integer [z]: the
    block is looked up by number, and the answer is the block or [null].
    The number is [z] when [z] is a safe integer, at most [2^53 - 1] in
    magnitude, and in general the double nearest to [z], which is what
    [parseInt] returns. A text of exactly 64 digits without a sign is a
    hash to [new H256], and is looked up by hash. *)
Theorem block_decimal_identifier (context : Env) (z : Z) (q : Query) :
  events_of (run (block_handler context (string_of_Z z))) q
  = (if (0 <=? z) && (String.length (string_of_Z z) =? 64)%nat
     then call_then_respond
            (BlockModel_getByHash (mkH256 (string_of_Z z)))
            (getByHash context (mkH256 (string_of_Z z)))
            block_body
     else call_then_respond
            (BlockModel_getByNumber (double_of_Z z))
            (getByNumber context (double_of_Z z))
            block_body)
  /\ (is_safe_integer z -> double_of_Z z = Int z).
Proof.
  split; [|apply double_of_Z_safe].
  unfold events_of. rewrite block_handler_run. cbn [snd].
  rewrite H256_check_decimal.
  destruct ((0 <=? z) && (String.length (string_of_Z z) =? 64)%nat);
    [reflexivity|].
  rewrite <- (append_empty (string_of_Z z)) at 1.
  rewrite decimal_is_not_NaN by now left.
  now rewrite parseInt_printed.
Qed.

(** GET /block/0 answers with the first block of the example store. *)
Lemma block_decimal_identifier_witness :
  events_of (run (block_handler Example.env "0")) ∅
  = [Call (BlockModel_getByNumber (Int 0));
     Send (Json (plain Example.first_block))].
Proof.
  destruct (block_decimal_identifier Example.env 0 ∅) as [H _].
  exact H.
Defined.

(** X20. GET /block/N.F, a decimal number with a fraction: [isNaN] takes
    it for a number and [parseInt] reads its integer part, so the block
    numbered by the integer part is looked up: the fraction is dropped,
    not refused. The number looked up is the integer part [z] itself when
    it is a safe integer, and in general the double nearest to it. *)
Theorem block_fraction_identifier (context : Env) (z : Z) (fraction : string)
  (q : Query) :
  all_chars is_digit fraction = true ->
  events_of (run (block_handler context
                    (string_of_Z z +:+ String "." fraction))) q
  = call_then_respond
      (BlockModel_getByNumber (double_of_Z z))
      (getByNumber context (double_of_Z z))
      block_body
  /\ (is_safe_integer z -> double_of_Z z = Int z).
Proof.
  intros Hf. split; [|apply double_of_Z_safe].
  unfold events_of. rewrite block_handler_run. cbn [snd].
  rewrite H256_check_fraction by exact Hf.
  rewrite decimal_is_not_NaN by (right; eauto).
  unfold parseInt. cbn [ToString].
  now rewrite parseInt_string_printed.
Qed.

(** GET /block/0.5 answers with block 0. *)
Lemma block_fraction_identifier_witness :
  events_of (run (block_handler Example.env "0.5")) ∅
  = [Call (BlockModel_getByNumber (Int 0));
     Send (Json (plain Example.first_block))].
Proof.
  destruct (block_fraction_identifier Example.env 0 "5" ∅ eq_refl) as [H _].
  exact H.
Defined.

(** X21. GET /block/ followed by blank text (white space only): [isNaN]
    takes blank text for a number, zero, and [parseInt] finds no digit in
    it, so the handler asks the store for the block whose number is NaN. *)
Theorem block_blank_identifier (context : Env) (blank : string) (q : Query) :
  all_chars is_str_ws blank = true ->
  events_of (run (block_handler context blank)) q
  = call_then_respond
      (BlockModel_getByNumber NaN) (getByNumber context NaN) block_body.
Proof.
  intros Hs. unfold events_of. rewrite block_handler_run. cbn [snd].
  cbn [H256_check]. rewrite blank_not_hex by exact Hs.
  unfold isNaN_string, trim, parseInt, parseInt_string. cbn [ToString].
  now rewrite blank_trim_left.
Qed.

(** One space for an identifier. *)
Lemma block_blank_identifier_witness :
  events_of (run (block_handler Example.env " ")) ∅
  = [Call (BlockModel_getByNumber NaN); Send (Json VNull)].
Proof.
  exact (block_blank_identifier Example.env " " ∅ eq_refl).
Defined.

End Properties.

(** * Properties of the other routes *)

Module RouteProperties.

Import Primitives Express Views Shapes HandlerFacts DecimalTextFacts.
Import Paths Effects AssetSchemeRouter BlockRoutes RouteFacts.

(** X22. [/asset-scheme/:assetType] and [/asset-image/:assetType] refuse
    alike and differ on what is missing: a validation failure, or an asset
    type that [new H160] rejects, ends either request with that error
    passed to [next] before any lookup; an asset type that the store does
    not know is answered [null] by the scheme route, and 404 with the text
    [Not found] by the image route. *)
Theorem scheme_and_image_refusals (models : Models) (params : Query) :
  (forall detail,
      validate_params models params = inr detail ->
      asset_scheme_route models params = [Fails (Exn (ValidationFailure detail))]
      /\ asset_image_route models params
         = [Fails (Exn (ValidationFailure detail))])
  /\ (forall params',
      validate_params models params = inl params' ->
      H160_check (param params' "assetType") = false ->
      asset_scheme_route models params
      = [Fails (Exn (AssetRouter.H160_error (param params' "assetType")))]
      /\ asset_image_route models params
         = [Fails (Exn (AssetRouter.H160_error (param params' "assetType")))])
  /\ (forall params',
      validate_params models params = inl params' ->
      H160_check (param params' "assetType") = true ->
      (scheme_getByAssetType models
         (mkH160 (ToString (param params' "assetType"))) = Returns None ->
       asset_scheme_route models params
       = [Calls (AssetSchemeModel_getByAssetType
                   (mkH160 (ToString (param params' "assetType"))));
          Replies (Body (Json VNull))])
      /\ (image_getByAssetType models
            (mkH160 (ToString (param params' "assetType"))) = Returns None ->
          asset_image_route models params
          = [Calls (AssetImageModel_getByAssetType
                      (mkH160 (ToString (param params' "assetType"))));
             Replies (StatusSend 404 "Not found")])).
Proof.
  unfold asset_scheme_route, asset_image_route, validated.
  split; [|split].
  - intros detail ->. now split.
  - intros params' -> Hc.
    rewrite asset_scheme_handler_effects, asset_image_handler_effects.
    cbv zeta. rewrite Hc. now split.
  - intros params' -> Hc.
    rewrite asset_scheme_handler_effects, asset_image_handler_effects.
    cbv zeta. rewrite Hc. split; now intros ->.
Qed.

(** X23. What [/asset-image/:assetType] writes: whenever it writes a head
    and ends the response with a chunk, the head is 200 with content type
    [image/png] and a content length that is the number of bytes of the
    chunk; the chunk is the image the store returned; and the route never
    sends a JSON body. *)
Theorem image_length_is_announced (models : Models) (params : Query) :
  (forall code headers chunk,
      In (Replies (WriteHead code headers)) (asset_image_route models params) ->
      In (Replies (EndWith chunk)) (asset_image_route models params) ->
      code = 200
      /\ member "Content-Type" headers = Some (VStr "image/png")
      /\ member "Content-Length" headers
         = Some (VNum (Int (Z.of_nat (length chunk)))))
  /\ (forall params' image,
      validate_params models params = inl params' ->
      H160_check (param params' "assetType") = true ->
      image_getByAssetType models
        (mkH160 (ToString (param params' "assetType")))
      = Returns (Some image) ->
      exists head,
        asset_image_route models params
        = [Calls (AssetImageModel_getByAssetType
                    (mkH160 (ToString (param params' "assetType"))));
           Replies head; Replies (EndWith image)])
  /\ (forall r, ~ In (Replies (Body r)) (asset_image_route models params)).
Proof.
  unfold asset_image_route, validated.
  destruct (validate_params models params) as [params'|detail].
  - rewrite asset_image_handler_effects. cbv zeta.
    destruct (H160_check (param params' "assetType")) eqn:Hcheck.
    + destruct (image_getByAssetType models _) as [[image|]|e] eqn:Hi.
      * split; [|split].
        -- intros code headers chunk [H | [H | [H | []]]] [H' | [H' | [H' | []]]];
             try discriminate H; try discriminate H'.
           injection H as <- <-. injection H' as <-. now repeat split.
        -- intros p' image' E _ Hi'. injection E as <-.
           rewrite Hi in Hi'. injection Hi' as <-. eauto.
        -- intros r [H | [H | [H | []]]]; discriminate H.
      * split; [|split].
        -- intros code headers chunk [H | [H | []]]; discriminate H.
        -- intros p' image' E _ Hi'. injection E as <-.
           rewrite Hi in Hi'. discriminate Hi'.
        -- intros r [H | [H | []]]; discriminate H.
      * split; [|split].
        -- intros code headers chunk [H | [H | []]]; discriminate H.
        -- intros p' image' E _ Hi'. injection E as <-.
           rewrite Hi in Hi'. discriminate Hi'.
        -- intros r [H | [H | []]]; discriminate H.
    + split; [|split].
      * intros code headers chunk [H | []]; discriminate H.
      * intros p' image' E Hc. injection E as <-. congruence.
      * intros r [H | []]; discriminate H.
  - split; [|split].
    + intros code headers chunk [H | []]; discriminate H.
    + intros p' image' E. discriminate E.
    + intros r [H | []]; discriminate H.
Qed.

(** X24. GET /block asks the store once and applies no default: [address]
    goes as it is, an absent [page] or [itemsPerPage] goes as [undefined]
    (the 1 and the 15 of the route's description are not set here), one
    written as the decimal text of a safe integer goes as that number; the
    answer lists the blocks the store returned, in its order, or passes on
    its error. *)
Theorem block_listing_has_no_defaults (models : Models) (q : Query) :
  exists p,
    effects (blocks_handler models q)
    = Calls (BlockModel_getBlocks p) ::
        match getBlocks models p with
        | Returns blocks =>
            [Replies (Body (Json (VArr (List.map plain blocks))))]
        | Throws e => [Fails (Exn e)]
        end
    /\ GetBlocks.address p = param q "address"
    /\ (param q "page" = VUndef -> GetBlocks.page p = VUndef)
    /\ (param q "itemsPerPage" = VUndef -> GetBlocks.itemsPerPage p = VUndef)
    /\ (forall z, param q "page" = VStr (string_of_Z z) ->
                  is_safe_integer z ->
                  GetBlocks.page p = VNum (Int z))
    /\ (forall z, param q "itemsPerPage" = VStr (string_of_Z z) ->
                  is_safe_integer z ->
                  GetBlocks.itemsPerPage p = VNum (Int z)).
Proof.
  rewrite blocks_handler_effects. cbv zeta. eexists.
  split; [reflexivity|]. cbn.
  split; [reflexivity|].
  split; [now intros ->|]. split; [now intros ->|].
  split; intros z -> Hz; now apply and_parseInt_printed.
Qed.

(** X25. The block router registers [/block/:hashOrNumber] before
    [/block/count]: no GET request, whatever its path, reaches the handler
    that raises [Exception.NotImplmeneted]; GET /block/count is served by
    the parameter route with [count] for an identifier and answered
    [null]. [/block/latest], registered first, is served by its own
    handler. This holds for every setting of the router's options. *)
Theorem block_count_is_never_reached (o : options) (context : Env)
  (models : Models) (q : Query) :
  (forall request_path,
      ~ In (Fails NotImplmeneted)
           (serve o (handle context models) request_path q))
  /\ serve o (handle context models) "/block/count" q
     = [Replies (Body (Json VNull))]
  /\ serve o (handle context models) "/block/latest" q
     = effects (latest_handler models).
Proof.
  split; [|split].
  - intros request_path. cbn [serve handle route_path route_stack].
    destruct (match_path o "/block/latest" request_path) as [params|].
    { rewrite flat_map_settled by apply latest_handler_settled.
      apply settled_not_NotImplmeneted, latest_handler_settled. }
    destruct (match_path o "/block/:hashOrNumber" request_path)
      as [params|] eqn:Hparam.
    { rewrite flat_map_settled by apply block_handler_settled.
      apply settled_not_NotImplmeneted, block_handler_settled. }
    destruct (match_path o "/block" request_path) as [params|].
    { rewrite flat_map_settled by apply blocks_handler_settled.
      apply settled_not_NotImplmeneted, blocks_handler_settled. }
    rewrite (count_route_is_shadowed o request_path Hparam). now intros [].
  - cbn [serve handle route_path route_stack].
    destruct o as [[] []]; vm_compute; reflexivity.
  - cbn [serve handle route_path route_stack].
    replace (match_path o "/block/latest" "/block/latest")
      with (Some (@nil (string * string)))
      by (destruct o as [[] []]; reflexivity).
    apply flat_map_settled, latest_handler_settled.
Qed.

End RouteProperties.
